(** * dataklasses: record methods by patching compiled templates

    A shallow embedding of [dataklasses.py] and of the part of the Python
    runtime it drives: the source text of the method templates, the
    front end that [exec] runs on that text, code objects and their
    symbol tables, the bytecode the templates compile to, the call
    protocol, and the [lru_cache] in front of the compiler.

    The embedding follows CPython 3.8 to 3.9, the versions for which
    [code_replace] rebuilds a code object from the sixteen fields of
    [_CODE_FIELD_ORDER]. *)

From Stdlib Require Import String Ascii ZArith Lia Decimal DecimalString DecimalNat.
From stdpp Require Import base option list strings gmap.

Set Warnings "-register-all".

Open Scope string_scope.
Open Scope nat_scope.
Open Scope list_scope.

(** ** Outcomes of running Python code *)

(** The exceptions the model distinguishes. *)
Inductive exn :=
| SyntaxError
| TypeError
| ValueError
| AttributeError
| NameError.

(** A computation returns, raises, or leaves the defined behaviour of
    the interpreter ([Fault]: an operand that indexes past the end of a
    symbol table or of the value stack, which CPython does not check).
    [Unsupported] marks Python behaviour outside the embedding. *)
Inductive result (A : Type) :=
| Ok (a : A)
| Raise (e : exn)
| Fault
| Unsupported.
Arguments Ok {A} a.
Arguments Raise {A} e.
Arguments Fault {A}.
Arguments Unsupported {A}.

Definition rbind {A B} (r : result A) (k : A -> result B) : result B :=
  match r with
  | Ok a => k a
  | Raise e => Raise e
  | Fault => Fault
  | Unsupported => Unsupported
  end.

(** ** Ordered dictionaries

    A Python [dict] keeps its keys in insertion order, and assigning to
    a key that is present keeps the key where it is. *)
Module PyDict.
Section dict.
Context {V : Type}.

Fixpoint setitem (k : string) (v : V) (d : list (string * V)) : list (string * V) :=
  match d with
  | [] => [(k, v)]
  | (k', v') :: d' =>
      if String.eqb k' k then (k', v) :: d' else (k', v') :: setitem k v d'
  end.

Fixpoint getitem (k : string) (d : list (string * V)) : option V :=
  match d with
  | [] => None
  | (k', v') :: d' => if String.eqb k' k then Some v' else getitem k d'
  end.

(** [d.update(items)] *)
Definition update (d items : list (string * V)) : list (string * V) :=
  fold_left (fun acc kv => setitem (fst kv) (snd kv) acc) items d.

(** The display [{**a, **b}]: a new dict, updated with [a], then [b]. *)
Definition unpack2 (a b : list (string * V)) : list (string * V) :=
  update (update [] a) b.

Definition keys (d : list (string * V)) : list string := map fst d.
End dict.
End PyDict.

(** ** Code objects *)

Inductive const :=
| KNone
| KStr (s : string).

Inductive cmp_op :=
| CmpEq
| CmpIs.

(** The instructions the templates compile to.  An operand of a [LOAD_]
    or [STORE_] instruction is an index into [co_varnames], [co_consts]
    or [co_names]; a jump target is an instruction index. *)
Inductive instr :=
| LOAD_FAST (i : nat)
| LOAD_CONST (i : nat)
| LOAD_GLOBAL (i : nat)
| LOAD_ATTR (i : nat)
| STORE_ATTR (i : nat)
| CALL_FUNCTION (argc : nat)
| FORMAT_VALUE (flags : nat)
| BUILD_STRING (n : nat)
| BUILD_TUPLE (n : nat)
| COMPARE_OP (op : cmp_op)
| POP_JUMP_IF_FALSE (target : nat)
| RETURN_VALUE.

Record code := {
  co_argcount : nat;
  co_posonlyargcount : nat;
  co_kwonlyargcount : nat;
  co_nlocals : nat;
  co_stacksize : nat;
  co_flags : nat;
  co_code : list instr;
  co_consts : list const;
  co_names : list string;
  co_varnames : list string;
  co_filename : string;
  co_name : string;
  co_firstlineno : nat;
  co_lnotab : list (nat * nat);
  co_freevars : list string;
  co_cellvars : list string
}.

(** A function object: its identity, its code, and its globals (the
    templates all run in the module's own globals, so the model keeps
    the module's name). *)
Record pyfunc := {
  fn_id : nat;
  fn_code : code;
  fn_globals : string
}.

(** ** Classes *)

(** What the namespace of a class can hold. *)
Inductive attr :=
| AFunc (f : pyfunc)
| AAnnotations (d : list (string * string))
| ANames (t : list string)
| AOpaque (tag : string).

(** A class: its identity, [__name__], [vars(cls)], and the tail of its
    [__mro__] (the classes after [cls] itself). *)
Inductive pyclass :=
| Class (id : nat) (name : string) (dict : gmap string attr) (bases : list pyclass).

Definition cls_id (c : pyclass) : nat := let 'Class i _ _ _ := c in i.
Definition cls_name (c : pyclass) : string := let 'Class _ n _ _ := c in n.
Definition cls_vars (c : pyclass) : gmap string attr := let 'Class _ _ d _ := c in d.
Definition cls_mro (c : pyclass) : list pyclass := let 'Class _ _ _ bs := c in c :: bs.

(** [cls.name = a] *)
Definition cls_setattr (c : pyclass) (name : string) (a : attr) : pyclass :=
  let 'Class i n d bs := c in Class i n (<[name := a]> d) bs.

(** Attribute lookup on a class: the first namespace along its
    [__mro__] that has the name. *)
Fixpoint mro_lookup (name : string) (mro : list pyclass) : option attr :=
  match mro with
  | [] => None
  | c :: rest =>
      match cls_vars c !! name with
      | Some a => Some a
      | None => mro_lookup name rest
      end
  end.

Definition type_getattr (c : pyclass) (name : string) : option attr :=
  mro_lookup name (cls_mro c).

(** [getattr(y, '__annotations__', {})], and what [**] makes of it: a
    mapping is unpacked, anything else is a [TypeError]. *)
Definition annotations_of (y : pyclass) : result (list (string * string)) :=
  match type_getattr y "__annotations__" with
  | None => Ok []
  | Some (AAnnotations d) => Ok d
  | Some _ => Raise TypeError
  end.

(** [reduce(lambda x, y: {**getattr(y, '__annotations__', {}), **x},
           cls.__mro__, {})] *)
Definition all_hints_step (x : result (list (string * string))) (y : pyclass)
  : result (list (string * string)) :=
  rbind x (fun x => rbind (annotations_of y) (fun a => Ok (PyDict.unpack2 a x))).

Definition all_hints (cls : pyclass) : result (list (string * string)) :=
  fold_left all_hints_step (cls_mro cls) (Ok []).

(** The order the specification describes for the resolved fields: walk
    the levels from most-base to most-derived and keep each name where
    it first appears. *)
Fixpoint first_appearance (seen names : list string) : list string :=
  match names with
  | [] => []
  | k :: rest =>
      if bool_decide (k ∈ seen) then first_appearance seen rest
      else k :: first_appearance (k :: seen) rest
  end.

(** ** The template sources

    Each generator of [dataklasses.py] builds the source text of one
    method from a list of names. *)

Definition nl : string := String (ascii_of_nat 10) "".
Definition dquote : string := String (ascii_of_nat 34) "".

(** [sep.join(l)] *)
Fixpoint join (sep : string) (l : list string) : string :=
  match l with
  | [] => ""
  | [x] => x
  | x :: rest => x +:+ sep +:+ join sep rest
  end.

(** [f'_{n}'] *)
Definition placeholder (n : nat) : string :=
  "_" +:+ NilEmpty.string_of_uint (Nat.to_uint n).

(** [[f'_{n}' for n in range(numfields)]] *)
Definition placeholders (numfields : nat) : list string :=
  map placeholder (seq 0 numfields).

Module Source.

Definition make__init__ (fields : list string) : string :=
  let code := "def __init__(self, " +:+ join "," fields +:+ "):" +:+ nl in
  code +:+ join nl (map (fun name => " self." +:+ name +:+ " = " +:+ name +:+ nl) fields).

Definition make__repr__ (fields : list string) : string :=
  "def __repr__(self):" +:+ nl +:+
  " return f" +:+ dquote +:+ "{type(self).__name__}(" +:+
  join ", " (map (fun name => "{self." +:+ name +:+ "!r}") fields) +:+
  ")" +:+ dquote +:+ nl.

Definition make__eq__ (fields : list string) : string :=
  let selfvals := join "," (map (fun name => "self." +:+ name) fields) in
  let othervals := join "," (map (fun name => "other." +:+ name) fields) in
  "def __eq__(self, other):" +:+ nl +:+
  "    if self.__class__ is other.__class__:" +:+ nl +:+
  "        return (" +:+ selfvals +:+ ",) == (" +:+ othervals +:+ ",)" +:+ nl +:+
  "    else:" +:+ nl +:+
  "        return NotImplemented" +:+ nl +:+
  "    ".

Definition make__iter__ (fields : list string) : string :=
  "def __iter__(self):" +:+ nl +:+
  join nl (map (fun name => "   yield self." +:+ name) fields).

Definition make__hash__ (fields : list string) : string :=
  let self_tuple := "(" +:+ join "," (map (fun name => "self." +:+ name) fields) +:+ ",)" in
  "def __hash__(self):" +:+ nl +:+
  "    return hash(" +:+ self_tuple +:+ ")" +:+ nl.

End Source.

(** ** The front end run by [exec]: tokens

    The tokenizer reads the text one character at a time.  It covers the
    lexical forms the templates use: names and keywords, the
    punctuation of calls, tuples and attribute references, [=] and [==],
    double-quoted f-strings without escapes, and the layout tokens. *)

Inductive token :=
| TName (s : string)
| TKeyword (s : string)
| TLParen | TRParen | TComma | TColon | TDot | TAssign | TEqEq
| TFString (raw : string)
| TNewline | TIndent | TDedent.

Definition keywords : list string :=
  ["False"; "None"; "True"; "and"; "as"; "assert"; "async"; "await"; "break";
   "class"; "continue"; "def"; "del"; "elif"; "else"; "except"; "finally";
   "for"; "from"; "global"; "if"; "import"; "in"; "is"; "lambda"; "nonlocal";
   "not"; "or"; "pass"; "raise"; "return"; "try"; "while"; "with"; "yield"].

Definition classify (s : string) : token :=
  if existsb (String.eqb s) keywords then TKeyword s else TName s.

Definition is_digit (c : ascii) : bool :=
  let n := nat_of_ascii c in ((48 <=? n) && (n <=? 57))%nat.

Definition is_name_start (c : ascii) : bool :=
  let n := nat_of_ascii c in
  (((65 <=? n) && (n <=? 90)) || ((97 <=? n) && (n <=? 122)) || (n =? 95))%nat.

Definition is_name_char (c : ascii) : bool := is_name_start c || is_digit c.

Inductive lexmode :=
| LineStart (col : nat)
| Mid
| InName (acc : string)
| SeenEq
| InFString (acc : string)
| LexSyntaxError
| LexUnsupported.

Record lexer := {
  lx_toks : list token;      (* most recent first *)
  lx_indents : list nat;     (* the indentation stack, innermost first *)
  lx_mode : lexmode
}.

Definition lx_emit (t : token) (lx : lexer) : lexer :=
  {| lx_toks := t :: lx_toks lx; lx_indents := lx_indents lx; lx_mode := lx_mode lx |}.

Definition lx_goto (m : lexmode) (lx : lexer) : lexer :=
  {| lx_toks := lx_toks lx; lx_indents := lx_indents lx; lx_mode := m |}.

(** Leaving blocks: pop every level deeper than [col]; the level reached
    must be [col] itself. *)
Fixpoint dedent_to (col : nat) (toks : list token) (indents : list nat) : lexer :=
  match indents with
  | [] => {| lx_toks := toks; lx_indents := []; lx_mode := LexSyntaxError |}
  | top :: below =>
      if col =? top then {| lx_toks := toks; lx_indents := indents; lx_mode := Mid |}
      else if col <? top then dedent_to col (TDedent :: toks) below
      else {| lx_toks := toks; lx_indents := indents; lx_mode := LexSyntaxError |}
  end.

(** The first character of a logical line, at column [col]. *)
Definition open_line (col : nat) (lx : lexer) : lexer :=
  match lx_indents lx with
  | [] => lx_goto LexSyntaxError lx
  | top :: _ =>
      if top <? col then
        {| lx_toks := TIndent :: lx_toks lx; lx_indents := col :: lx_indents lx; lx_mode := Mid |}
      else dedent_to col (lx_toks lx) (lx_indents lx)
  end.

(** A character met between tokens. *)
Definition lex_mid (c : ascii) (lx : lexer) : lexer :=
  match lx_mode lx with
  | Mid =>
      if Ascii.eqb c " " then lx
      else if Ascii.eqb c (ascii_of_nat 10) then lx_goto (LineStart 0) (lx_emit TNewline lx)
      else if is_name_start c then lx_goto (InName (String c "")) lx
      else if Ascii.eqb c "(" then lx_emit TLParen lx
      else if Ascii.eqb c ")" then lx_emit TRParen lx
      else if Ascii.eqb c "," then lx_emit TComma lx
      else if Ascii.eqb c ":" then lx_emit TColon lx
      else if Ascii.eqb c "." then lx_emit TDot lx
      else if Ascii.eqb c "=" then lx_goto SeenEq lx
      else lx_goto LexUnsupported lx
  | _ => lx
  end.

Definition lex_char (lx : lexer) (c : ascii) : lexer :=
  match lx_mode lx with
  | LexSyntaxError | LexUnsupported => lx
  | LineStart col =>
      if Ascii.eqb c " " then lx_goto (LineStart (S col)) lx
      else if Ascii.eqb c (ascii_of_nat 10) then lx_goto (LineStart 0) lx
      else lex_mid c (open_line col lx)
  | Mid => lex_mid c lx
  | InName acc =>
      if is_name_char c then lx_goto (InName (acc +:+ String c "")) lx
      else if Ascii.eqb c (ascii_of_nat 34) then
        if String.eqb acc "f" then lx_goto (InFString "") lx
        else lx_goto LexUnsupported lx
      else lex_mid c (lx_goto Mid (lx_emit (classify acc) lx))
  | SeenEq =>
      if Ascii.eqb c "=" then lx_goto Mid (lx_emit TEqEq lx)
      else lex_mid c (lx_goto Mid (lx_emit TAssign lx))
  | InFString acc =>
      if Ascii.eqb c (ascii_of_nat 34) then lx_goto Mid (lx_emit (TFString acc) lx)
      else if Ascii.eqb c (ascii_of_nat 10) then lx_goto LexSyntaxError lx
      else if Ascii.eqb c (ascii_of_nat 92) then lx_goto LexUnsupported lx
      else lx_goto (InFString (acc +:+ String c "")) lx
  end.

Fixpoint lex_string (lx : lexer) (s : string) : lexer :=
  match s with
  | EmptyString => lx
  | String c rest => lex_string (lex_char lx c) rest
  end.

(** The token that is still open when the text ends. *)
Definition lex_flush (lx : lexer) : result (list token) :=
  match lx_mode lx with
  | LineStart _ | Mid => Ok (lx_toks lx)
  | InName acc => Ok (classify acc :: lx_toks lx)
  | SeenEq => Ok (TAssign :: lx_toks lx)
  | InFString _ | LexSyntaxError => Raise SyntaxError
  | LexUnsupported => Unsupported
  end.

(** End of a module's text: close the last line and every open block. *)
Definition lex_finish (lx : lexer) : result (list token) :=
  rbind (lex_flush lx) (fun toks =>
    let toks := match lx_mode lx with LineStart _ => toks | _ => TNewline :: toks end in
    Ok (rev (repeat TDedent (length (lx_indents lx) - 1) ++ toks))).

Definition lexer_init : lexer :=
  {| lx_toks := []; lx_indents := [0]; lx_mode := LineStart 0 |}.

Definition tokenize (src : string) : result (list token) :=
  lex_finish (lex_string lexer_init src).

(** The text of a replacement field of an f-string is an expression on
    its own: no layout tokens. *)
Definition tokenize_expr (src : string) : result (list token) :=
  rbind (lex_flush (lex_string {| lx_toks := []; lx_indents := [0]; lx_mode := Mid |} src))
        (fun toks => Ok (rev toks)).

(** ** The front end run by [exec]: syntax trees *)

Inductive expr :=
| EName (s : string)
| EAttr (e : expr) (a : string)
| ECall (f : expr) (args : list expr)
| ETuple (es : list expr)
| ECompare (l : expr) (op : cmp_op) (r : expr)
| EJoinedStr (parts : list fpart)
with fpart :=
| FLit (s : string)
| FValue (e : expr) (conv : nat).

Inductive stmt :=
| SAssign (target value : expr)
| SReturn (e : expr)
| SExpr (e : expr)
| SIf (test : expr) (body orelse : list stmt).

Record funcdef := {
  fd_name : string;
  fd_params : list string;
  fd_body : list stmt
}.

(** *** f-strings

    The body of an f-string is cut into literal text and replacement
    fields; the text of a field is parsed as an expression by the
    parser passed in.  Conversions other than [!r], format
    specifications, and quotes or brackets inside a field are outside
    the embedding. *)
Inductive fsmode :=
| FsLit
| FsLBrace
| FsRBrace
| FsExpr (text : string) (depth : nat)
| FsBang (text : string)
| FsConv (text : string) (conv : nat)
| FsFail (r : result unit).

Record fstate := {
  fs_parts : list fpart;     (* most recent first *)
  fs_lit : string;
  fs_mode : fsmode
}.

Definition fs_goto (m : fsmode) (st : fstate) : fstate :=
  {| fs_parts := fs_parts st; fs_lit := fs_lit st; fs_mode := m |}.

Definition fs_lit_char (c : ascii) (st : fstate) : fstate :=
  {| fs_parts := fs_parts st; fs_lit := fs_lit st +:+ String c ""; fs_mode := FsLit |}.

Definition fs_flush_lit (st : fstate) : list fpart :=
  if String.eqb (fs_lit st) "" then fs_parts st else FLit (fs_lit st) :: fs_parts st.

Definition ascii_in (c : ascii) (s : string) : bool :=
  existsb (Ascii.eqb c) (list_ascii_of_string s).

Section fstring.
Variable parse_expression : list token -> result (expr * list token).

Definition fs_parse_field (text : string) : result expr :=
  rbind (tokenize_expr text) (fun toks =>
  rbind (parse_expression toks) (fun '(e, rest) =>
    match rest with
    | [] => Ok e
    | _ => Unsupported
    end)).

Definition fs_close_field (text : string) (conv : nat) (st : fstate) : fstate :=
  match fs_parse_field text with
  | Ok e => {| fs_parts := FValue e conv :: fs_flush_lit st; fs_lit := ""; fs_mode := FsLit |}
  | Raise e => fs_goto (FsFail (Raise e)) st
  | Fault => fs_goto (FsFail Fault) st
  | Unsupported => fs_goto (FsFail Unsupported) st
  end.

Definition fs_expr_char (text : string) (depth : nat) (c : ascii) (st : fstate) : fstate :=
  if Ascii.eqb c "(" then fs_goto (FsExpr (text +:+ String c "") (S depth)) st
  else if Ascii.eqb c ")" then
    match depth with
    | 0 => fs_goto (FsFail (Raise SyntaxError)) st
    | S d => fs_goto (FsExpr (text +:+ String c "") d) st
    end
  else if ascii_in c "{[]#'\" || Ascii.eqb c (ascii_of_nat 34) then
    fs_goto (FsFail Unsupported) st
  else
    match depth with
    | 0 =>
        if Ascii.eqb c "}" then fs_close_field text 0 st
        else if Ascii.eqb c "!" then fs_goto (FsBang text) st
        else if Ascii.eqb c ":" then fs_goto (FsFail Unsupported) st
        else fs_goto (FsExpr (text +:+ String c "") 0) st
    | S _ => fs_goto (FsExpr (text +:+ String c "") depth) st
    end.

Definition fs_char (st : fstate) (c : ascii) : fstate :=
  match fs_mode st with
  | FsFail _ => st
  | FsLit =>
      if Ascii.eqb c "{" then fs_goto FsLBrace st
      else if Ascii.eqb c "}" then fs_goto FsRBrace st
      else fs_lit_char c st
  | FsLBrace =>
      if Ascii.eqb c "{" then fs_lit_char c st
      else if Ascii.eqb c "}" then fs_goto (FsFail (Raise SyntaxError)) st
      else fs_expr_char "" 0 c st
  | FsRBrace =>
      if Ascii.eqb c "}" then fs_lit_char c st
      else fs_goto (FsFail (Raise SyntaxError)) st
  | FsExpr text depth => fs_expr_char text depth c st
  | FsBang text =>
      if Ascii.eqb c "r" then fs_goto (FsConv text 2) st
      else fs_goto (FsFail Unsupported) st
  | FsConv text conv =>
      if Ascii.eqb c "}" then fs_close_field text conv st
      else fs_goto (FsFail Unsupported) st
  end.

Fixpoint fs_string (st : fstate) (s : string) : fstate :=
  match s with
  | EmptyString => st
  | String c rest => fs_string (fs_char st c) rest
  end.

Definition fs_finish (st : fstate) : result (list fpart) :=
  match fs_mode st with
  | FsLit => Ok (rev (fs_flush_lit st))
  | FsFail r => rbind r (fun _ => Unsupported)
  | _ => Raise SyntaxError
  end.

Definition parse_fstring (raw : string) : result (list fpart) :=
  fs_finish (fs_string {| fs_parts := []; fs_lit := ""; fs_mode := FsLit |} raw).
End fstring.

(** *** Expressions and statements

    A recursive-descent parser; [fuel] bounds the depth of the descent.
    A token that no expression can start with is a [SyntaxError]; forms
    of Python the embedding leaves out are [Unsupported]. *)

Definition no_atom (ts : list token) : result (expr * list token) :=
  match ts with
  | [] | TComma :: _ | TRParen :: _ | TNewline :: _ | TEqEq :: _ | TAssign :: _
  | TColon :: _ | TIndent :: _ | TDedent :: _ => Raise SyntaxError
  | _ => Unsupported
  end.

Fixpoint parse_expr (fuel : nat) (ts : list token) : result (expr * list token) :=
  match fuel with
  | 0 => Unsupported
  | S fuel =>
      rbind (parse_primary fuel ts) (fun '(l, rest) =>
        match rest with
        | TEqEq :: rest' =>
            rbind (parse_primary fuel rest') (fun '(r, rest'') => Ok (ECompare l CmpEq r, rest''))
        | TKeyword "is" :: rest' =>
            rbind (parse_primary fuel rest') (fun '(r, rest'') => Ok (ECompare l CmpIs r, rest''))
        | _ => Ok (l, rest)
        end)
  end
with parse_primary (fuel : nat) (ts : list token) : result (expr * list token) :=
  match fuel with
  | 0 => Unsupported
  | S fuel => rbind (parse_atom fuel ts) (fun '(e, rest) => parse_trailers fuel e rest)
  end
with parse_trailers (fuel : nat) (e : expr) (ts : list token) : result (expr * list token) :=
  match fuel with
  | 0 => Unsupported
  | S fuel =>
      match ts with
      | TDot :: TName a :: rest => parse_trailers fuel (EAttr e a) rest
      | TDot :: _ => Raise SyntaxError
      | TLParen :: rest =>
          rbind (parse_elems fuel rest) (fun '(args, rest') => parse_trailers fuel (ECall e args) rest')
      | _ => Ok (e, ts)
      end
  end
with parse_atom (fuel : nat) (ts : list token) : result (expr * list token) :=
  match fuel with
  | 0 => Unsupported
  | S fuel =>
      match ts with
      | TName s :: rest => Ok (EName s, rest)
      | TFString raw :: rest =>
          rbind (parse_fstring (parse_expr fuel) raw) (fun parts => Ok (EJoinedStr parts, rest))
      | TLParen :: TRParen :: rest => Ok (ETuple [], rest)
      | TLParen :: rest =>
          rbind (parse_expr fuel rest) (fun '(e, rest') =>
            match rest' with
            | TRParen :: rest'' => Ok (e, rest'')
            | TComma :: rest'' =>
                rbind (parse_elems fuel rest'') (fun '(es, rest''') => Ok (ETuple (e :: es), rest'''))
            | _ => Unsupported
            end)
      | _ => no_atom ts
      end
  end
with parse_elems (fuel : nat) (ts : list token) : result (list expr * list token) :=
  match fuel with
  | 0 => Unsupported
  | S fuel =>
      match ts with
      | TRParen :: rest => Ok ([], rest)
      | _ =>
          rbind (parse_expr fuel ts) (fun '(e, rest) =>
            match rest with
            | TRParen :: rest' => Ok ([e], rest')
            | TComma :: rest' =>
                rbind (parse_elems fuel rest') (fun '(es, rest'') => Ok (e :: es, rest''))
            | _ => Unsupported
            end)
      end
  end.

(** The suite after a colon: a new line and an indented block. *)
Fixpoint parse_stmts (fuel : nat) (ts : list token) : result (list stmt * list token) :=
  match fuel with
  | 0 => Unsupported
  | S fuel =>
      rbind (parse_stmt fuel ts) (fun '(s, rest) =>
        match rest with
        | TDedent :: rest' => Ok ([s], rest')
        | _ => rbind (parse_stmts fuel rest) (fun '(ss, rest') => Ok (s :: ss, rest'))
        end)
  end
with parse_stmt (fuel : nat) (ts : list token) : result (stmt * list token) :=
  match fuel with
  | 0 => Unsupported
  | S fuel =>
      match ts with
      | TKeyword "return" :: rest =>
          rbind (parse_expr fuel rest) (fun '(e, rest') =>
            match rest' with
            | TNewline :: rest'' => Ok (SReturn e, rest'')
            | _ => Unsupported
            end)
      | TKeyword "if" :: rest =>
          rbind (parse_expr fuel rest) (fun '(test, rest') =>
            match rest' with
            | TColon :: rest'' =>
                rbind (parse_suite fuel rest'') (fun '(body, rest3) =>
                  match rest3 with
                  | TKeyword "else" :: TColon :: rest4 =>
                      rbind (parse_suite fuel rest4) (fun '(orelse, rest5) =>
                        Ok (SIf test body orelse, rest5))
                  | TKeyword "elif" :: _ => Unsupported
                  | _ => Ok (SIf test body [], rest3)
                  end)
            | _ => Unsupported
            end)
      | TKeyword _ :: _ => Unsupported
      | _ =>
          rbind (parse_expr fuel ts) (fun '(e, rest) =>
            match rest with
            | TNewline :: rest' => Ok (SExpr e, rest')
            | TAssign :: rest' =>
                rbind (parse_expr fuel rest') (fun '(v, rest'') =>
                  match rest'' with
                  | TNewline :: rest3 => Ok (SAssign e v, rest3)
                  | _ => Unsupported
                  end)
            | _ => Unsupported
            end)
      end
  end
with parse_suite (fuel : nat) (ts : list token) : result (list stmt * list token) :=
  match fuel with
  | 0 => Unsupported
  | S fuel =>
      match ts with
      | TNewline :: TIndent :: rest => parse_stmts fuel rest
      | TNewline :: _ => Raise SyntaxError
      | _ => Unsupported
      end
  end.

(** The parameter list of a [def]: names, a comma between two of them,
    and an optional comma after the last. *)
Fixpoint parse_params (ts : list token) : result (list string * list token) :=
  match ts with
  | TRParen :: rest => Ok ([], rest)
  | TName p :: TRParen :: rest => Ok ([p], rest)
  | TName p :: TComma :: rest =>
      rbind (parse_params rest) (fun '(ps, rest') => Ok (p :: ps, rest'))
  | TComma :: _ => Raise SyntaxError
  | _ => Unsupported
  end.

Definition has_dup (l : list string) : bool := negb (bool_decide (NoDup l)).

Definition parse_funcdef (fuel : nat) (ts : list token) : result funcdef :=
  match ts with
  | TKeyword "def" :: TName name :: TLParen :: rest =>
      rbind (parse_params rest) (fun '(params, rest') =>
        match rest' with
        | TColon :: rest'' =>
            rbind (parse_suite fuel rest'') (fun '(body, rest3) =>
              match rest3 with
              | [] =>
                  if has_dup params then Raise SyntaxError
                  else Ok {| fd_name := name; fd_params := params; fd_body := body |}
              | _ => Unsupported
              end)
        | _ => Unsupported
        end)
  | _ => Unsupported
  end.

(** A module whose text is one function definition. *)
Definition parse_module (src : string) : result funcdef :=
  rbind (tokenize src) (fun ts => parse_funcdef (8 * length ts + 8) ts).

(** ** The front end run by [exec]: code generation

    Names and constants enter [co_names] and [co_consts] in the order
    the instructions that use them are emitted; a name or constant met
    again keeps its first index. *)

Record cstate := {
  cs_names : list string;
  cs_consts : list const;
  cs_code : list instr
}.

Fixpoint index_of (x : string) (l : list string) : option nat :=
  match l with
  | [] => None
  | y :: rest => if String.eqb y x then Some 0 else option_map S (index_of x rest)
  end.

Definition const_eqb (a b : const) : bool :=
  match a, b with
  | KNone, KNone => true
  | KStr s, KStr t => String.eqb s t
  | _, _ => false
  end.

Fixpoint const_index (x : const) (l : list const) : option nat :=
  match l with
  | [] => None
  | y :: rest => if const_eqb y x then Some 0 else option_map S (const_index x rest)
  end.

Definition emit (i : instr) (cs : cstate) : cstate :=
  {| cs_names := cs_names cs; cs_consts := cs_consts cs; cs_code := cs_code cs ++ [i] |}.

(** Emit an instruction whose operand is the index of [name] in
    [co_names]. *)
Definition emit_name (op : nat -> instr) (name : string) (cs : cstate) : cstate :=
  match index_of name (cs_names cs) with
  | Some i => emit (op i) cs
  | None =>
      {| cs_names := cs_names cs ++ [name]; cs_consts := cs_consts cs;
         cs_code := cs_code cs ++ [op (length (cs_names cs))] |}
  end.

Definition emit_const (k : const) (cs : cstate) : cstate :=
  match const_index k (cs_consts cs) with
  | Some i => emit (LOAD_CONST i) cs
  | None =>
      {| cs_names := cs_names cs; cs_consts := cs_consts cs ++ [k];
         cs_code := cs_code cs ++ [LOAD_CONST (length (cs_consts cs))] |}
  end.

Section codegen_expr.
(** The parameters of the function: its only local variables. *)
Variable varnames : list string.

Fixpoint compile_expr (e : expr) (cs : cstate) : result cstate :=
  match e with
  | EName s =>
      match index_of s varnames with
      | Some i => Ok (emit (LOAD_FAST i) cs)
      | None => Ok (emit_name LOAD_GLOBAL s cs)
      end
  | EAttr e a => rbind (compile_expr e cs) (fun cs => Ok (emit_name LOAD_ATTR a cs))
  | ECall (EAttr _ _) _ => Unsupported
  | ECall f args =>
      rbind (compile_expr f cs) (fun cs =>
      rbind ((fix go (es : list expr) (cs : cstate) : result cstate :=
                match es with
                | [] => Ok cs
                | e :: rest => rbind (compile_expr e cs) (go rest)
                end) args cs) (fun cs =>
      Ok (emit (CALL_FUNCTION (length args)) cs)))
  | ETuple [] => Unsupported
  | ETuple es =>
      rbind ((fix go (es : list expr) (cs : cstate) : result cstate :=
                match es with
                | [] => Ok cs
                | e :: rest => rbind (compile_expr e cs) (go rest)
                end) es cs) (fun cs =>
      Ok (emit (BUILD_TUPLE (length es)) cs))
  | ECompare l op r =>
      rbind (compile_expr l cs) (fun cs =>
      rbind (compile_expr r cs) (fun cs =>
      Ok (emit (COMPARE_OP op) cs)))
  | EJoinedStr parts =>
      rbind ((fix go (ps : list fpart) (cs : cstate) : result cstate :=
                match ps with
                | [] => Ok cs
                | FLit s :: rest => go rest (emit_const (KStr s) cs)
                | FValue e conv :: rest =>
                    rbind (compile_expr e cs) (fun cs => go rest (emit (FORMAT_VALUE conv) cs))
                end) parts cs) (fun cs =>
      Ok (if length parts =? 1 then cs else emit (BUILD_STRING (length parts)) cs))
  end.

Definition ends_with_return (body : list stmt) : bool :=
  match last body with
  | Some (SReturn _) => true
  | _ => false
  end.

Definition set_jump (pos target : nat) (cs : cstate) : cstate :=
  {| cs_names := cs_names cs; cs_consts := cs_consts cs;
     cs_code := <[pos := POP_JUMP_IF_FALSE target]> (cs_code cs) |}.

Fixpoint compile_stmt (s : stmt) (cs : cstate) : result cstate :=
  match s with
  | SAssign (EAttr obj a) v =>
      rbind (compile_expr v cs) (fun cs =>
      rbind (compile_expr obj cs) (fun cs =>
      Ok (emit_name STORE_ATTR a cs)))
  | SAssign _ _ => Unsupported
  | SReturn e => rbind (compile_expr e cs) (fun cs => Ok (emit RETURN_VALUE cs))
  | SExpr _ => Unsupported
  | SIf test body orelse =>
      if ends_with_return body || bool_decide (orelse = []) then
        rbind (compile_expr test cs) (fun cs =>
          let pos := length (cs_code cs) in
          rbind ((fix go (ss : list stmt) (cs : cstate) : result cstate :=
                    match ss with
                    | [] => Ok cs
                    | s :: rest => rbind (compile_stmt s cs) (go rest)
                    end) body (emit (POP_JUMP_IF_FALSE 0) cs)) (fun cs =>
          (fix go (ss : list stmt) (cs : cstate) : result cstate :=
             match ss with
             | [] => Ok cs
             | s :: rest => rbind (compile_stmt s cs) (go rest)
             end) orelse (set_jump pos (length (cs_code cs)) cs)))
      else Unsupported
  end.

Fixpoint compile_body (ss : list stmt) (cs : cstate) : result cstate :=
  match ss with
  | [] => Ok cs
  | s :: rest => rbind (compile_stmt s cs) (compile_body rest)
  end.
End codegen_expr.

(** The deepest the value stack gets; a [RETURN_VALUE] leaves it empty
    for the code after it. *)
Definition stack_after (i : instr) (d : nat) : nat :=
  match i with
  | LOAD_FAST _ | LOAD_CONST _ | LOAD_GLOBAL _ => S d
  | LOAD_ATTR _ | FORMAT_VALUE _ => d
  | STORE_ATTR _ => d - 2
  | CALL_FUNCTION n => d - n
  | BUILD_STRING n | BUILD_TUPLE n => S (d - n)
  | COMPARE_OP _ | POP_JUMP_IF_FALSE _ => d - 1
  | RETURN_VALUE => 0
  end.

Fixpoint stackdepth (ins : list instr) (d m : nat) : nat :=
  match ins with
  | [] => m
  | i :: rest => let d' := stack_after i d in stackdepth rest d' (Nat.max m d')
  end.

(** The code object of a function definition.  The first constant is
    the docstring slot ([None]: the templates have none); a body that
    does not end in a [return] returns [None].  The line table is not
    modelled and stays empty. *)
Definition compile_funcdef (fd : funcdef) : result code :=
  let cs0 := {| cs_names := []; cs_consts := [KNone]; cs_code := [] |} in
  rbind (compile_body (fd_params fd) (fd_body fd) cs0) (fun cs =>
    let cs := if ends_with_return (fd_body fd) then cs
              else emit RETURN_VALUE (emit_const KNone cs) in
    Ok {| co_argcount := length (fd_params fd);
          co_posonlyargcount := 0;
          co_kwonlyargcount := 0;
          co_nlocals := length (fd_params fd);
          co_stacksize := stackdepth (cs_code cs) 0 0;
          co_flags := 67;
          co_code := cs_code cs;
          co_consts := cs_consts cs;
          co_names := cs_names cs;
          co_varnames := fd_params fd;
          co_filename := "<string>";
          co_name := fd_name fd;
          co_firstlineno := 1;
          co_lnotab := [];
          co_freevars := [];
          co_cellvars := [] |}).

(** [exec(src, globals(), d)] followed by [d.popitem()[1]], for a text
    that defines one function: the code of the function defined. *)
Definition exec_def (src : string) : result code :=
  rbind (parse_module src) compile_funcdef.

(** ** The process: object identities and the template caches *)

Inductive family := F_init | F_repr | F_eq | F_iter | F_hash.

Definition family_eqb (a b : family) : bool :=
  match a, b with
  | F_init, F_init | F_repr, F_repr | F_eq, F_eq | F_iter, F_iter | F_hash, F_hash => true
  | _, _ => false
  end.

(** The text one of the five decorated generators returns. *)
Definition template_source (fam : family) (fields : list string) : string :=
  match fam with
  | F_init => Source.make__init__ fields
  | F_repr => Source.make__repr__ fields
  | F_eq => Source.make__eq__ fields
  | F_iter => Source.make__iter__ fields
  | F_hash => Source.make__hash__ fields
  end.

(** The state of the process: the next fresh object identity, the cache
    that [lru_cache()] keeps for each decorated generator (most recently
    used entry first), and a log of the calls of [exec], the compile
    step. *)
Record world := {
  w_next_id : nat;
  w_cache : family -> list (nat * pyfunc);
  w_exec_log : list (family * nat)
}.

Definition world_init : world :=
  {| w_next_id := 0; w_cache := fun _ => []; w_exec_log := [] |}.

(** Computations that read and change the process state. *)
Definition M (A : Type) : Type := world -> result A * world.

Definition ret {A} (a : A) : M A := fun w => (Ok a, w).

Definition bind {A B} (m : M A) (k : A -> M B) : M B :=
  fun w =>
    match m w with
    | (Ok a, w') => k a w'
    | (Raise e, w') => (Raise e, w')
    | (Fault, w') => (Fault, w')
    | (Unsupported, w') => (Unsupported, w')
    end.

Definition lift {A} (r : result A) : M A := fun w => (r, w).

Notation "'let*' x := m 'in' k" := (bind m (fun x => k))
  (at level 10, x name, m at level 100, k at level 200).

(** A new function object. *)
Definition new_function (c : code) (globals : string) : M pyfunc :=
  fun w =>
    (Ok {| fn_id := w_next_id w; fn_code := c; fn_globals := globals |},
     {| w_next_id := S (w_next_id w); w_cache := w_cache w; w_exec_log := w_exec_log w |}).

(** *** [lru_cache()]

    The default [maxsize] is 128: a hit moves the entry to the front, a
    miss adds the result at the front and drops the entry used longest
    ago once there are more than [maxsize].  A call that raises caches
    nothing. *)
Definition lru_maxsize : nat := 128.

Fixpoint lru_find (key : nat) (c : list (nat * pyfunc)) : option pyfunc :=
  match c with
  | [] => None
  | (k, f) :: rest => if k =? key then Some f else lru_find key rest
  end.

Fixpoint lru_remove (key : nat) (c : list (nat * pyfunc)) : list (nat * pyfunc) :=
  match c with
  | [] => []
  | (k, f) :: rest => if k =? key then rest else (k, f) :: lru_remove key rest
  end.

Definition lru_touch (key : nat) (f : pyfunc) (c : list (nat * pyfunc)) : list (nat * pyfunc) :=
  (key, f) :: lru_remove key c.

Definition lru_add (key : nat) (f : pyfunc) (c : list (nat * pyfunc)) : list (nat * pyfunc) :=
  take lru_maxsize ((key, f) :: c).

Definition set_cache (fam : family) (c : list (nat * pyfunc)) (w : world) : world :=
  {| w_next_id := w_next_id w;
     w_cache := fun g => if family_eqb g fam then c else w_cache w g;
     w_exec_log := w_exec_log w |}.

Definition log_exec (fam : family) (numfields : nat) : M unit :=
  fun w =>
    (Ok tt, {| w_next_id := w_next_id w; w_cache := w_cache w;
               w_exec_log := (fam, numfields) :: w_exec_log w |}).

(** The body of [make_func_code]: build the names, [exec] the text, and
    take the function out of the namespace. *)
Definition make_func_code_uncached (fam : family) (numfields : nat) : M pyfunc :=
  let names := placeholders numfields in
  let* _ := log_exec fam numfields in
  let* c := lift (exec_def (template_source fam names)) in
  new_function c "dataklasses".

(** [codegen(func)]: [make_func_code] behind its [lru_cache()]. *)
Definition codegen (fam : family) (numfields : nat) : M pyfunc :=
  fun w =>
    match lru_find numfields (w_cache w fam) with
    | Some f => (Ok f, set_cache fam (lru_touch numfields f (w_cache w fam)) w)
    | None =>
        match make_func_code_uncached fam numfields w with
        | (Ok f, w') => (Ok f, set_cache fam (lru_add numfields f (w_cache w' fam)) w')
        | (r, w') => (r, w')
        end
    end.

Definition make__init__ : nat -> M pyfunc := codegen F_init.
Definition make__repr__ : nat -> M pyfunc := codegen F_repr.
Definition make__eq__ : nat -> M pyfunc := codegen F_eq.
Definition make__iter__ : nat -> M pyfunc := codegen F_iter.
Definition make__hash__ : nat -> M pyfunc := codegen F_hash.

(** How often [exec] ran for a family and an arity. *)
Definition exec_count (fam : family) (numfields : nat) (w : world) : nat :=
  length (filter (fun e => family_eqb (fst e) fam && (snd e =? numfields)) (w_exec_log w)).

(** ** [code_replace] *)

Definition _CODE_FIELD_ORDER_base : list string :=
  ["co_argcount"; "co_kwonlyargcount"; "co_nlocals"; "co_stacksize"; "co_flags";
   "co_code"; "co_consts"; "co_names"; "co_varnames"; "co_filename"; "co_name";
   "co_firstlineno"; "co_lnotab"; "co_freevars"; "co_cellvars"].

(** [_CODE_FIELD_ORDER.insert(1, "co_posonlyargcount")] *)
Definition _CODE_FIELD_ORDER : list string :=
  take 1 _CODE_FIELD_ORDER_base ++ "co_posonlyargcount" :: drop 1 _CODE_FIELD_ORDER_base.

(** The value of one attribute of a code object. *)
Inductive cofield :=
| FNat (n : nat)
| FInstrs (c : list instr)
| FConsts (k : list const)
| FNames (l : list string)
| FText (s : string)
| FLnotab (l : list (nat * nat)).

Definition code_getattr (c : code) (name : string) : result cofield :=
  if String.eqb name "co_argcount" then Ok (FNat (co_argcount c))
  else if String.eqb name "co_posonlyargcount" then Ok (FNat (co_posonlyargcount c))
  else if String.eqb name "co_kwonlyargcount" then Ok (FNat (co_kwonlyargcount c))
  else if String.eqb name "co_nlocals" then Ok (FNat (co_nlocals c))
  else if String.eqb name "co_stacksize" then Ok (FNat (co_stacksize c))
  else if String.eqb name "co_flags" then Ok (FNat (co_flags c))
  else if String.eqb name "co_code" then Ok (FInstrs (co_code c))
  else if String.eqb name "co_consts" then Ok (FConsts (co_consts c))
  else if String.eqb name "co_names" then Ok (FNames (co_names c))
  else if String.eqb name "co_varnames" then Ok (FNames (co_varnames c))
  else if String.eqb name "co_filename" then Ok (FText (co_filename c))
  else if String.eqb name "co_name" then Ok (FText (co_name c))
  else if String.eqb name "co_firstlineno" then Ok (FNat (co_firstlineno c))
  else if String.eqb name "co_lnotab" then Ok (FLnotab (co_lnotab c))
  else if String.eqb name "co_freevars" then Ok (FNames (co_freevars c))
  else if String.eqb name "co_cellvars" then Ok (FNames (co_cellvars c))
  else Raise AttributeError.

(** [type(code)] called on the unpacked list: the constructor takes the sixteen values in
    the order of [_CODE_FIELD_ORDER], and refuses a [co_varnames]
    shorter than the number of arguments. *)
Definition code_new (unpacked : list cofield) : result code :=
  match unpacked with
  | [FNat argcount; FNat posonly; FNat kwonly; FNat nlocals; FNat stacksize; FNat flags;
     FInstrs codestring; FConsts consts; FNames names; FNames varnames;
     FText filename; FText name; FNat firstlineno; FLnotab lnotab;
     FNames freevars; FNames cellvars] =>
      if length varnames <? argcount + kwonly then Raise ValueError
      else Ok {| co_argcount := argcount; co_posonlyargcount := posonly;
                 co_kwonlyargcount := kwonly; co_nlocals := nlocals;
                 co_stacksize := stacksize; co_flags := flags;
                 co_code := codestring; co_consts := consts; co_names := names;
                 co_varnames := varnames; co_filename := filename; co_name := name;
                 co_firstlineno := firstlineno; co_lnotab := lnotab;
                 co_freevars := freevars; co_cellvars := cellvars |}
  | _ => Raise TypeError
  end.

Fixpoint getattrs (c : code) (names : list string) : result (list cofield) :=
  match names with
  | [] => Ok []
  | n :: rest =>
      rbind (code_getattr c n) (fun v =>
      rbind (getattrs c rest) (fun vs => Ok (v :: vs)))
  end.

(** [for k, v in kwargs.items(): unpacked[_CODE_FIELD_ORDER.index(k)] = v] *)
Fixpoint apply_kwargs (kwargs : list (string * cofield)) (unpacked : list cofield)
  : result (list cofield) :=
  match kwargs with
  | [] => Ok unpacked
  | (k, v) :: rest =>
      match index_of k _CODE_FIELD_ORDER with
      | Some i => apply_kwargs rest (<[i := v]> unpacked)
      | None => Raise ValueError
      end
  end.

Definition code_replace (c : code) (kwargs : list (string * cofield)) : result code :=
  rbind (getattrs c _CODE_FIELD_ORDER) (fun unpacked =>
  rbind (apply_kwargs kwargs unpacked) code_new).

(** ** The specializer *)

Definition patch_args_and_attributes (func : pyfunc) (fields : list string) (start : nat)
  : M pyfunc :=
  let* c := lift (code_replace (fn_code func)
               [("co_names", FNames (take start (co_names (fn_code func)) ++ fields));
                ("co_varnames", FNames ("self" :: fields))]) in
  new_function c (fn_globals func).

Definition patch_attributes (func : pyfunc) (fields : list string) (start : nat)
  : M pyfunc :=
  let* c := lift (code_replace (fn_code func)
               [("co_names", FNames (take start (co_names (fn_code func)) ++ fields))]) in
  new_function c (fn_globals func).

(** ** The decorator *)

Definition in_clsdict (name : string) (cls : pyclass) : bool :=
  bool_decide (is_Some (cls_vars cls !! name)).

Definition dataklass (cls : pyclass) : M pyclass :=
  let* fields := lift (all_hints cls) in
  let nfields := length fields in
  let fields := PyDict.keys fields in
  let* cls := (if negb (in_clsdict "__init__" cls) then
            let* t := make__init__ nfields in
            let* f := patch_args_and_attributes t fields 0 in
            ret (cls_setattr cls "__init__" (AFunc f))
          else ret cls) in
  let* cls := (if negb (in_clsdict "__repr__" cls) then
            let* t := make__repr__ nfields in
            let* f := patch_attributes t fields 2 in
            ret (cls_setattr cls "__repr__" (AFunc f))
          else ret cls) in
  let* cls := (if negb (in_clsdict "__eq__" cls) then
            let* t := make__eq__ nfields in
            let* f := patch_attributes t fields 1 in
            ret (cls_setattr cls "__eq__" (AFunc f))
          else ret cls) in
  ret (cls_setattr cls "__match_args__" (ANames fields)).

(** ** Run time: values and objects *)

Inductive value :=
| VNone
| VNotImplemented
| VBool (b : bool)
| VInt (z : Z)
| VStr (s : string)
| VTuple (vs : list value)
| VRef (addr : nat)              (* an instance of a class, in the heap *)
| VClass (c : pyclass)
| VBuiltinType (name : string)   (* [tuple], [int], ... *)
| VBuiltin (name : string).      (* a builtin callable *)

Record object := {
  obj_class : pyclass;
  obj_dict : gmap string value
}.

Notation heap := (gmap nat object) (only parsing).

(** [type(v)] *)
Definition type_of (h : heap) (v : value) : result value :=
  match v with
  | VNone => Ok (VBuiltinType "NoneType")
  | VNotImplemented => Ok (VBuiltinType "NotImplementedType")
  | VBool _ => Ok (VBuiltinType "bool")
  | VInt _ => Ok (VBuiltinType "int")
  | VStr _ => Ok (VBuiltinType "str")
  | VTuple _ => Ok (VBuiltinType "tuple")
  | VRef a =>
      match h !! a with
      | Some o => Ok (VClass (obj_class o))
      | None => Fault
      end
  | VClass _ | VBuiltinType _ => Ok (VBuiltinType "type")
  | VBuiltin _ => Ok (VBuiltinType "builtin_function_or_method")
  end.

(** *** [repr] of plain data *)

Definition hex_digit (n : nat) : ascii :=
  if n <? 10 then ascii_of_nat (48 + n) else ascii_of_nat (87 + n).

Definition backslash : ascii := ascii_of_nat 92.

Definition repr_char (quote c : ascii) : option string :=
  let n := nat_of_ascii c in
  if Ascii.eqb c quote || Ascii.eqb c backslash then Some (String backslash (String c ""))
  else if n =? 9 then Some (String backslash "t")
  else if n =? 10 then Some (String backslash "n")
  else if n =? 13 then Some (String backslash "r")
  else if (n <? 32) || (n =? 127) then
    Some (String backslash (String "x" (String (hex_digit (n / 16)) (String (hex_digit (n mod 16)) ""))))
  else if n <? 127 then Some (String c "")
  else None.

Fixpoint repr_chars (quote : ascii) (s : string) : option string :=
  match s with
  | EmptyString => Some ""
  | String c rest =>
      match repr_char quote c, repr_chars quote rest with
      | Some a, Some b => Some (a +:+ b)
      | _, _ => None
      end
  end.

(** [repr] of an ASCII [str]: single quotes, unless the text has a
    single quote and no double quote. *)
Definition repr_str (s : string) : option string :=
  let squote := ascii_of_nat 39 in
  let dq := ascii_of_nat 34 in
  let quote := if ascii_in squote s && negb (ascii_in dq s) then dq else squote in
  option_map (fun body => String quote body +:+ String quote "") (repr_chars quote s).

Definition repr_int (z : Z) : string := NilEmpty.string_of_int (Z.to_int z).

(** [repr(v)] for the values whose representation does not depend on
    user code or on addresses. *)
Fixpoint py_repr (v : value) : option string :=
  match v with
  | VNone => Some "None"
  | VNotImplemented => Some "NotImplemented"
  | VBool true => Some "True"
  | VBool false => Some "False"
  | VInt z => Some (repr_int z)
  | VStr s => repr_str s
  | VTuple vs =>
      let fix go (vs : list value) : option (list string) :=
        match vs with
        | [] => Some []
        | v :: rest =>
            match py_repr v, go rest with
            | Some a, Some b => Some (a :: b)
            | _, _ => None
            end
        end in
      match go vs with
      | Some [] => Some "()"
      | Some [a] => Some ("(" +:+ a +:+ ",)")
      | Some l => Some ("(" +:+ join ", " l +:+ ")")
      | None => None
      end
  | VRef _ | VClass _ | VBuiltinType _ | VBuiltin _ => None
  end.

(** *** [==] and [is] on plain data *)

Definition as_number (v : value) : option Z :=
  match v with
  | VInt z => Some z
  | VBool b => Some (if b then 1%Z else 0%Z)
  | _ => None
  end.

(** [a == b] for values whose comparison runs no user code; tuples
    compare item by item, then by length. *)
Fixpoint py_eq (a b : value) : option bool :=
  match a, b with
  | VRef _, _ | _, VRef _ | VClass _, _ | _, VClass _
  | VBuiltinType _, _ | _, VBuiltinType _ | VBuiltin _, _ | _, VBuiltin _ => None
  | VTuple xs, VTuple ys =>
      (fix go (xs ys : list value) : option bool :=
         match xs, ys with
         | [], [] => Some true
         | [], _ :: _ | _ :: _, [] => Some false
         | x :: xs', y :: ys' =>
             match py_eq x y with
             | Some true => go xs' ys'
             | r => r
             end
         end) xs ys
  | VStr s, VStr t => Some (String.eqb s t)
  | VNone, VNone => Some true
  | VNotImplemented, VNotImplemented => Some true
  | _, _ =>
      match as_number a, as_number b with
      | Some x, Some y => Some (x =? y)%Z
      | _, _ => Some false
      end
  end.

(** [a is b] where identity is determined by the language. *)
Definition py_is (a b : value) : option bool :=
  match a, b with
  | VClass c, VClass d => Some (cls_id c =? cls_id d)
  | VBuiltinType s, VBuiltinType t => Some (String.eqb s t)
  | VClass _, VBuiltinType _ | VBuiltinType _, VClass _ => Some false
  | VRef x, VRef y => Some (x =? y)
  | VNone, VNone => Some true
  | VNotImplemented, VNotImplemented => Some true
  | VBool x, VBool y => Some (Bool.eqb x y)
  | _, _ => None
  end.

(** ** Run time: the evaluation loop *)

Record frame := {
  f_locals : list (option value);
  f_stack : list value               (* top of stack first *)
}.

Definition push (v : value) (fr : frame) : frame :=
  {| f_locals := f_locals fr; f_stack := v :: f_stack fr |}.

Definition with_stack (st : list value) (fr : frame) : frame :=
  {| f_locals := f_locals fr; f_stack := st |}.

(** What one instruction does to the frame. *)
Inductive outcome :=
| Next (fr : frame) (h : heap)
| Jump (target : nat) (fr : frame) (h : heap)
| Done (v : value) (h : heap)
| Abort (r : result (value * heap)).

Definition const_value (k : const) : value :=
  match k with
  | KNone => VNone
  | KStr s => VStr s
  end.

(** Names of the module's globals and of the builtins. *)
Definition load_global (name : string) : result value :=
  if String.eqb name "NotImplemented" then Ok VNotImplemented
  else if String.eqb name "type" then Ok (VBuiltin "type")
  else if String.eqb name "hash" then Ok (VBuiltin "hash")
  else if existsb (String.eqb name)
            ["sys"; "lru_cache"; "reduce"; "codegen"; "code_replace";
             "patch_args_and_attributes"; "patch_attributes"; "all_hints";
             "make__init__"; "make__repr__"; "make__eq__"; "make__iter__";
             "make__hash__"; "dataklass"; "_CODE_FIELD_ORDER"; "__all__"; "__name__"]
       then Unsupported
  else Unsupported.

(** The attributes of an instance of a plain class that are not
    entries of its dictionary: [__class__] is a descriptor of [object],
    [__dict__] and [__weakref__] are descriptors of the class itself. *)
Definition is_special_attr (name : string) : bool :=
  String.eqb name "__class__" || String.eqb name "__dict__"
  || String.eqb name "__weakref__".

(** The names every instance finds on [object] or on its class, whatever
    the class defines. *)
Definition is_object_attr (name : string) : bool :=
  existsb (String.eqb name)
    ["__delattr__"; "__dir__"; "__doc__"; "__eq__"; "__format__"; "__ge__";
     "__getattribute__"; "__gt__"; "__hash__"; "__init__"; "__init_subclass__";
     "__le__"; "__lt__"; "__module__"; "__ne__"; "__new__"; "__reduce__";
     "__reduce_ex__"; "__repr__"; "__setattr__"; "__sizeof__"; "__str__";
     "__subclasshook__"].

(** Whether an attribute found on the class may be a data descriptor (a
    property, a slot): a function, a tuple and a dict are not; of
    anything else the embedding does not know. *)
Definition may_be_data_descriptor (found : option attr) : bool :=
  match found with
  | Some (AOpaque _) => true
  | _ => false
  end.

(** [obj.name], as [object.__getattribute__] does it: a data descriptor
    of the class first, then the dictionary of the instance, then the
    class.  A class with a [__getattribute__] of its own runs user code,
    and so does [__getattr__] for a name that is not found. *)
Definition load_attr (h : heap) (v : value) (name : string) : result value :=
  match v with
  | VRef a =>
      match h !! a with
      | None => Fault
      | Some o =>
          match type_getattr (obj_class o) "__getattribute__" with
          | Some _ => Unsupported
          | None =>
              if String.eqb name "__class__" then Ok (VClass (obj_class o))
              else if is_special_attr name then Unsupported
              else if may_be_data_descriptor (type_getattr (obj_class o) name)
              then Unsupported
              else
                match obj_dict o !! name with
                | Some x => Ok x
                | None =>
                    match type_getattr (obj_class o) name with
                    | Some _ => Unsupported
                    | None =>
                        if is_object_attr name then Unsupported
                        else
                          match type_getattr (obj_class o) "__getattr__" with
                          | Some _ => Unsupported
                          | None => Raise AttributeError
                          end
                    end
                end
          end
      end
  | VClass c =>
      if String.eqb name "__name__" then Ok (VStr (cls_name c)) else Unsupported
  | _ =>
      if String.eqb name "__class__" then type_of h v else Unsupported
  end.

(** Whether [obj.name = x] on an instance of the class is an entry
    written into the dictionary of the instance: the class has no
    [__setattr__] and no [__slots__] along its [__mro__], the name is
    none of the three descriptors of a plain class, and the class has no
    attribute of that name that may be a data descriptor. *)
Definition can_store (c : pyclass) (name : string) : bool :=
  match type_getattr c "__setattr__", type_getattr c "__slots__" with
  | None, None =>
      negb (is_special_attr name) && negb (may_be_data_descriptor (type_getattr c name))
  | _, _ => false
  end.

(** [obj.name = x], as [object.__setattr__] does it.  [__weakref__] is
    not writable; [__class__] takes a class and [__dict__] a dict, and
    what they do with one is outside the embedding; a [__setattr__] of
    the class, [__slots__] and a possible data descriptor are too. *)
Definition store_attr (h : heap) (v : value) (name : string) (x : value) : result heap :=
  match v with
  | VRef a =>
      match h !! a with
      | None => Fault
      | Some o =>
          match type_getattr (obj_class o) "__setattr__",
                type_getattr (obj_class o) "__slots__" with
          | None, None =>
              if String.eqb name "__weakref__" then Raise AttributeError
              else if String.eqb name "__class__" then
                match x with
                | VClass _ | VBuiltinType _ => Unsupported
                | _ => Raise TypeError
                end
              else if String.eqb name "__dict__" then
                match x with
                | VRef _ => Unsupported
                | _ => Raise TypeError
                end
              else if may_be_data_descriptor (type_getattr (obj_class o) name)
              then Unsupported
              else Ok (<[a := {| obj_class := obj_class o;
                                 obj_dict := <[name := x]> (obj_dict o) |}]> h)
          | _, _ => Unsupported
          end
      end
  | _ => Unsupported
  end.

(** The strings on top of the stack, popped and joined, deepest first. *)
Fixpoint concat_strs (vs : list value) (acc : string) : option string :=
  match vs with
  | [] => Some acc
  | VStr s :: rest => concat_strs rest (s +:+ acc)
  | _ :: _ => None
  end.

Definition step (c : code) (i : instr) (fr : frame) (h : heap) : outcome :=
  match i with
  | LOAD_FAST n =>
      match f_locals fr !! n with
      | Some (Some v) => Next (push v fr) h
      | Some None => Abort (Raise NameError)
      | None => Abort Fault
      end
  | LOAD_CONST n =>
      match co_consts c !! n with
      | Some k => Next (push (const_value k) fr) h
      | None => Abort Fault
      end
  | LOAD_GLOBAL n =>
      match co_names c !! n with
      | Some name =>
          match load_global name with
          | Ok v => Next (push v fr) h
          | Raise e => Abort (Raise e)
          | Fault => Abort Fault
          | Unsupported => Abort Unsupported
          end
      | None => Abort Fault
      end
  | LOAD_ATTR n =>
      match co_names c !! n, f_stack fr with
      | Some name, v :: st =>
          match load_attr h v name with
          | Ok x => Next (with_stack (x :: st) fr) h
          | Raise e => Abort (Raise e)
          | Fault => Abort Fault
          | Unsupported => Abort Unsupported
          end
      | _, _ => Abort Fault
      end
  | STORE_ATTR n =>
      match co_names c !! n, f_stack fr with
      | Some name, owner :: x :: st =>
          match store_attr h owner name x with
          | Ok h' => Next (with_stack st fr) h'
          | Raise e => Abort (Raise e)
          | Fault => Abort Fault
          | Unsupported => Abort Unsupported
          end
      | _, _ => Abort Fault
      end
  | CALL_FUNCTION argc =>
      if length (f_stack fr) <? S argc then Abort Fault
      else
        match argc, f_stack fr with
        | 1, v :: VBuiltin "type" :: st =>
            match type_of h v with
            | Ok t => Next (with_stack (t :: st) fr) h
            | _ => Abort Fault
            end
        | _, _ => Abort Unsupported
        end
  | FORMAT_VALUE flags =>
      match f_stack fr with
      | v :: st =>
          match flags, v with
          | 0, VStr s => Next (with_stack (VStr s :: st) fr) h
          | 2, _ =>
              match py_repr v with
              | Some s => Next (with_stack (VStr s :: st) fr) h
              | None => Abort Unsupported
              end
          | _, _ => Abort Unsupported
          end
      | [] => Abort Fault
      end
  | BUILD_STRING n =>
      if length (f_stack fr) <? n then Abort Fault
      else
        match concat_strs (take n (f_stack fr)) "" with
        | Some s => Next (with_stack (VStr s :: drop n (f_stack fr)) fr) h
        | None => Abort Unsupported
        end
  | BUILD_TUPLE n =>
      if length (f_stack fr) <? n then Abort Fault
      else Next (with_stack (VTuple (rev (take n (f_stack fr))) :: drop n (f_stack fr)) fr) h
  | COMPARE_OP op =>
      match f_stack fr with
      | b :: a :: st =>
          match (match op with CmpEq => py_eq a b | CmpIs => py_is a b end) with
          | Some r => Next (with_stack (VBool r :: st) fr) h
          | None => Abort Unsupported
          end
      | _ => Abort Fault
      end
  | POP_JUMP_IF_FALSE target =>
      match f_stack fr with
      | VBool true :: st => Next (with_stack st fr) h
      | VBool false :: st => Jump target (with_stack st fr) h
      | _ :: _ => Abort Unsupported
      | [] => Abort Fault
      end
  | RETURN_VALUE =>
      match f_stack fr with
      | v :: _ => Done v h
      | [] => Abort Fault
      end
  end.

(** Run the instructions from [pc] on; [rest] is the code from [pc].
    Every jump of the templates goes forward: [skip] counts the
    instructions still to pass over to reach its target. *)
Fixpoint run (c : code) (rest : list instr) (pc skip : nat) (fr : frame) (h : heap)
  : result (value * heap) :=
  match rest with
  | [] => Fault
  | i :: rest' =>
      match skip with
      | S k => run c rest' (S pc) k fr h
      | 0 =>
          match step c i fr h with
          | Next fr' h' => run c rest' (S pc) 0 fr' h'
          | Jump target fr' h' =>
              if target <=? pc then Unsupported
              else run c rest' (S pc) (target - S pc) fr' h'
          | Done v h' => Ok (v, h')
          | Abort r => r
          end
      end
  end.

(** ** Run time: calls *)

(** The index of the parameter a keyword names: the first match in
    [co_varnames] among the arguments. *)
Definition find_param (c : code) (kw : string) : option nat :=
  index_of kw (take (co_argcount c + co_kwonlyargcount c) (co_varnames c)).

Fixpoint bind_keywords (c : code) (kwargs : list (string * value))
    (locals : list (option value)) : result (list (option value)) :=
  match kwargs with
  | [] => Ok locals
  | (kw, v) :: rest =>
      match find_param c kw with
      | None => Raise TypeError            (* unexpected keyword argument *)
      | Some j =>
          match locals !! j with
          | Some None => bind_keywords c rest (<[j := Some v]> locals)
          | Some (Some _) => Raise TypeError   (* multiple values for argument *)
          | None => Fault
          end
      end
  end.

(** The locals of a new frame: positional arguments first, then the
    keywords; the templates have no defaults, so a parameter left
    without a value is an error. *)
Definition bind_args (c : code) (args : list value) (kwargs : list (string * value))
  : result (list (option value)) :=
  if co_argcount c <? length args then Raise TypeError
  else
    rbind (bind_keywords c kwargs
             (map Some args ++ repeat None (co_nlocals c - length args)))
      (fun locals =>
         if forallb (fun o => bool_decide (is_Some o)) (take (co_argcount c) locals)
         then Ok locals else Raise TypeError).

Definition call_function (f : pyfunc) (args : list value) (kwargs : list (string * value))
    (h : heap) : result (value * heap) :=
  rbind (bind_args (fn_code f) args kwargs) (fun locals =>
    run (fn_code f) (co_code (fn_code f)) 0 0 {| f_locals := locals; f_stack := [] |} h).

Definition fresh_addr (h : heap) : nat := fresh (dom h).

(** A call of the class: [object.__new__], then [__init__] found
    along the [__mro__]. *)
Definition instantiate (cls : pyclass) (args : list value) (kwargs : list (string * value))
    (h : heap) : result (value * heap) :=
  match type_getattr cls "__new__" with
  | Some _ => Unsupported
  | None =>
      let a := fresh_addr h in
      let h := <[a := {| obj_class := cls; obj_dict := ∅ |}]> h in
      match type_getattr cls "__init__" with
      | Some (AFunc f) =>
          rbind (call_function f (VRef a :: args) kwargs h) (fun '(r, h') =>
            match r with
            | VNone => Ok (VRef a, h')
            | _ => Raise TypeError
            end)
      | Some _ => Unsupported
      | None =>
          match args, kwargs with
          | [], [] => Ok (VRef a, h)
          | _, _ => Raise TypeError
          end
      end
  end.

(** [repr(v)] for an instance: [__repr__] found along the [__mro__]. *)
Definition repr_of (h : heap) (v : value) : result string :=
  match v with
  | VRef a =>
      match h !! a with
      | None => Fault
      | Some o =>
          match type_getattr (obj_class o) "__repr__" with
          | Some (AFunc f) =>
              rbind (call_function f [v] [] h) (fun '(r, _) =>
                match r with
                | VStr s => Ok s
                | _ => Raise TypeError
                end)
          | _ => Unsupported
          end
      end
  | _ => match py_repr v with Some s => Ok s | None => Unsupported end
  end.

(** One side of [==]: the [__eq__] of the left operand's type. *)
Definition eq_method (h : heap) (a b : value) : result value :=
  match a with
  | VRef addr =>
      match h !! addr with
      | None => Fault
      | Some o =>
          match type_getattr (obj_class o) "__eq__" with
          | Some (AFunc f) => rbind (call_function f [a; b] [] h) (fun '(r, _) => Ok r)
          | Some _ => Unsupported
          | None =>                       (* [object.__eq__] *)
              match py_is a b with
              | Some true => Ok (VBool true)
              | _ => Ok VNotImplemented
              end
          end
      end
  | _ =>
      match b with
      | VRef _ => Ok VNotImplemented      (* a builtin type declines a foreign operand *)
      | _ => match py_eq a b with Some r => Ok (VBool r) | None => Unsupported end
      end
  end.

(** [issubclass(sub, sup) and sub is not sup] *)
Definition is_proper_subclass (sub sup : pyclass) : bool :=
  negb (cls_id sub =? cls_id sup)
  && existsb (fun c => cls_id c =? cls_id sup) (cls_mro sub).

(** Whether [==] asks the right operand first: it does when the type of
    the right operand is a proper subclass of the type of the left.  For
    the builtin types of the embedding the two orders give the same
    result. *)
Definition reflected_first (h : heap) (a b : value) : bool :=
  match a, b with
  | VRef x, VRef y =>
      match h !! x, h !! y with
      | Some ox, Some oy => is_proper_subclass (obj_class oy) (obj_class ox)
      | _, _ => false
      end
  | _, _ => false
  end.

(** Both sides of [==] have declined: identity. *)
Definition eq_fallback (a b : value) : result value :=
  match py_is a b with
  | Some x => Ok (VBool x)
  | None => Ok (VBool false)
  end.

(** The operator [a == b]: the [__eq__] of one operand; if it declines,
    that of the other; if both decline, identity.  The left operand is
    asked first, unless the type of the right one is a proper subclass
    of the type of the left. *)
Definition binary_eq (h : heap) (a b : value) : result value :=
  let '(first, second) :=
    if reflected_first h a b then (eq_method h b a, eq_method h a b)
    else (eq_method h a b, eq_method h b a) in
  rbind first (fun r =>
    match r with
    | VNotImplemented =>
        rbind second (fun r' =>
          match r' with
          | VNotImplemented => eq_fallback a b
          | _ => Ok r'
          end)
    | _ => Ok r
    end).

(** [hash(v)] for an instance: a [__hash__] set on a class along the
    [__mro__], or else [object.__hash__], which is derived from the
    identity of the object. *)
Definition hash_of (h : heap) (v : value) : result Z :=
  match v with
  | VRef a =>
      match h !! a with
      | None => Fault
      | Some o =>
          match type_getattr (obj_class o) "__hash__" with
          | Some (AFunc f) =>
              rbind (call_function f [v] [] h) (fun '(r, _) =>
                match r with
                | VInt z => Ok z
                | _ => Raise TypeError
                end)
          | Some _ => Unsupported
          | None => Ok (Z.of_nat a)
          end
      end
  | _ => Unsupported
  end.

(** ** Vocabulary of the statements *)

(** The value a computation returned, if it returned. *)
Definition result_value {A} (r : result A) : option A :=
  match r with
  | Ok a => Some a
  | _ => None
  end.



(** The names one level of the [__mro__] contributes, as [all_hints]
    reads them. *)
Definition level_names (y : pyclass) : list string :=
  match annotations_of y with
  | Ok a => PyDict.keys a
  | _ => []
  end.

(** The walk from most-base to most-derived. *)
Definition base_to_derived (mro : list pyclass) : list string :=
  concat (map level_names (rev mro)).

(** The fields resolved from the part of the chain above the class. *)
Definition inherited_hints (cls : pyclass) : result (list (string * string)) :=
  fold_left all_hints_step (tail (cls_mro cls)) (Ok []).

(** A class whose instances are made, written and read the plain way:
    no [__new__], [__setattr__], [__getattribute__] or [__slots__] along
    its [__mro__]. *)
Definition plain_class (c : pyclass) : Prop :=
  type_getattr c "__new__" = None /\ type_getattr c "__setattr__" = None
  /\ type_getattr c "__getattribute__" = None /\ type_getattr c "__slots__" = None.

(** A field an instance of the class keeps in its dictionary: its name
    is not [__class__], [__dict__] or [__weakref__], and the class has
    no attribute of that name that may be a data descriptor. *)
Definition plain_field (c : pyclass) (name : string) : Prop :=
  is_special_attr name = false
  /\ may_be_data_descriptor (type_getattr c name) = false.

(** The attribute a method family is attached under. *)
Definition family_attr (fam : family) : string :=
  match fam with
  | F_init => "__init__"
  | F_repr => "__repr__"
  | F_eq => "__eq__"
  | F_iter => "__iter__"
  | F_hash => "__hash__"
  end.

(** The specializer call the decorator makes for a family (for
    iteration and hashing, the call on the lines that are commented
    out). *)
Definition specialize (fam : family) (t : pyfunc) (fields : list string) : M pyfunc :=
  match fam with
  | F_init => patch_args_and_attributes t fields 0
  | F_repr => patch_attributes t fields 2
  | F_eq => patch_attributes t fields 1
  | F_iter => patch_attributes t fields 0
  | F_hash => patch_attributes t fields 1
  end.

(** Fetch the template of a family for the arity, then specialize it. *)
Definition synthesize (fam : family) (fields : list string) : M pyfunc :=
  let* t := codegen fam (length fields) in specialize fam t fields.

(** The families the decorator attaches. *)
Definition attached_families : list family := [F_init; F_repr; F_eq].

(** A sequence of template requests, one after the other. *)
Definition requests (ks : list (family * nat)) (w : world) : world :=
  fold_left (fun w k => snd (codegen (fst k) (snd k) w)) ks w.

(** The arities other than [n] that a sequence requests of a family. *)
Definition other_arities (fam : family) (n : nat) (ks : list (family * nat)) : list nat :=
  map snd (filter (fun k => family_eqb (fst k) fam && negb (snd k =? n)) ks).

(** ** The classes of the examples *)

(** [class Coordinates: x: int; y: int] *)
Definition Coordinates : pyclass :=
  Class 1 "Coordinates"
    {[ "__annotations__" := AAnnotations [("x", "int"); ("y", "int")] ]} [].

(** [class Empty: pass] *)
Definition Empty : pyclass := Class 2 "Empty" ∅ [].


(** [class K: __class__: int] *)
Definition ClassField : pyclass :=
  Class 8 "K" {[ "__annotations__" := AAnnotations [("__class__", "int")] ]} [].

(** [class Labelled: x: int; def __repr__(self): return 'custom'] *)
Definition own_repr : pyfunc :=
  {| fn_id := 1000;
     fn_code := {| co_argcount := 1; co_posonlyargcount := 0; co_kwonlyargcount := 0;
                   co_nlocals := 1; co_stacksize := 1; co_flags := 67;
                   co_code := [LOAD_CONST 1; RETURN_VALUE];
                   co_consts := [KNone; KStr "custom"]; co_names := [];
                   co_varnames := ["self"]; co_filename := "<stdin>";
                   co_name := "__repr__"; co_firstlineno := 3; co_lnotab := [];
                   co_freevars := []; co_cellvars := [] |};
     fn_globals := "__main__" |}.

Definition Labelled : pyclass :=
  Class 9 "Labelled"
    {[ "__annotations__" := AAnnotations [("x", "int")]; "__repr__" := AFunc own_repr ]} [].

(** A diamond: [class A: x: int], [class B(A): pass],
    [class C(A): x: str], [class D(B, C): z: float]; the [__mro__] of
    [D] is [D, B, C, A]. *)
Definition DiamondA : pyclass :=
  Class 10 "A" {[ "__annotations__" := AAnnotations [("x", "int")] ]} [].
Definition DiamondB : pyclass := Class 11 "B" ∅ [DiamondA].
Definition DiamondC : pyclass :=
  Class 12 "C" {[ "__annotations__" := AAnnotations [("x", "str")] ]} [DiamondA].
Definition DiamondD : pyclass :=
  Class 13 "D" {[ "__annotations__" := AAnnotations [("z", "float")] ]}
    [DiamondB; DiamondC; DiamondA].

(** ** What the front end makes of the templates

    The names a template is built from are identifiers: a letter or
    underscore, then letters, digits and underscores, and no keyword. *)
Fixpoint all_name_chars (s : string) : bool :=
  match s with
  | EmptyString => true
  | String c rest => is_name_char c && all_name_chars rest
  end.

Definition is_identifier (s : string) : Prop :=
  exists c rest,
    s = String c rest /\ is_name_start c = true /\ all_name_chars rest = true
    /\ classify s = TName s.

(** The tokens of a comma-separated list of names. *)
Fixpoint params_toks (names : list string) : list token :=
  match names with
  | [] => []
  | [x] => [TName x]
  | x :: rest => TName x :: TComma :: params_toks rest
  end.

(** One line of the constructor, as text, as tokens and as a statement. *)
Definition init_line (name : string) : string :=
  " self." +:+ name +:+ " = " +:+ name +:+ nl.

Definition assign_toks (name : string) : list token :=
  [TName "self"; TDot; TName name; TAssign; TName name; TNewline].

Definition init_stmt (name : string) : stmt :=
  SAssign (EAttr (EName "self") name) (EName name).

Definition init_toks (names : list string) : list token :=
  [TKeyword "def"; TName "__init__"; TLParen; TName "self"; TComma]
  ++ params_toks names
  ++ [TRParen; TColon; TNewline; TIndent]
  ++ concat (map assign_toks names)
  ++ [TDedent].

(** The instructions of the constructor: for field [i], load argument
    [i + 1], load [self], and store into attribute name [i]. *)
Definition init_instrs (start count : nat) : list instr :=
  concat (map (fun i => [LOAD_FAST (S i); LOAD_FAST 0; STORE_ATTR i]) (seq start count)).

Definition init_code (n : nat) : list instr :=
  init_instrs 0 n ++ [LOAD_CONST 0; RETURN_VALUE].

(** ** Reachable caches and specialized code *)

(** The caches hold what [exec] made of the template texts. *)
Definition cache_wf (w : world) : Prop :=
  forall fam n f,
    (n, f) ∈ w_cache w fam ->
    exec_def (template_source fam (placeholders n)) = Ok (fn_code f).

(** A code object with other symbol tables. *)
Definition with_names (c : code) (names : list string) : code :=
  {| co_argcount := co_argcount c; co_posonlyargcount := co_posonlyargcount c;
     co_kwonlyargcount := co_kwonlyargcount c; co_nlocals := co_nlocals c;
     co_stacksize := co_stacksize c; co_flags := co_flags c;
     co_code := co_code c; co_consts := co_consts c; co_names := names;
     co_varnames := co_varnames c; co_filename := co_filename c; co_name := co_name c;
     co_firstlineno := co_firstlineno c; co_lnotab := co_lnotab c;
     co_freevars := co_freevars c; co_cellvars := co_cellvars c |}.

Definition with_varnames (c : code) (varnames : list string) : code :=
  {| co_argcount := co_argcount c; co_posonlyargcount := co_posonlyargcount c;
     co_kwonlyargcount := co_kwonlyargcount c; co_nlocals := co_nlocals c;
     co_stacksize := co_stacksize c; co_flags := co_flags c;
     co_code := co_code c; co_consts := co_consts c; co_names := co_names c;
     co_varnames := varnames; co_filename := co_filename c; co_name := co_name c;
     co_firstlineno := co_firstlineno c; co_lnotab := co_lnotab c;
     co_freevars := co_freevars c; co_cellvars := co_cellvars c |}.

(** The symbol tables the specializer writes for a family. *)
Definition specialized_code (fam : family) (t : code) (fields : list string) : code :=
  match fam with
  | F_init => with_varnames (with_names t fields) ("self" :: fields)
  | F_repr => with_names t (take 2 (co_names t) ++ fields)
  | F_eq | F_hash => with_names t (take 1 (co_names t) ++ fields)
  | F_iter => with_names t fields
  end.

(** An object after a sequence of attribute assignments. *)
Definition set_attrs (o : object) (items : list (string * value)) : object :=
  {| obj_class := obj_class o;
     obj_dict := fold_left (fun d kv => <[fst kv := snd kv]> d) items (obj_dict o) |}.

(** The text between the quotes of an f-string has no quote, line end
    or backslash. *)
Definition fstring_char (c : ascii) : bool :=
  negb (Ascii.eqb c (ascii_of_nat 34) || Ascii.eqb c (ascii_of_nat 10)
        || Ascii.eqb c (ascii_of_nat 92)).

Fixpoint fstring_text (s : string) : bool :=
  match s with
  | EmptyString => true
  | String c rest => fstring_char c && fstring_text rest
  end.

(** The representation template, as text, tokens and syntax. *)
Definition repr_piece (name : string) : string := "{self." +:+ name +:+ "!r}".

Definition repr_raw (names : list string) : string :=
  "{type(self).__name__}(" +:+ join ", " (map repr_piece names) +:+ ")".

Definition repr_toks (names : list string) : list token :=
  [TKeyword "def"; TName "__repr__"; TLParen; TName "self"; TRParen; TColon;
   TNewline; TIndent; TKeyword "return"; TFString (repr_raw names); TNewline; TDedent].

Definition type_name_expr : expr :=
  EAttr (ECall (EName "type") [EName "self"]) "__name__".

Definition field_value (name : string) : fpart :=
  FValue (EAttr (EName "self") name) 2.

Definition repr_parts (names : list string) : list fpart :=
  match names with
  | [] => [FValue type_name_expr 0; FLit "()"]
  | x :: rest =>
      [FValue type_name_expr 0; FLit "("; field_value x]
      ++ concat (map (fun y => [FLit ", "; field_value y]) rest)
      ++ [FLit ")"]
  end.

(** The parts of the fields: the first, then a separator before each
    of the others. *)
Definition fields_parts (names : list string) : list fpart :=
  match names with
  | [] => []
  | x :: rest => field_value x :: concat (map (fun y => [FLit ", "; field_value y]) rest)
  end.

(** The instructions of the representation. *)
Definition repr_head : list instr :=
  [LOAD_GLOBAL 0; LOAD_FAST 0; CALL_FUNCTION 1; LOAD_ATTR 1; FORMAT_VALUE 0].

Definition repr_field (i : nat) : list instr :=
  [LOAD_FAST 0; LOAD_ATTR (2 + i); FORMAT_VALUE 2].

Definition repr_more (start count : nat) : list instr :=
  concat (map (fun i => LOAD_CONST 2 :: repr_field i) (seq start count)).

Definition repr_code (n : nat) : list instr :=
  match n with
  | 0 => repr_head ++ [LOAD_CONST 1; BUILD_STRING 2; RETURN_VALUE]
  | S m =>
      repr_head ++ [LOAD_CONST 1] ++ repr_field 0 ++ repr_more 1 m
      ++ [LOAD_CONST (match m with 0 => 2 | _ => 3 end); BUILD_STRING (2 * m + 4);
          RETURN_VALUE]
  end.

Definition repr_consts (n : nat) : list const :=
  match n with
  | 0 => [KNone; KStr "()"]
  | 1 => [KNone; KStr "("; KStr ")"]
  | _ => [KNone; KStr "("; KStr ", "; KStr ")"]
  end.

(** The parts of a joined string, compiled one after the other. *)
Section codegen_parts.
Variable varnames : list string.

Fixpoint compile_parts (ps : list fpart) (cs : cstate) : result cstate :=
  match ps with
  | [] => Ok cs
  | FLit s :: rest => compile_parts rest (emit_const (KStr s) cs)
  | FValue e conv :: rest =>
      rbind (compile_expr varnames e cs) (fun cs =>
        compile_parts rest (emit (FORMAT_VALUE conv) cs))
  end.

End codegen_parts.

(** The value stack after the fields after the first: each pushes a
    separator and its representation. *)
Definition push_fields (st : list value) (ss : list string) : list value :=
  fold_left (fun st s => VStr s :: VStr ", " :: st) ss st.

(** The text the fields after the first add. *)
Fixpoint tail_str (ss : list string) : string :=
  match ss with
  | [] => ""
  | s :: rest => ", " +:+ s +:+ tail_str rest
  end.

(** The type [all_hints] resolves for a name: that of the first class
    along the [__mro__] on which [getattr(y, '__annotations__', {})]
    has the name; the annotations [getattr] finds are those of the
    class or, if it has none of its own, inherited ones. *)
Fixpoint declared_type (k : string) (mro : list pyclass) : option string :=
  match mro with
  | [] => None
  | y :: rest =>
      match annotations_of y with
      | Ok a =>
          match PyDict.getitem k a with
          | Some t => Some t
          | None => declared_type k rest
          end
      | _ => None
      end
  end.

(** The type the most derived class that annotates the name gives it:
    the first class along the [__mro__] whose own [__annotations__] have
    the name. *)
Fixpoint most_derived_type (k : string) (mro : list pyclass) : option string :=
  match mro with
  | [] => None
  | y :: rest =>
      match cls_vars y !! "__annotations__" with
      | Some (AAnnotations a) =>
          match PyDict.getitem k a with
          | Some t => Some t
          | None => most_derived_type k rest
          end
      | _ => most_derived_type k rest
      end
  end.

(** Single inheritance: the [__mro__] of every class of the chain is
    the rest of the chain from that class on. *)
Fixpoint linear_chain (mro : list pyclass) : Prop :=
  match mro with
  | [] => True
  | y :: rest => cls_mro y = y :: rest /\ linear_chain rest
  end.

(** The keys of the annotations of every class of a chain are
    distinct, as those of a [dict] are. *)
Definition annotations_wf (mro : list pyclass) : Prop :=
  Forall (fun y => forall a, annotations_of y = Ok a -> NoDup (PyDict.keys a)) mro.

(** The caches hold no more than [maxsize] entries, one for an arity. *)
Definition cache_bounded (w : world) : Prop :=
  forall fam, length (w_cache w fam) <= lru_maxsize /\ NoDup (map fst (w_cache w fam)).

(** A computation keeps an invariant of the process state, whether
    it returns or raises. *)
Definition preserves {A} (I : world -> Prop) (m : M A) : Prop :=
  forall w, I w -> I (snd (m w)).

(** The log of [exec] has grown by compilations of the three attached
    families only. *)
Definition log_extends (w0 w : world) : Prop :=
  forall e, e ∈ w_exec_log w -> e ∈ w_exec_log w0 \/ fst e ∈ attached_families.

(** [class Base: x: int; y: int] and
    [class Derived(Base): y: str; z: float] *)
Definition Base : pyclass :=
  Class 4 "Base" {[ "__annotations__" := AAnnotations [("x", "int"); ("y", "int")] ]} [].

Definition Derived : pyclass :=
  Class 5 "Derived"
    {[ "__annotations__" := AAnnotations [("y", "str"); ("z", "float")] ]} [Base].

(** The equality template, as text, tokens and syntax. *)
Definition eq_item (obj name : string) : string := obj +:+ "." +:+ name.

Definition tuple_toks (obj : string) (names : list string) : list token :=
  concat (map (fun n => [TName obj; TDot; TName n; TComma]) names).

Definition eq_toks (names : list string) : list token :=
  [TKeyword "def"; TName "__eq__"; TLParen; TName "self"; TComma; TName "other";
   TRParen; TColon; TNewline; TIndent;
   TKeyword "if"; TName "self"; TDot; TName "__class__"; TKeyword "is";
   TName "other"; TDot; TName "__class__"; TColon; TNewline; TIndent;
   TKeyword "return"; TLParen]
  ++ tuple_toks "self" names ++ [TRParen; TEqEq; TLParen]
  ++ tuple_toks "other" names
  ++ [TRParen; TNewline; TDedent; TKeyword "else"; TColon; TNewline; TIndent;
      TKeyword "return"; TName "NotImplemented"; TNewline; TDedent; TDedent].

Definition fields_of (obj : string) (names : list string) : list expr :=
  map (EAttr (EName obj)) names.

Definition eq_stmt (names : list string) : stmt :=
  SIf (ECompare (EAttr (EName "self") "__class__") CmpIs (EAttr (EName "other") "__class__"))
    [SReturn (ECompare (ETuple (fields_of "self" names)) CmpEq
                (ETuple (fields_of "other" names)))]
    [SReturn (EName "NotImplemented")].

(** The instructions of the equality. *)
Definition load_fields (v start count : nat) : list instr :=
  concat (map (fun i => [LOAD_FAST v; LOAD_ATTR (S i)]) (seq start count)).

Definition eq_code (n : nat) : list instr :=
  [LOAD_FAST 0; LOAD_ATTR 0; LOAD_FAST 1; LOAD_ATTR 0; COMPARE_OP CmpIs;
   POP_JUMP_IF_FALSE (4 * n + 10)]
  ++ load_fields 0 0 n ++ [BUILD_TUPLE n]
  ++ load_fields 1 0 n
  ++ [BUILD_TUPLE n; COMPARE_OP CmpEq; RETURN_VALUE;
      LOAD_GLOBAL (S n); RETURN_VALUE; LOAD_CONST 0; RETURN_VALUE].

(** The items of a tuple display or of an argument list, compiled one
    after the other. *)
Section codegen_exprs.
Variable varnames : list string.

Fixpoint compile_exprs (es : list expr) (cs : cstate) : result cstate :=
  match es with
  | [] => Ok cs
  | e :: rest => rbind (compile_expr varnames e cs) (compile_exprs rest)
  end.

End codegen_exprs.

(** The three attached families have a template for the arity in
    their caches. *)
Definition has_templates (n : nat) (w : world) : Prop :=
  forall fam, fam ∈ attached_families -> is_Some (lru_find n (w_cache w fam)).

(** The hashing template, as tokens and instructions. *)
Definition hash_toks (names : list string) : list token :=
  [TKeyword "def"; TName "__hash__"; TLParen; TName "self"; TRParen; TColon;
   TNewline; TIndent; TKeyword "return"; TName "hash"; TLParen; TLParen]
  ++ tuple_toks "self" names ++ [TRParen; TRParen; TNewline; TDedent].

Definition hash_code (n : nat) : list instr :=
  [LOAD_GLOBAL 0] ++ load_fields 0 0 n ++ [BUILD_TUPLE n; CALL_FUNCTION 1; RETURN_VALUE].

(** [class Point3(cls): pass] *)
Definition subclass_of (cls : pyclass) : pyclass := Class 7 "Point3" ∅ (cls_mro cls).

(** Every instruction that names an entry of [co_names] names one
    that is there. *)
Definition name_operand_ok (bound : nat) (i : instr) : Prop :=
  match i with
  | LOAD_GLOBAL k | LOAD_ATTR k | STORE_ATTR k => k < bound
  | _ => True
  end.

Definition names_in_range (c : code) : Prop :=
  Forall (name_operand_ok (length (co_names c))) (co_code c).

(** What decoration attaches for a family over the fields: the
    instructions of the family's template for that many fields, with
    the field names where the template had its placeholders. *)
Definition synthesized_for (fam : family) (fields : list string) (c : code) : Prop :=
  match fam with
  | F_init =>
      co_code c = init_code (length fields) /\ co_names c = fields
      /\ co_varnames c = "self" :: fields
  | F_repr =>
      co_code c = repr_code (length fields)
      /\ co_names c = "type" :: "__name__" :: fields
  | F_eq =>
      co_code c = eq_code (length fields) /\ co_names c = "__class__" :: fields
  | F_hash =>
      co_code c = hash_code (length fields) /\ co_names c = "hash" :: fields
  | F_iter => co_names c = fields
  end.

(** * Properties *)

(** ** The field resolver *)

Section first_appearance.
Implicit Types (seen names : list string).

Lemma first_appearance_ext seen seen' names :
  (forall x, x ∈ seen <-> x ∈ seen') ->
  first_appearance seen names = first_appearance seen' names.
Proof.
  revert seen seen'. induction names as [|k rest IH]; intros seen seen' Hext; simpl; [done|].
  destruct (bool_decide_reflect (k ∈ seen)) as [Hin|Hin];
    destruct (bool_decide_reflect (k ∈ seen')) as [Hin'|Hin'].
  - by apply IH.
  - exfalso. apply Hin'. by apply Hext.
  - exfalso. apply Hin. by apply Hext.
  - f_equal. apply IH. intros x. rewrite !elem_of_cons. by rewrite Hext.
Qed.

Lemma first_appearance_app seen l1 l2 :
  first_appearance seen (l1 ++ l2)
  = first_appearance seen l1 ++ first_appearance (seen ++ l1) l2.
Proof.
  revert seen. induction l1 as [|k rest IH]; intros seen; simpl.
  - by rewrite app_nil_r.
  - destruct (bool_decide_reflect (k ∈ seen)) as [Hin|Hin].
    + rewrite IH. f_equal. apply first_appearance_ext. set_solver.
    + simpl. f_equal. rewrite IH. f_equal. apply first_appearance_ext. set_solver.
Qed.

Lemma elem_of_first_appearance seen names x :
  x ∈ first_appearance seen names <-> x ∈ names /\ x ∉ seen.
Proof.
  revert seen. induction names as [|k rest IH]; intros seen; simpl.
  - rewrite elem_of_nil. naive_solver.
  - destruct (bool_decide_reflect (k ∈ seen)) as [Hin|Hin].
    + rewrite IH, elem_of_cons. naive_solver.
    + rewrite !elem_of_cons, IH, elem_of_cons.
      destruct (decide (x = k)); naive_solver.
Qed.

Lemma NoDup_first_appearance seen names : NoDup (first_appearance seen names).
Proof.
  revert seen. induction names as [|k rest IH]; intros seen; simpl.
  - constructor.
  - destruct (bool_decide_reflect (k ∈ seen)); [apply IH|].
    constructor; [|apply IH].
    rewrite elem_of_first_appearance, elem_of_cons. naive_solver.
Qed.

Lemma first_appearance_idem seen seen' names :
  (forall x, x ∈ seen' -> x ∈ seen) ->
  first_appearance seen (first_appearance seen' names) = first_appearance seen names.
Proof.
  revert seen seen'. induction names as [|k rest IH]; intros seen seen' Hsub; simpl; [done|].
  destruct (bool_decide_reflect (k ∈ seen')) as [Hin'|Hin'].
  - rewrite (bool_decide_eq_true_2 (k ∈ seen)) by auto. by apply IH.
  - simpl. destruct (bool_decide_reflect (k ∈ seen)) as [Hin|Hin].
    + apply IH. intros x. rewrite elem_of_cons. naive_solver.
    + f_equal. apply IH. intros x. rewrite !elem_of_cons. naive_solver.
Qed.

Lemma first_appearance_NoDup_id seen names :
  NoDup names -> (forall x, x ∈ names -> x ∉ seen) ->
  first_appearance seen names = names.
Proof.
  revert seen. induction names as [|k rest IH]; intros seen Hnd Hdisj; simpl; [done|].
  inversion Hnd as [|? ? Hk Hrest]; subst.
  rewrite (bool_decide_eq_false_2 (k ∈ seen)) by (apply Hdisj; left).
  f_equal. apply IH; [done|].
  intros x Hx. rewrite elem_of_cons. intros [->|Hs]; [done|].
  by apply (Hdisj x); [right|].
Qed.
End first_appearance.

Section dict_keys.
Context {V : Type}.
Implicit Types (d items : list (string * V)).

Lemma keys_setitem k v d :
  PyDict.keys (PyDict.setitem k v d)
  = PyDict.keys d ++ first_appearance (PyDict.keys d) [k].
Proof.
  induction d as [|[k' v'] d IH]; simpl; [done|].
  destruct (String.eqb_spec k' k) as [->|Hne]; simpl.
  - rewrite bool_decide_eq_true_2 by left. by rewrite app_nil_r.
  - rewrite IH. f_equal. simpl.
    destruct (bool_decide_reflect (k ∈ PyDict.keys d)) as [Hin|Hin].
    + by rewrite bool_decide_eq_true_2 by (by right).
    + rewrite bool_decide_eq_false_2; [done|].
      rewrite elem_of_cons. naive_solver.
Qed.

Lemma keys_update d items :
  PyDict.keys (PyDict.update d items)
  = PyDict.keys d ++ first_appearance (PyDict.keys d) (PyDict.keys items).
Proof.
  unfold PyDict.update. revert d.
  induction items as [|[k v] items IH]; intros d; simpl.
  - by rewrite app_nil_r.
  - rewrite IH, keys_setitem. simpl.
    destruct (bool_decide_reflect (k ∈ PyDict.keys d)) as [Hin|Hin].
    + by rewrite app_nil_r.
    + rewrite <- app_assoc. simpl. do 2 f_equal.
      apply first_appearance_ext. intros x.
      rewrite elem_of_app, !elem_of_cons, elem_of_nil. naive_solver.
Qed.

Lemma keys_unpack2 (a b : list (string * V)) :
  PyDict.keys (PyDict.unpack2 a b)
  = first_appearance [] (PyDict.keys a ++ PyDict.keys b).
Proof.
  unfold PyDict.unpack2. rewrite !keys_update. simpl.
  rewrite first_appearance_app. f_equal. simpl.
  apply first_appearance_ext. intros x.
  rewrite elem_of_first_appearance, elem_of_nil. naive_solver.
Qed.
End dict_keys.

Lemma all_hints_step_fail (mro : list pyclass) (r : result (list (string * string))) :
  (forall d, r <> Ok d) -> forall d, fold_left all_hints_step mro r <> Ok d.
Proof.
  revert r. induction mro as [|y mro IH]; intros r Hr; simpl; [done|].
  apply IH. intros d. destruct r; simpl; try done. by destruct (Hr a).
Qed.

Lemma base_to_derived_cons (y : pyclass) (mro : list pyclass) :
  base_to_derived (y :: mro) = base_to_derived mro ++ level_names y.
Proof.
  unfold base_to_derived. simpl. rewrite map_app, concat_app. simpl.
  by rewrite app_nil_r.
Qed.

Lemma first_appearance_absorb (l1 l2 : list string) :
  first_appearance [] (l1 ++ first_appearance [] l2) = first_appearance [] (l1 ++ l2).
Proof.
  rewrite !first_appearance_app. f_equal. apply first_appearance_idem.
  intros x. by rewrite elem_of_nil.
Qed.

(** The keys after a fold over a part of the [__mro__], given the keys
    before it. *)
Lemma reduce_hints_keys (mro : list pyclass) (x d : list (string * string)) :
  NoDup (PyDict.keys x) ->
  fold_left all_hints_step mro (Ok x) = Ok d ->
  PyDict.keys d = first_appearance [] (base_to_derived mro ++ PyDict.keys x).
Proof.
  revert x. induction mro as [|y mro IH]; intros x Hnd Hd; simpl in Hd.
  - injection Hd as <-. unfold base_to_derived. simpl.
    symmetry. apply first_appearance_NoDup_id; [exact Hnd|].
    intros k _. apply not_elem_of_nil.
  - unfold level_names in *. rewrite base_to_derived_cons. unfold level_names.
    destruct (annotations_of y) as [a| | |] eqn:Ha; simpl in Hd;
      try (by exfalso; eapply all_hints_step_fail; [|exact Hd]).
    apply IH in Hd.
    + rewrite Hd, keys_unpack2, first_appearance_absorb. by rewrite <- app_assoc.
    + rewrite keys_unpack2. apply NoDup_first_appearance.
Qed.

Lemma reduce_hints_total (mro : list pyclass) (x : list (string * string)) :
  Forall (fun y => exists a, annotations_of y = Ok a) mro <->
  exists d, fold_left all_hints_step mro (Ok x) = Ok d.
Proof.
  revert x. induction mro as [|y mro IH]; intros x; simpl.
  - split; [eauto|constructor].
  - destruct (annotations_of y) as [a| | |] eqn:Ha; simpl.
    + rewrite <- IH. split.
      * by inversion 1.
      * intros ?. constructor; eauto.
    + split; [inversion 1 as [|? ? [? ?]]; congruence|].
      intros [d Hd]. by eapply all_hints_step_fail in Hd.
    + split; [inversion 1 as [|? ? [? ?]]; congruence|].
      intros [d Hd]. by eapply all_hints_step_fail in Hd.
    + split; [inversion 1 as [|? ? [? ?]]; congruence|].
      intros [d Hd]. by eapply all_hints_step_fail in Hd.
Qed.

(** C5. The resolved field names are distinct; they are the walk of the
    chain from most-base to most-derived with every name kept where it
    first appears; and so the names of a class are the names resolved
    from the chain above it, in their places, followed by the names
    only the class itself declares. *)
Theorem all_hints_field_order (cls : pyclass) (d : list (string * string)) :
  all_hints cls = Ok d ->
  NoDup (PyDict.keys d)
  /\ PyDict.keys d = first_appearance [] (base_to_derived (cls_mro cls))
  /\ exists inh, inherited_hints cls = Ok inh
       /\ PyDict.keys d
          = PyDict.keys inh ++ first_appearance (PyDict.keys inh) (level_names cls).
Proof.
  intros Hd. unfold all_hints in Hd.
  assert (Hkeys : PyDict.keys d = first_appearance [] (base_to_derived (cls_mro cls))).
  { apply reduce_hints_keys in Hd; [|constructor]. simpl in Hd.
    by rewrite app_nil_r in Hd. }
  split; [rewrite Hkeys; apply NoDup_first_appearance|].
  split; [done|].
  assert (Hall : Forall (fun y => exists a, annotations_of y = Ok a) (cls_mro cls)).
  { apply (reduce_hints_total _ []). eauto. }
  destruct cls as [i n dict bases]. simpl in *.
  inversion Hall as [|? ? _ Hbases]; subst.
  apply (reduce_hints_total _ []) in Hbases as [inh Hinh].
  exists inh. split; [done|].
  pose proof Hinh as Hk. apply reduce_hints_keys in Hk; [|constructor].
  simpl in Hk. rewrite app_nil_r in Hk.
  rewrite Hkeys, Hk.
  rewrite base_to_derived_cons, first_appearance_app. f_equal.
  apply first_appearance_ext. intros x.
  rewrite elem_of_first_appearance. simpl. set_solver.
Qed.

(** ** The decorator *)

Lemma bind_ok {A B} (m : M A) (k : A -> M B) (w w' : world) (b : B) :
  bind m k w = (Ok b, w') ->
  exists a w1, m w = (Ok a, w1) /\ k a w1 = (Ok b, w').
Proof.
  unfold bind. destruct (m w) as [[a| | |] w1]; try discriminate. eauto.
Qed.

Lemma lift_ok {A} (r : result A) (w w' : world) (a : A) :
  lift r w = (Ok a, w') -> r = Ok a /\ w' = w.
Proof. unfold lift. by intros [= -> ->]. Qed.

Lemma ret_ok {A} (a b : A) (w w' : world) : ret a w = (Ok b, w') -> b = a /\ w' = w.
Proof. unfold ret. by intros [= -> ->]. Qed.

Lemma cls_vars_setattr (c : pyclass) (name : string) (a : attr) :
  cls_vars (cls_setattr c name a) = <[name := a]> (cls_vars c).
Proof. by destruct c. Qed.

Lemma cls_setattr_frame (c : pyclass) (name : string) (a : attr) :
  cls_id (cls_setattr c name a) = cls_id c
  /\ cls_name (cls_setattr c name a) = cls_name c
  /\ tail (cls_mro (cls_setattr c name a)) = tail (cls_mro c).
Proof. by destruct c. Qed.

(** One guarded line of the decorator. *)
Lemma attach_step (fam : family) (fields : list string) (cls cls1 : pyclass) (w w1 : world) :
  (if negb (in_clsdict (family_attr fam) cls)
   then let* t := codegen fam (length fields) in
        let* f := specialize fam t fields in
        ret (cls_setattr cls (family_attr fam) (AFunc f))
   else ret cls) w = (Ok cls1, w1) ->
  (is_Some (cls_vars cls !! family_attr fam) /\ cls1 = cls /\ w1 = w)
  \/ (cls_vars cls !! family_attr fam = None
      /\ exists f, synthesize fam fields w = (Ok f, w1)
                  /\ cls1 = cls_setattr cls (family_attr fam) (AFunc f)).
Proof.
  unfold in_clsdict. destruct (bool_decide_reflect (is_Some (cls_vars cls !! family_attr fam))) as [Hs|Hn]; simpl.
  - intros [-> ->]%ret_ok. by left.
  - intros (t & w2 & Ht & (f & w3 & Hf & [-> ->]%ret_ok)%bind_ok)%bind_ok.
    right. split; [by apply eq_None_not_Some|].
    exists f. split; [|done]. unfold synthesize, bind. by rewrite Ht.
Qed.

(** What the decorator does to a class, when it returns. *)
Lemma dataklass_inv (cls cls' : pyclass) (w w' : world) :
  dataklass cls w = (Ok cls', w') ->
  exists d c1 c2 c3 w1 w2,
    all_hints cls = Ok d
    /\ ((is_Some (cls_vars cls !! "__init__") /\ c1 = cls /\ w1 = w)
        \/ (cls_vars cls !! "__init__" = None
            /\ exists f, synthesize F_init (PyDict.keys d) w = (Ok f, w1)
                        /\ c1 = cls_setattr cls "__init__" (AFunc f)))
    /\ ((is_Some (cls_vars c1 !! "__repr__") /\ c2 = c1 /\ w2 = w1)
        \/ (cls_vars c1 !! "__repr__" = None
            /\ exists f, synthesize F_repr (PyDict.keys d) w1 = (Ok f, w2)
                        /\ c2 = cls_setattr c1 "__repr__" (AFunc f)))
    /\ ((is_Some (cls_vars c2 !! "__eq__") /\ c3 = c2 /\ w' = w2)
        \/ (cls_vars c2 !! "__eq__" = None
            /\ exists f, synthesize F_eq (PyDict.keys d) w2 = (Ok f, w')
                        /\ c3 = cls_setattr c2 "__eq__" (AFunc f)))
    /\ cls' = cls_setattr c3 "__match_args__" (ANames (PyDict.keys d)).
Proof.
  unfold dataklass.
  intros (d & w0 & [Hd ->]%lift_ok & H)%bind_ok.
  apply bind_ok in H as (c1 & w1 & H1 & H).
  apply bind_ok in H as (c2 & w2 & H2 & H).
  apply bind_ok in H as (c3 & w3 & H3 & [-> ->]%ret_ok).
  assert (Hlen : length d = length (PyDict.keys d)) by (unfold PyDict.keys; by rewrite length_map).
  rewrite Hlen in H1, H2, H3.
  apply (attach_step F_init) in H1. apply (attach_step F_repr) in H2.
  apply (attach_step F_eq) in H3.
  exists d, c1, c2, c3, w1, w2. done.
Qed.

Lemma dataklass_lookup (cls cls' : pyclass) (w w' : world) (name : string) :
  dataklass cls w = (Ok cls', w') ->
  name <> "__match_args__" ->
  (name <> "__init__" /\ name <> "__repr__" /\ name <> "__eq__"
   \/ is_Some (cls_vars cls !! name)) ->
  cls_vars cls' !! name = cls_vars cls !! name.
Proof.
  intros (d & c1 & c2 & c3 & w1 & w2 & _ & H1 & H2 & H3 & ->)%dataklass_inv Hm Hname.
  rewrite cls_vars_setattr, lookup_insert_ne by done.
  assert (E1 : cls_vars c1 !! name = cls_vars cls !! name).
  { destruct H1 as [(_ & -> & _)|(Hn & f & _ & ->)]; [done|].
    rewrite cls_vars_setattr. apply lookup_insert_ne.
    intros <-. destruct Hname as [(? & _)|[? Hs]]; [done|congruence]. }
  assert (E2 : cls_vars c2 !! name = cls_vars c1 !! name).
  { destruct H2 as [(_ & -> & _)|(Hn & f & _ & ->)]; [done|].
    rewrite cls_vars_setattr. apply lookup_insert_ne.
    intros <-. destruct Hname as [(? & ? & _)|[? Hs]]; [done|congruence]. }
  assert (E3 : cls_vars c3 !! name = cls_vars c2 !! name).
  { destruct H3 as [(_ & -> & _)|(Hn & f & _ & ->)]; [done|].
    rewrite cls_vars_setattr. apply lookup_insert_ne.
    intros <-. destruct Hname as [(? & ? & ?)|[? Hs]]; [done|congruence]. }
  congruence.
Qed.

Lemma dataklass_attached (cls cls' : pyclass) (w w' : world) (fam : family) :
  dataklass cls w = (Ok cls', w') ->
  fam ∈ attached_families ->
  cls_vars cls !! family_attr fam = None ->
  exists d f wa wb,
    all_hints cls = Ok d
    /\ synthesize fam (PyDict.keys d) wa = (Ok f, wb)
    /\ cls_vars cls' !! family_attr fam = Some (AFunc f).
Proof.
  intros (d & c1 & c2 & c3 & w1 & w2 & Hd & H1 & H2 & H3 & ->)%dataklass_inv Hfam Hnone.
  exists d. rewrite cls_vars_setattr.
  assert (E1 : forall name, name <> "__init__" -> cls_vars c1 !! name = cls_vars cls !! name).
  { intros name ?. destruct H1 as [(_ & -> & _)|(Hn & f & _ & ->)]; [done|].
    rewrite cls_vars_setattr. by apply lookup_insert_ne. }
  assert (E2 : forall name, name <> "__repr__" -> cls_vars c2 !! name = cls_vars c1 !! name).
  { intros name ?. destruct H2 as [(_ & -> & _)|(Hn & f & _ & ->)]; [done|].
    rewrite cls_vars_setattr. by apply lookup_insert_ne. }
  assert (E3 : forall name, name <> "__eq__" -> cls_vars c3 !! name = cls_vars c2 !! name).
  { intros name ?. destruct H3 as [(_ & -> & _)|(Hn & f & _ & ->)]; [done|].
    rewrite cls_vars_setattr. by apply lookup_insert_ne. }
  unfold attached_families in Hfam.
  apply elem_of_cons in Hfam as [->|Hfam]; [|apply elem_of_cons in Hfam as [->|Hfam];
    [|apply list_elem_of_singleton in Hfam as ->]]; simpl in *.
  - destruct H1 as [([? ?] & _)|(_ & f & Hf & ->)]; [congruence|].
    exists f, w, w1. split; [done|]. split; [done|].
    rewrite lookup_insert_ne, E3, E2 by done.
    rewrite cls_vars_setattr. apply lookup_insert_eq.
  - destruct H2 as [([? Hs] & _)|(_ & f & Hf & ->)].
    { rewrite E1 in Hs by done. congruence. }
    exists f, w1, w2. split; [done|]. split; [done|].
    rewrite lookup_insert_ne, E3 by done.
    rewrite cls_vars_setattr. apply lookup_insert_eq.
  - destruct H3 as [([? Hs] & _)|(_ & f & Hf & ->)].
    { rewrite E2, E1 in Hs by done. congruence. }
    exists f, w2, w'. split; [done|]. split; [done|].
    rewrite lookup_insert_ne by done.
    rewrite cls_vars_setattr. apply lookup_insert_eq.
Qed.

(** ** The template cache *)

Lemma family_eqb_spec (a b : family) : reflect (a = b) (family_eqb a b).
Proof. destruct a, b; simpl; constructor; congruence. Qed.

Lemma family_eqb_refl (a : family) : family_eqb a a = true.
Proof. by destruct a. Qed.

Section lru.
Implicit Types (c pre post : list (nat * pyfunc)) (k n : nat) (f g : pyfunc).

Lemma lru_find_None k c : lru_find k c = None <-> k ∉ map fst c.
Proof.
  induction c as [|[k' f'] c IH]; simpl.
  - split; [intros _; apply not_elem_of_nil|done].
  - destruct (Nat.eqb_spec k' k) as [->|Hne].
    + split; [done|]. intros []. left.
    + rewrite IH, not_elem_of_cons. naive_solver.
Qed.

Lemma lru_find_middle n f pre post :
  n ∉ map fst pre -> lru_find n (pre ++ (n, f) :: post) = Some f.
Proof.
  induction pre as [|[k' f'] pre IH]; simpl; intros Hn.
  - by rewrite Nat.eqb_refl.
  - apply not_elem_of_cons in Hn as [Hne Hn].
    destruct (Nat.eqb_spec k' n); [congruence|]. by apply IH.
Qed.

Lemma sublist_keys c1 c2 : sublist c1 c2 -> sublist (map fst c1) (map fst c2).
Proof.
  induction 1; simpl; [constructor|by apply sublist_skip|by apply sublist_cons].
Qed.

Lemma lru_remove_sublist k c : sublist (lru_remove k c) c.
Proof.
  induction c as [|[k' f'] c IH]; simpl; [done|].
  destruct (k' =? k); [by apply sublist_cons|by apply sublist_skip].
Qed.

Lemma lru_remove_keys k c x : x ∈ map fst (lru_remove k c) -> x ∈ map fst c.
Proof.
  intros Hx. eapply elem_of_sublist; [exact Hx|].
  apply sublist_keys, lru_remove_sublist.
Qed.

Lemma lru_remove_NoDup k c : NoDup (map fst c) -> NoDup (map fst (lru_remove k c)).
Proof. intros Hnd. eapply sublist_NoDup; [exact Hnd|]. apply sublist_keys, lru_remove_sublist. Qed.

Lemma lru_remove_gone k c : NoDup (map fst c) -> k ∉ map fst (lru_remove k c).
Proof.
  induction c as [|[k' f'] c IH]; simpl; [intros _; apply not_elem_of_nil|].
  intros Hnd. apply NoDup_cons in Hnd as [Hk Hnd].
  destruct (Nat.eqb_spec k' k) as [->|Hne]; [done|].
  simpl. apply not_elem_of_cons. split; [done|by apply IH].
Qed.

(** Removing another key leaves the entry of [n] in place, with no
    new key in front of it. *)
Lemma lru_remove_other k n f pre post :
  k <> n ->
  exists pre' post',
    lru_remove k (pre ++ (n, f) :: post) = pre' ++ (n, f) :: post'
    /\ forall x, x ∈ map fst pre' -> x ∈ map fst pre.
Proof.
  intros Hne. induction pre as [|[k' f'] pre (pre' & post' & E & Hsub)]; simpl.
  - destruct (Nat.eqb_spec n k); [congruence|].
    by exists [], (lru_remove k post).
  - destruct (Nat.eqb_spec k' k) as [->|Hk].
    + by exists pre, post; split; [|intros x ?; simpl; right].
    + exists ((k', f') :: pre'), post'. simpl. rewrite E. split; [done|].
      intros x [->|Hx]%elem_of_cons; [left|right; by apply Hsub].
Qed.
End lru.

(** What one request does to the caches and to the log of [exec]. *)
Lemma codegen_effect (fam : family) (k : nat) (w : world) :
  let r := fst (codegen fam k w) in
  let w' := snd (codegen fam k w) in
  (forall g, g <> fam -> w_cache w' g = w_cache w g)
  /\ match lru_find k (w_cache w fam) with
     | Some f =>
         r = Ok f /\ w_cache w' fam = lru_touch k f (w_cache w fam)
         /\ w_exec_log w' = w_exec_log w
     | None =>
         w_exec_log w' = (fam, k) :: w_exec_log w
         /\ match r with
            | Ok f => w_cache w' fam = lru_add k f (w_cache w fam) /\ fn_id f = w_next_id w
            | _ => w_cache w' fam = w_cache w fam
            end
     end.
Proof.
  unfold codegen. destruct (lru_find k (w_cache w fam)) as [f|] eqn:Hfind; simpl.
  - split; [|by rewrite family_eqb_refl].
    intros g Hg. by destruct (family_eqb_spec g fam).
  - unfold make_func_code_uncached, bind, log_exec, lift, new_function. simpl.
    destruct (exec_def _) as [c| | |]; simpl;
      (split; [intros g Hg; try by destruct (family_eqb_spec g fam)|]);
      by rewrite ?family_eqb_refl.
Qed.

Lemma exec_count_cons (fam fam' : family) (n k : nat) (w w' : world) :
  w_exec_log w' = (fam', k) :: w_exec_log w ->
  fam' <> fam \/ k <> n ->
  exec_count fam n w' = exec_count fam n w.
Proof.
  unfold exec_count. intros -> Hne. rewrite filter_cons. simpl.
  destruct (family_eqb_spec fam' fam) as [->|]; simpl; [|done].
  destruct (Nat.eqb_spec k n); [naive_solver|done].
Qed.

(** The entry of [n] stays in the cache of [fam], behind keys of [D]
    only, and [exec] has not run again for it. *)
Definition lru_holds (fam : family) (n : nat) (f : pyfunc) (D : list nat) (count : nat)
    (w : world) : Prop :=
  exists pre post,
    w_cache w fam = pre ++ (n, f) :: post
    /\ NoDup (map fst (w_cache w fam))
    /\ (forall x, x ∈ map fst pre -> x ∈ D)
    /\ exec_count fam n w = count.

Lemma lru_holds_find fam n f D count w :
  lru_holds fam n f D count w -> lru_find n (w_cache w fam) = Some f.
Proof.
  intros (pre & post & E & Hnd & _ & _). rewrite E. apply lru_find_middle.
  rewrite E, map_app in Hnd. apply NoDup_app in Hnd as (_ & Hdisj & _).
  intros Hn. apply (Hdisj n Hn). simpl. left.
Qed.

Lemma lru_holds_step fam n f D count w fam' k :
  NoDup D -> length D < lru_maxsize ->
  (fam' = fam -> k <> n -> k ∈ D) ->
  lru_holds fam n f D count w ->
  lru_holds fam n f D count (snd (codegen fam' k w)).
Proof.
  intros HD Hlen Hk Hinv.
  pose proof (lru_holds_find _ _ _ _ _ _ Hinv) as Hfind.
  destruct Hinv as (pre & post & E & Hnd & Hpre & Hcount).
  destruct (codegen_effect fam' k w) as [Hother Hself].
  destruct (family_eqb_spec fam' fam) as [->|Hfam].
  2:{ exists pre, post. rewrite Hother by done. repeat split; try done.
      rewrite <- Hcount. destruct (lru_find k (w_cache w fam')).
      - destruct Hself as (_ & _ & Hlog). unfold exec_count. by rewrite Hlog.
      - destruct Hself as (Hlog & _). eapply exec_count_cons; eauto. }
  destruct (decide (k = n)) as [->|Hkn].
  { rewrite Hfind in Hself. destruct Hself as (_ & Hc & Hlog).
    exists [], (lru_remove n (w_cache w fam)). rewrite Hc. unfold lru_touch.
    repeat split; simpl.
    - apply NoDup_cons. split; [by apply lru_remove_gone|by apply lru_remove_NoDup].
    - intros x Hx. by apply elem_of_nil in Hx.
    - unfold exec_count. by rewrite Hlog. }
  specialize (Hk eq_refl Hkn).
  destruct (lru_find k (w_cache w fam)) as [g|] eqn:Hg.
  - destruct Hself as (_ & Hc & Hlog).
    destruct (lru_remove_other k n f pre post Hkn) as (pre' & post' & Erem & Hsub).
    exists ((k, g) :: pre'), post'. rewrite Hc. unfold lru_touch. rewrite E, Erem.
    repeat split; simpl.
    + rewrite <- Erem, <- E. apply NoDup_cons.
      split; [by apply lru_remove_gone|by apply lru_remove_NoDup].
    + intros x [->|Hx]%elem_of_cons; [done|]. by apply Hpre, Hsub.
    + unfold exec_count. by rewrite Hlog.
  - destruct Hself as (Hlog & Hc).
    assert (Hcount' : exec_count fam n (snd (codegen fam k w)) = count).
    { rewrite <- Hcount. eapply exec_count_cons; eauto. }
    destruct (fst (codegen fam k w)) as [g| | |];
      try (exists pre, post; by rewrite Hc).
    destruct Hc as [Hc _].
    apply lru_find_None in Hg.
    assert (Hnd' : NoDup (map fst ((k, g) :: w_cache w fam))).
    { simpl. by apply NoDup_cons. }
    assert (Hshort : length ((k, g) :: pre) < lru_maxsize).
    { eapply Nat.le_lt_trans; [|exact Hlen].
      rewrite <- (length_map fst). apply submseteq_length, NoDup_submseteq.
      - rewrite E in Hnd'. simpl in Hnd'. rewrite map_app in Hnd'.
        apply NoDup_cons in Hnd' as [Hk' Hnd'].
        apply NoDup_app in Hnd' as (Hp & _ & _).
        simpl. apply NoDup_cons. split; [|done].
        intros Hin. apply Hk'. apply elem_of_app. by left.
      - intros x [->|Hx]%elem_of_cons; [done|by apply Hpre]. }
    exists ((k, g) :: pre), (take (lru_maxsize - S (length ((k, g) :: pre))) post).
    rewrite Hc. unfold lru_add. rewrite E.
    change ((k, g) :: pre ++ (n, f) :: post) with (((k, g) :: pre) ++ (n, f) :: post).
    repeat split.
    + rewrite take_app_ge by lia.
      by replace (lru_maxsize - length ((k, g) :: pre))
        with (S (lru_maxsize - S (length ((k, g) :: pre)))) by lia.
    + eapply sublist_NoDup; [exact Hnd'|]. rewrite E.
      apply sublist_keys, (sublist_take ((k, g) :: pre ++ (n, f) :: post)).
    + intros x [->|Hx]%elem_of_cons; [done|by apply Hpre].
    + done.
Qed.

Lemma lru_holds_requests fam n f D count ks w :
  NoDup D -> length D < lru_maxsize ->
  (forall k, k ∈ other_arities fam n ks -> k ∈ D) ->
  lru_holds fam n f D count w ->
  lru_holds fam n f D count (requests ks w).
Proof.
  intros HD Hlen. unfold requests.
  revert w. induction ks as [|[fam' k] ks IH]; intros w Hks Hinv; simpl; [done|].
  apply IH.
  - intros x Hx. apply Hks. unfold other_arities in *. rewrite filter_cons.
    destruct (_ && _); [by right|done].
  - apply lru_holds_step; try done.
    intros -> Hkn. apply Hks. unfold other_arities. rewrite filter_cons. simpl.
    rewrite family_eqb_refl. destruct (Nat.eqb_spec k n); [done|]. left.
Qed.

Lemma codegen_holds (fam : family) (n : nat) (w w1 : world) (f : pyfunc) (D : list nat) :
  NoDup (map fst (w_cache w fam)) ->
  codegen fam n w = (Ok f, w1) ->
  lru_holds fam n f D (exec_count fam n w1) w1.
Proof.
  intros Hnd Hc. destruct (codegen_effect fam n w) as [_ Hself].
  rewrite Hc in Hself. simpl in Hself.
  destruct (lru_find n (w_cache w fam)) as [g|] eqn:Hg.
  - destruct Hself as ([= <-] & Hcache & _).
    exists [], (lru_remove n (w_cache w fam)). rewrite Hcache. unfold lru_touch.
    repeat split; simpl.
    + apply NoDup_cons. split; [by apply lru_remove_gone|by apply lru_remove_NoDup].
    + intros x Hx. by apply elem_of_nil in Hx.
  - destruct Hself as (_ & Hcache & _). apply lru_find_None in Hg.
    exists [], (take (lru_maxsize - 1) (w_cache w fam)). rewrite Hcache.
    repeat split.
    + eapply sublist_NoDup;
        [|apply sublist_keys, (sublist_take ((n, f) :: w_cache w fam) lru_maxsize)].
      simpl. by apply NoDup_cons.
    + intros x Hx. by apply elem_of_nil in Hx.
Qed.

(** C7, as the code has it.  A template that a request returned stays
    in the cache of its family while fewer than 128 other arities are
    requested of that family: the next request for the same family and
    arity returns the same function object and runs no [exec], and
    [exec] has not run for that pair in between. *)
Theorem codegen_cached_within_capacity
    (fam : family) (n : nat) (w w1 : world) (f : pyfunc) (ks : list (family * nat)) :
  NoDup (map fst (w_cache w fam)) ->
  codegen fam n w = (Ok f, w1) ->
  length (remove_dups (other_arities fam n ks)) < lru_maxsize ->
  fst (codegen fam n (requests ks w1)) = Ok f
  /\ w_exec_log (snd (codegen fam n (requests ks w1))) = w_exec_log (requests ks w1)
  /\ exec_count fam n (requests ks w1) = exec_count fam n w1.
Proof.
  intros Hnd Hc Hlen.
  pose proof (codegen_holds fam n w w1 f (remove_dups (other_arities fam n ks)) Hnd Hc) as Hinv.
  apply (lru_holds_requests _ _ _ _ _ ks) in Hinv;
    [|apply NoDup_remove_dups|done|intros k; by rewrite elem_of_remove_dups].
  pose proof (lru_holds_find _ _ _ _ _ _ Hinv) as Hfind.
  destruct (codegen_effect fam n (requests ks w1)) as [_ Hself].
  rewrite Hfind in Hself. destruct Hself as (Hr & _ & Hlog).
  destruct Hinv as (_ & _ & _ & _ & _ & Hcount). done.
Qed.

Lemma codegen_cached_within_capacity_witness :
  exists f,
    fst (codegen F_repr 2 world_init) = Ok f
    /\ fst (codegen F_repr 2
              (requests [(F_repr, 3); (F_init, 2)] (snd (codegen F_repr 2 world_init))))
       = Ok f.
Proof.
  destruct (codegen F_repr 2 world_init) as [r w1] eqn:E.
  assert (Hr : exists f, r = Ok f).
  { replace r with (fst (codegen F_repr 2 world_init)) by (by rewrite E).
    vm_compute. eauto. }
  destruct Hr as [f ->]. exists f. split; [reflexivity|].
  apply (codegen_cached_within_capacity F_repr 2 world_init w1 f
           [(F_repr, 3); (F_init, 2)]).
  - constructor.
  - exact E.
  - vm_compute. lia.
Defined.

(** C7, as stated, fails: after arity 1 of the representation family,
    128 other arities fill the cache, and the next request for arity 1
    runs [exec] a second time and returns another function object (the
    first request returned object 0, this one returns object 129). *)
Lemma codegen_recompiles_after_eviction :
  let first := codegen F_repr 1 world_init in
  let again := codegen F_repr 1
                 (requests (map (fun k => (F_repr, k)) (seq 2 128)) (snd first)) in
  (option_map fn_id (result_value (fst first)),
   option_map fn_id (result_value (fst again)),
   exec_count F_repr 1 (snd again))
  = (Some 0, Some 129, 2).
Proof. vm_compute. reflexivity. Qed.

(** ** The decorated class of the running example *)

(** C1, at [Coordinates(2, 3) == (2, 3)].  The template of the equality
    has [NotImplemented] at index 3 of [co_names]; the specializer keeps
    the first name and the two fields, so the [LOAD_GLOBAL 3] on the
    branch for another type reads past the end of [co_names]: the
    method does not return [NotImplemented], and [==] has no result. *)
Lemma eq_other_type_faults :
  exists cls w a h f,
    dataklass Coordinates world_init = (Ok cls, w)
    /\ instantiate cls [VInt 2; VInt 3] [] ∅ = Ok (a, h)
    /\ cls_vars cls !! "__eq__" = Some (AFunc f)
    /\ co_names (fn_code f) = ["__class__"; "x"; "y"]
    /\ co_code (fn_code f) !! 18 = Some (LOAD_GLOBAL 3)
    /\ eq_method h a (VTuple [VInt 2; VInt 3]) = Fault
    /\ binary_eq h a (VTuple [VInt 2; VInt 3]) = Fault.
Proof.
  eexists _, _, _, _, _.
  split; [vm_compute; reflexivity|].
  split; [vm_compute; reflexivity|].
  split; [vm_compute; reflexivity|].
  repeat split; vm_compute; reflexivity.
Qed.

(** The same class compares two of its instances field by field. *)
Lemma eq_same_type_example :
  exists cls w a h b h',
    dataklass Coordinates world_init = (Ok cls, w)
    /\ instantiate cls [VInt 2; VInt 3] [] ∅ = Ok (a, h)
    /\ instantiate cls [VInt 2; VInt 3] [] h = Ok (b, h')
    /\ a <> b
    /\ binary_eq h' a b = Ok (VBool true).
Proof.
  eexists _, _, _, _, _, _.
  split; [vm_compute; reflexivity|].
  split; [vm_compute; reflexivity|].
  split; [vm_compute; reflexivity|].
  split; [discriminate|vm_compute; reflexivity].
Qed.

(** C2, as stated, fails at [Coordinates(2, 3)]: the representation
    has the values only, without the field names. *)
Lemma repr_has_no_field_names :
  exists cls w a h,
    dataklass Coordinates world_init = (Ok cls, w)
    /\ instantiate cls [VInt 2; VInt 3] [] ∅ = Ok (a, h)
    /\ repr_of h a = Ok "Coordinates(2, 3)"
    /\ repr_of h a <> Ok "Coordinates(x=2, y=3)".
Proof.
  eexists _, _, _, _.
  split; [vm_compute; reflexivity|].
  split; [vm_compute; reflexivity|].
  split; [vm_compute; reflexivity|].
  vm_compute. discriminate.
Qed.

(** C4, at [class Empty: pass].  For no names the text of the
    constructor is a [def] line without a body and the text of the
    equality has the tuple display [(,)]: [exec] raises [SyntaxError]
    on both, and so does the decorator.  The representation template for
    arity 0 does compile. *)
Lemma dataklass_empty_raises :
  all_hints Empty = Ok []
  /\ Source.make__init__ [] = "def __init__(self, ):" +:+ nl
  /\ exec_def (Source.make__init__ (placeholders 0)) = Raise SyntaxError
  /\ exec_def (Source.make__eq__ (placeholders 0)) = Raise SyntaxError
  /\ (exists c, exec_def (Source.make__repr__ (placeholders 0)) = Ok c)
  /\ fst (dataklass Empty world_init) = Raise SyntaxError.
Proof.
  split; [reflexivity|]. split; [reflexivity|].
  split; [vm_compute; reflexivity|]. split; [vm_compute; reflexivity|].
  split; [eexists; vm_compute; reflexivity|]. vm_compute. reflexivity.
Qed.

(** C6, at the equality template of arity 2 and the fields [x], [y].
    The template refers to four names; the specializer writes three:
    it replaces the two placeholders and drops [NotImplemented], which
    is no placeholder, while the instruction that loads name 3 stays in
    the code. *)
Lemma patch_attributes_drops_name :
  exists t w f w',
    make__eq__ 2 world_init = (Ok t, w)
    /\ patch_attributes t ["x"; "y"] 1 w = (Ok f, w')
    /\ co_names (fn_code t) = ["__class__"; "_0"; "_1"; "NotImplemented"]
    /\ co_names (fn_code f) = ["__class__"; "x"; "y"]
    /\ co_code (fn_code f) = co_code (fn_code t)
    /\ LOAD_GLOBAL 3 ∈ co_code (fn_code f).
Proof.
  eexists _, _, _, _.
  split; [vm_compute; reflexivity|].
  split; [vm_compute; reflexivity|].
  repeat split; try (vm_compute; reflexivity).
  vm_compute. do 18 right. left.
Qed.

Lemma dataklass_frame (cls cls' : pyclass) (w w' : world) :
  dataklass cls w = (Ok cls', w') ->
  cls_id cls' = cls_id cls /\ cls_name cls' = cls_name cls
  /\ tail (cls_mro cls') = tail (cls_mro cls).
Proof.
  intros (d & c1 & c2 & c3 & w1 & w2 & _ & H1 & H2 & H3 & ->)%dataklass_inv.
  assert (F1 : cls_id c1 = cls_id cls /\ cls_name c1 = cls_name cls
               /\ tail (cls_mro c1) = tail (cls_mro cls)).
  { destruct H1 as [(_ & -> & _)|(_ & f & _ & ->)]; [done|apply cls_setattr_frame]. }
  assert (F2 : cls_id c2 = cls_id c1 /\ cls_name c2 = cls_name c1
               /\ tail (cls_mro c2) = tail (cls_mro c1)).
  { destruct H2 as [(_ & -> & _)|(_ & f & _ & ->)]; [done|apply cls_setattr_frame]. }
  assert (F3 : cls_id c3 = cls_id c2 /\ cls_name c3 = cls_name c2
               /\ tail (cls_mro c3) = tail (cls_mro c2)).
  { destruct H3 as [(_ & -> & _)|(_ & f & _ & ->)]; [done|apply cls_setattr_frame]. }
  destruct (cls_setattr_frame c3 "__match_args__" (ANames (PyDict.keys d))) as (? & ? & ?).
  destruct F1 as (? & ? & ?), F2 as (? & ? & ?), F3 as (? & ? & ?).
  repeat split; congruence.
Qed.

Lemma type_getattr_unfold (c : pyclass) (name : string) :
  type_getattr c name
  = match cls_vars c !! name with
    | Some a => Some a
    | None => mro_lookup name (tail (cls_mro c))
    end.
Proof. by destruct c. Qed.

(** C10. The decorator leaves [__hash__] and [__iter__] as they were,
    in the namespace of the class and along its [__mro__]; so where no
    class of the chain sets [__hash__], the hash of an instance of the
    decorated class is the one derived from its identity.  And two
    instances of the decorated [Coordinates] that compare equal have
    different hashes. *)
Theorem dataklass_keeps_hash (cls cls' : pyclass) (w w' : world) :
  dataklass cls w = (Ok cls', w') ->
  cls_vars cls' !! "__hash__" = cls_vars cls !! "__hash__"
  /\ cls_vars cls' !! "__iter__" = cls_vars cls !! "__iter__"
  /\ type_getattr cls' "__hash__" = type_getattr cls "__hash__"
  /\ type_getattr cls' "__iter__" = type_getattr cls "__iter__"
  /\ (type_getattr cls "__hash__" = None ->
      forall (h : heap) (a : nat) (o : object),
        h !! a = Some o -> obj_class o = cls' ->
        hash_of h (VRef a) = Ok (Z.of_nat a))
  /\ (exists K w0 a h b h' x y,
        dataklass Coordinates world_init = (Ok K, w0)
        /\ instantiate K [VInt 2; VInt 3] [] ∅ = Ok (a, h)
        /\ instantiate K [VInt 2; VInt 3] [] h = Ok (b, h')
        /\ binary_eq h' a b = Ok (VBool true)
        /\ hash_of h' a = Ok x /\ hash_of h' b = Ok y /\ x <> y).
Proof.
  intros Hd.
  assert (Hh : cls_vars cls' !! "__hash__" = cls_vars cls !! "__hash__").
  { eapply dataklass_lookup; [exact Hd|done|by left]. }
  assert (Hi : cls_vars cls' !! "__iter__" = cls_vars cls !! "__iter__").
  { eapply dataklass_lookup; [exact Hd|done|by left]. }
  destruct (dataklass_frame _ _ _ _ Hd) as (_ & _ & Htail).
  assert (Hth : type_getattr cls' "__hash__" = type_getattr cls "__hash__").
  { by rewrite !type_getattr_unfold, Hh, Htail. }
  repeat split; try done.
  - by rewrite !type_getattr_unfold, Hi, Htail.
  - intros Hnone h a o Ho Hcls. unfold hash_of. rewrite Ho, Hcls, Hth, Hnone. done.
  - eexists _, _, _, _, _, _, _, _.
    split; [vm_compute; reflexivity|].
    split; [vm_compute; reflexivity|].
    split; [vm_compute; reflexivity|].
    split; [vm_compute; reflexivity|].
    split; [vm_compute; reflexivity|].
    split; [vm_compute; reflexivity|]. discriminate.
Qed.

Lemma dataklass_keeps_hash_witness :
  exists cls',
    fst (dataklass Coordinates world_init) = Ok cls'
    /\ cls_vars cls' !! "__hash__" = cls_vars Coordinates !! "__hash__".
Proof.
  destruct (dataklass Coordinates world_init) as [r w'] eqn:E.
  assert (Hr : exists cls', r = Ok cls').
  { replace r with (fst (dataklass Coordinates world_init)) by (by rewrite E).
    vm_compute. eauto. }
  destruct Hr as [cls' ->]. exists cls'. split; [reflexivity|].
  apply (dataklass_keeps_hash Coordinates cls' world_init w' E).
Defined.

Lemma all_hints_field_order_witness :
  all_hints Derived = Ok [("x", "int"); ("y", "str"); ("z", "float")]
  /\ inherited_hints Derived = Ok [("x", "int"); ("y", "int")]
  /\ first_appearance [] (base_to_derived (cls_mro Derived)) = ["x"; "y"; "z"]
  /\ first_appearance ["x"; "y"] (level_names Derived) = ["z"]
  /\ NoDup (PyDict.keys [("x", "int"); ("y", "str"); ("z", "float")])
  /\ PyDict.keys [("x", "int"); ("y", "str"); ("z", "float")]
     = first_appearance [] (base_to_derived (cls_mro Derived))
  /\ exists inh, inherited_hints Derived = Ok inh
       /\ PyDict.keys [("x", "int"); ("y", "str"); ("z", "float")]
          = PyDict.keys inh ++ first_appearance (PyDict.keys inh) (level_names Derived).
Proof.
  split; [reflexivity|]. split; [reflexivity|].
  split; [reflexivity|]. split; [reflexivity|].
  apply (all_hints_field_order Derived [("x", "int"); ("y", "str"); ("z", "float")]).
  reflexivity.
Defined.

(** ** The front end on the constructor template *)

Lemma append_cons (x : ascii) (a b : string) : String x a +:+ b = String x (a +:+ b).
Proof. reflexivity. Qed.

Lemma append_assoc (a b c : string) : (a +:+ b) +:+ c = a +:+ (b +:+ c).
Proof. induction a as [|x a IH]; [done|]. by rewrite !append_cons, IH. Qed.

Lemma append_nil_l (a : string) : "" +:+ a = a.
Proof. done. Qed.

Lemma append_nil_r (a : string) : a +:+ "" = a.
Proof. induction a as [|x a IH]; [done|]. by rewrite append_cons, IH. Qed.

Lemma lex_string_app (lx : lexer) (s1 s2 : string) :
  lex_string lx (s1 +:+ s2) = lex_string (lex_string lx s1) s2.
Proof.
  revert lx. induction s1 as [|c s1 IH]; intros lx; [done|].
  rewrite append_cons. simpl. apply IH.
Qed.

Lemma name_start_not_blank (c : ascii) :
  is_name_start c = true ->
  Ascii.eqb c " " = false /\ Ascii.eqb c (ascii_of_nat 10) = false.
Proof.
  destruct c as [[] [] [] [] [] [] [] []]; vm_compute; intros; try discriminate; done.
Qed.

Lemma lex_name_rest (T : list token) (I : list nat) (acc s : string) :
  all_name_chars s = true ->
  lex_string {| lx_toks := T; lx_indents := I; lx_mode := InName acc |} s
  = {| lx_toks := T; lx_indents := I; lx_mode := InName (acc +:+ s) |}.
Proof.
  revert acc. induction s as [|c s IH]; intros acc Hs; simpl.
  - by rewrite append_nil_r.
  - simpl in Hs. apply andb_prop in Hs as [Hc Hs].
    unfold lex_char. simpl. rewrite Hc. unfold lx_goto. simpl.
    rewrite IH by done. by rewrite append_assoc, append_cons.
Qed.

Lemma lex_identifier (T : list token) (I : list nat) (s : string) :
  is_identifier s ->
  lex_string {| lx_toks := T; lx_indents := I; lx_mode := Mid |} s
  = {| lx_toks := T; lx_indents := I; lx_mode := InName s |}.
Proof.
  intros (c & rest & -> & Hc & Hrest & _). simpl.
  unfold lex_char, lex_mid. simpl.
  destruct (name_start_not_blank c Hc) as [-> ->]. rewrite Hc.
  unfold lx_goto. simpl. by rewrite lex_name_rest.
Qed.

(** A name followed by a character that ends it. *)
Lemma lex_identifier_then (T : list token) (I : list nat) (s : string) (d : ascii) (rest : string) :
  is_identifier s ->
  lex_string {| lx_toks := T; lx_indents := I; lx_mode := Mid |} (s +:+ String d rest)
  = lex_string (lex_char {| lx_toks := T; lx_indents := I; lx_mode := InName s |} d) rest.
Proof. intros Hs. by rewrite lex_string_app, lex_identifier. Qed.

Lemma is_identifier_classify s : is_identifier s -> classify s = TName s.
Proof. by intros (c & rest & _ & _ & _ & ?). Qed.

Lemma name_char_not_quote (c : ascii) :
  is_name_char c = true -> Ascii.eqb c (ascii_of_nat 34) = false.
Proof.
  destruct c as [[] [] [] [] [] [] [] []]; vm_compute; intros; try discriminate; done.
Qed.

(** A name, the character that ends it, and the text after. *)
Lemma lex_identifier_delim (T : list token) (I : list nat) (s : string) (d : ascii)
    (l rest : string) :
  is_identifier s ->
  is_name_char d = false -> Ascii.eqb d (ascii_of_nat 34) = false ->
  lex_string {| lx_toks := T; lx_indents := I; lx_mode := Mid |}
    (s +:+ String d l +:+ rest)
  = lex_string (lex_mid d {| lx_toks := TName s :: T; lx_indents := I; lx_mode := Mid |})
      (l +:+ rest).
Proof.
  intros Hs Hd Hq. rewrite lex_string_app, lex_identifier by done.
  change (String d l +:+ rest) with (String d (l +:+ rest)).
  cbn [lex_string]. f_equal. unfold lex_char. cbn [lx_mode]. rewrite Hd, Hq.
  unfold lx_goto, lx_emit. cbn [lx_toks lx_indents lx_mode].
  by rewrite (is_identifier_classify s).
Qed.

(** Run the tokenizer over a literal piece of text, whatever the tokens
    seen so far. *)
Ltac lex_eval mk st :=
  lazymatch st with
  | {| lx_toks := ?T; lx_indents := ?I; lx_mode := ?m |} =>
      let t := fresh "toks" in
      let Ht := fresh "Htoks" in
      remember T as t eqn:Ht in |- *;
      let tm := mk constr:({| lx_toks := t; lx_indents := I; lx_mode := m |}) in
      let r := eval vm_compute in tm in
      change tm with r;
      subst t
  end.

Ltac lex_lit :=
  match goal with
  | |- context [lex_string ?st (String ?c ?l +:+ ?X)] =>
      rewrite (lex_string_app st (String c l) X);
      lex_eval ltac:(fun s => constr:(lex_string s (String c l))) st
  | |- context [lex_string ?st (String ?c ?l)] =>
      lex_eval ltac:(fun s => constr:(lex_string s (String c l))) st
  end.

Ltac lex_delim :=
  match goal with
  | |- context [lex_mid (Ascii ?b0 ?b1 ?b2 ?b3 ?b4 ?b5 ?b6 ?b7) ?st] =>
      lex_eval ltac:(fun s => constr:(lex_mid (Ascii b0 b1 b2 b3 b4 b5 b6 b7) s)) st
  | |- context [lex_mid (ascii_of_nat ?k) ?st] =>
      lex_eval ltac:(fun s => constr:(lex_mid (ascii_of_nat k) s)) st
  end.

Ltac lex_name :=
  match goal with
  | |- context [lex_string {| lx_toks := ?T; lx_indents := ?I; lx_mode := Mid |}
                  (?s +:+ String ?d ?l +:+ ?rest)] =>
      rewrite (lex_identifier_delim T I s d l rest) by (done || reflexivity);
      lex_delim; rewrite ?append_nil_l
  end.

Lemma lex_join_comma (names : list string) (T : list token) (I : list nat)
    (d : ascii) (l rest : string) :
  names <> [] -> Forall is_identifier names ->
  is_name_char d = false -> Ascii.eqb d (ascii_of_nat 34) = false ->
  lex_string {| lx_toks := T; lx_indents := I; lx_mode := Mid |}
    (join "," names +:+ String d l +:+ rest)
  = lex_string
      (lex_mid d {| lx_toks := rev (params_toks names) ++ T; lx_indents := I; lx_mode := Mid |})
      (l +:+ rest).
Proof.
  intros Hne Hall Hd Hq. revert T.
  induction names as [|n names IH]; intros T; [done|].
  apply Forall_cons in Hall as [Hn Hall].
  destruct names as [|n' names].
  - simpl join. by rewrite lex_identifier_delim.
  - change (join "," (n :: n' :: names)) with (n +:+ "," +:+ join "," (n' :: names)).
    rewrite !append_assoc.
    rewrite (lex_identifier_delim T I n "," "") by done.
    rewrite append_nil_l.
    lex_delim.
    rewrite IH by done.
    change (params_toks (n :: n' :: names)) with (TName n :: TComma :: params_toks (n' :: names)).
    simpl rev. by rewrite <- !app_assoc.
Qed.

Lemma lex_init_line (T : list token) (name rest : string) :
  is_identifier name ->
  lex_string {| lx_toks := T; lx_indents := [1; 0]; lx_mode := LineStart 0 |}
    (init_line name +:+ rest)
  = lex_string {| lx_toks := rev (assign_toks name) ++ T;
                  lx_indents := [1; 0]; lx_mode := LineStart 0 |} rest.
Proof.
  intros Hn. unfold init_line, nl. rewrite !append_assoc.
  lex_lit. lex_name. lex_lit. lex_name. done.
Qed.

Lemma lex_init_first_line (T : list token) (name rest : string) :
  is_identifier name ->
  lex_string {| lx_toks := T; lx_indents := [0]; lx_mode := LineStart 0 |}
    (init_line name +:+ rest)
  = lex_string {| lx_toks := rev (assign_toks name) ++ TIndent :: T;
                  lx_indents := [1; 0]; lx_mode := LineStart 0 |} rest.
Proof.
  intros Hn. unfold init_line, nl. rewrite !append_assoc.
  lex_lit. lex_name. lex_lit. lex_name. done.
Qed.

Lemma lex_init_lines (names : list string) (T : list token) :
  Forall is_identifier names ->
  lex_string {| lx_toks := T; lx_indents := [1; 0]; lx_mode := LineStart 0 |}
    (join nl (map init_line names))
  = {| lx_toks := rev (concat (map assign_toks names)) ++ T;
       lx_indents := [1; 0]; lx_mode := LineStart 0 |}.
Proof.
  intros Hall. revert T. induction names as [|n names IH]; intros T; [done|].
  apply Forall_cons in Hall as [Hn Hall].
  destruct names as [|n' names].
  - simpl join. rewrite <- (append_nil_r (init_line n)), lex_init_line by done.
    done.
  - change (join nl (map init_line (n :: n' :: names)))
      with (init_line n +:+ nl +:+ join nl (map init_line (n' :: names))).
    rewrite lex_init_line by done.
    unfold nl at 1. lex_lit. fold nl.
    rewrite IH by done.
    change (map assign_toks (n :: n' :: names))
      with (assign_toks n :: map assign_toks (n' :: names)).
    rewrite concat_cons, rev_app_distr. by rewrite <- app_assoc.
Qed.

Lemma lex_init_body (names : list string) (T : list token) :
  names <> [] -> Forall is_identifier names ->
  lex_string {| lx_toks := T; lx_indents := [0]; lx_mode := LineStart 0 |}
    (join nl (map init_line names))
  = {| lx_toks := rev (concat (map assign_toks names)) ++ TIndent :: T;
       lx_indents := [1; 0]; lx_mode := LineStart 0 |}.
Proof.
  intros Hne Hall. destruct names as [|n names]; [done|].
  apply Forall_cons in Hall as [Hn Hall].
  destruct names as [|n' names].
  - simpl join. by rewrite <- (append_nil_r (init_line n)), lex_init_first_line.
  - change (join nl (map init_line (n :: n' :: names)))
      with (init_line n +:+ nl +:+ join nl (map init_line (n' :: names))).
    rewrite lex_init_first_line by done.
    unfold nl at 1. lex_lit. fold nl.
    rewrite lex_init_lines by done.
    change (map assign_toks (n :: n' :: names))
      with (assign_toks n :: map assign_toks (n' :: names)).
    rewrite concat_cons, rev_app_distr. by rewrite <- app_assoc.
Qed.

Lemma tokenize_init (names : list string) :
  names <> [] -> Forall is_identifier names ->
  tokenize (Source.make__init__ names) = Ok (init_toks names).
Proof.
  intros Hne Hall. unfold tokenize, Source.make__init__.
  fold init_line. unfold lexer_init. rewrite !append_assoc.
  lex_lit.
  rewrite (lex_join_comma names _ _ ")" ":") by done.
  lex_delim. lex_lit. unfold nl at 1. lex_lit.
  rewrite lex_init_body by done.
  unfold lex_finish, lex_flush, rbind, init_toks.
  cbn [lx_mode lx_toks lx_indents length].
  remember (params_toks names) as P. remember (concat (map assign_toks names)) as B.
  f_equal. change (repeat TDedent (2 - 1)) with [TDedent].
  rewrite !rev_app_distr, !rev_involutive. simpl.
  rewrite !rev_app_distr, !rev_involutive. simpl.
  by rewrite <- !app_assoc.
Qed.

(** ** Parsing the constructor *)

Lemma parse_params_cons (p : string) (rest : list token) :
  parse_params (TName p :: TComma :: rest)
  = rbind (parse_params rest) (fun '(ps, rest') => Ok (p :: ps, rest')).
Proof. reflexivity. Qed.

Lemma parse_params_toks (names : list string) (rest : list token) :
  names <> [] ->
  parse_params (params_toks names ++ TRParen :: rest) = Ok (names, rest).
Proof.
  intros Hne. induction names as [|n names IH]; [done|].
  destruct names as [|n' names]; [done|].
  change (params_toks (n :: n' :: names) ++ TRParen :: rest)
    with (TName n :: TComma :: (params_toks (n' :: names) ++ TRParen :: rest)).
  by rewrite parse_params_cons, IH.
Qed.

Lemma parse_assign_stmt (f : nat) (name : string) (rest : list token) :
  parse_stmt (6 + f) (assign_toks name ++ rest) = Ok (init_stmt name, rest).
Proof. reflexivity. Qed.

Lemma parse_stmts_init (names : list string) (fuel : nat) (rest : list token) :
  names <> [] -> length names + 6 <= fuel ->
  parse_stmts fuel (concat (map assign_toks names) ++ TDedent :: rest)
  = Ok (map init_stmt names, rest).
Proof.
  revert fuel. induction names as [|n names IH]; intros fuel Hne Hfuel; [done|].
  simpl in Hfuel. destruct fuel as [|fuel]; [lia|].
  cbn [map concat]. rewrite <- app_assoc.
  cbn [parse_stmts].
  replace fuel with (6 + (fuel - 6)) at 1 by lia.
  rewrite parse_assign_stmt. cbn [rbind].
  destruct names as [|n' names].
  - done.
  - rewrite IH by (done || (simpl in *; lia)).
    by cbn [map concat assign_toks app].
Qed.

Lemma length_init_toks (names : list string) :
  length names <= length (init_toks names).
Proof.
  unfold init_toks. rewrite !length_app.
  assert (length names <= length (concat (map assign_toks names))).
  { induction names as [|n names IH]; simpl; lia. }
  lia.
Qed.

Lemma has_dup_false (l : list string) : NoDup l -> has_dup l = false.
Proof. intros. unfold has_dup. by rewrite bool_decide_eq_true_2. Qed.

Lemma parse_funcdef_unfold (fuel : nat) (name : string) (rest : list token) :
  parse_funcdef fuel (TKeyword "def" :: TName name :: TLParen :: rest)
  = rbind (parse_params rest) (fun '(params, rest') =>
      match rest' with
      | TColon :: rest'' =>
          rbind (parse_suite fuel rest'') (fun '(body, rest3) =>
            match rest3 with
            | [] =>
                if has_dup params then Raise SyntaxError
                else Ok {| fd_name := name; fd_params := params; fd_body := body |}
            | _ => Unsupported
            end)
      | _ => Unsupported
      end).
Proof. reflexivity. Qed.

Lemma parse_suite_unfold (fuel : nat) (rest : list token) :
  parse_suite (S fuel) (TNewline :: TIndent :: rest) = parse_stmts fuel rest.
Proof. reflexivity. Qed.

Lemma parse_init (names : list string) :
  names <> [] -> NoDup ("self" :: names) ->
  parse_funcdef (8 * length (init_toks names) + 8) (init_toks names)
  = Ok {| fd_name := "__init__"; fd_params := "self" :: names;
          fd_body := map init_stmt names |}.
Proof.
  intros Hne Hnd. pose proof (length_init_toks names) as Hlen.
  remember (8 * length (init_toks names) + 8) as fuel eqn:Hfuel.
  destruct fuel as [|fuel]; [lia|].
  unfold init_toks. cbn [app].
  rewrite parse_funcdef_unfold, parse_params_cons, parse_params_toks by done.
  cbn [rbind]. rewrite parse_suite_unfold.
  rewrite parse_stmts_init by (done || lia).
  cbn [rbind]. by rewrite has_dup_false.
Qed.

(** ** Compiling the constructor *)

Lemma index_of_None (x : string) (l : list string) : index_of x l = None <-> x ∉ l.
Proof.
  induction l as [|y l IH]; simpl.
  - split; [intros _; apply not_elem_of_nil|done].
  - destruct (String.eqb_spec y x) as [->|Hne].
    + split; [done|]. intros []. left.
    + rewrite not_elem_of_cons. destruct (index_of x l); simpl; naive_solver.
Qed.

Lemma index_of_middle (x : string) (pre suf : list string) :
  x ∉ pre -> index_of x (pre ++ x :: suf) = Some (length pre).
Proof.
  induction pre as [|y pre IH]; simpl; intros Hx.
  - by rewrite String.eqb_refl.
  - apply not_elem_of_cons in Hx as [Hne Hx].
    destruct (String.eqb_spec y x); [congruence|]. by rewrite IH.
Qed.

Lemma compile_init_stmt (pre suf : list string) (n : string) (K : list const) (C : list instr) :
  NoDup ("self" :: pre ++ n :: suf) ->
  compile_stmt ("self" :: pre ++ n :: suf) (init_stmt n)
    {| cs_names := pre; cs_consts := K; cs_code := C |}
  = Ok {| cs_names := pre ++ [n]; cs_consts := K;
          cs_code := C ++ [LOAD_FAST (S (length pre)); LOAD_FAST 0; STORE_ATTR (length pre)] |}.
Proof.
  intros Hnd. apply NoDup_cons in Hnd as [Hself Hnd].
  apply NoDup_app in Hnd as (_ & Hdisj & _).
  assert (Hn : n ∉ pre) by (intros Hin; apply (Hdisj n Hin); left).
  assert (Hne : "self" <> n) by (intros <-; apply Hself, elem_of_app; right; left).
  unfold init_stmt. cbn [compile_stmt compile_expr].
  assert (E1 : index_of n ("self" :: pre ++ n :: suf) = Some (S (length pre))).
  { cbn [index_of]. destruct (String.eqb_spec "self" n); [done|].
    by rewrite index_of_middle. }
  rewrite E1. cbn [rbind].
  change (index_of "self" ("self" :: pre ++ n :: suf)) with (Some 0).
  cbn [rbind]. unfold emit_name, emit. cbn [cs_names cs_consts cs_code].
  rewrite (proj2 (index_of_None n pre) Hn).
  by rewrite <- !app_assoc.
Qed.

Lemma compile_init_body (pre suf : list string) (K : list const) (C : list instr) :
  NoDup ("self" :: pre ++ suf) ->
  compile_body ("self" :: pre ++ suf) (map init_stmt suf)
    {| cs_names := pre; cs_consts := K; cs_code := C |}
  = Ok {| cs_names := pre ++ suf; cs_consts := K;
          cs_code := C ++ init_instrs (length pre) (length suf) |}.
Proof.
  revert pre C. induction suf as [|n suf IH]; intros pre C Hnd.
  - simpl. unfold init_instrs. simpl. by rewrite !app_nil_r.
  - cbn [map compile_body]. rewrite compile_init_stmt by done. cbn [rbind].
    replace (pre ++ n :: suf) with ((pre ++ [n]) ++ suf) in * by (by rewrite <- app_assoc).
    rewrite IH by done. do 2 f_equal.
    rewrite <- app_assoc. f_equal. rewrite length_app. simpl.
    unfold init_instrs. simpl. do 3 f_equal.
    by rewrite Nat.add_1_r.
Qed.

Lemma last_map_init (names : list string) : ends_with_return (map init_stmt names) = false.
Proof.
  unfold ends_with_return.
  induction names as [|n names IH]; [done|].
  destruct names as [|n' names]; [done|]. exact IH.
Qed.

(** The constructor template, for any list of distinct names. *)
Lemma exec_def_init (names : list string) :
  names <> [] -> Forall is_identifier names -> NoDup ("self" :: names) ->
  exists c,
    exec_def (Source.make__init__ names) = Ok c
    /\ co_code c = init_code (length names)
    /\ co_names c = names
    /\ co_varnames c = "self" :: names
    /\ co_consts c = [KNone]
    /\ co_argcount c = S (length names)
    /\ co_kwonlyargcount c = 0
    /\ co_nlocals c = S (length names).
Proof.
  intros Hne Hall Hnd. unfold exec_def, parse_module.
  rewrite tokenize_init by done. cbn [rbind].
  rewrite parse_init by done. cbn [rbind].
  unfold compile_funcdef. cbn [fd_params fd_body fd_name].
  rewrite (compile_init_body [] names) by done. cbn [rbind].
  rewrite last_map_init.
  eexists. split; [reflexivity|]. cbn.
  split; [|done]. unfold init_code. by rewrite <- app_assoc.
Qed.

(** ** The placeholder names *)

Lemma digits_name_chars (d : Decimal.uint) :
  all_name_chars (NilEmpty.string_of_uint d) = true.
Proof. induction d; simpl; try done. Qed.

Lemma placeholder_identifier (i : nat) : is_identifier (placeholder i).
Proof.
  unfold placeholder. exists "_"%char, (NilEmpty.string_of_uint (Nat.to_uint i)).
  split; [done|]. split; [done|]. split; [apply digits_name_chars|].
  reflexivity.
Qed.

Lemma placeholder_inj (i j : nat) : placeholder i = placeholder j -> i = j.
Proof.
  unfold placeholder. rewrite !append_cons, !append_nil_l. intros [= H].
  apply (f_equal NilEmpty.uint_of_string) in H. rewrite !NilEmpty.usu in H.
  injection H as H. apply (f_equal Nat.of_uint) in H.
  by rewrite !Unsigned.of_to in H.
Qed.

Lemma placeholders_NoDup (n : nat) : NoDup ("self" :: placeholders n).
Proof.
  apply NoDup_cons. split.
  - unfold placeholders. intros Hin. apply list_elem_of_fmap in Hin as (i & Hi & _).
    discriminate Hi.
  - unfold placeholders. apply NoDup_fmap_2; [|apply NoDup_seq].
    intros i j. apply placeholder_inj.
Qed.

Lemma placeholders_identifiers (n : nat) : Forall is_identifier (placeholders n).
Proof.
  unfold placeholders. apply Forall_fmap, Forall_forall.
  intros i _. apply placeholder_identifier.
Qed.

Lemma length_placeholders (n : nat) : length (placeholders n) = n.
Proof. unfold placeholders. by rewrite length_map, length_seq. Qed.

Lemma placeholders_nonempty (n : nat) : 0 < n -> placeholders n <> [].
Proof. intros Hn E. apply (f_equal length) in E. rewrite length_placeholders in E. simpl in E. lia. Qed.

(** The constructor template of every arity but 0. *)
Lemma exec_def_make__init__ (n : nat) :
  0 < n ->
  exists c,
    exec_def (template_source F_init (placeholders n)) = Ok c
    /\ co_code c = init_code n
    /\ co_names c = placeholders n
    /\ co_varnames c = "self" :: placeholders n
    /\ co_consts c = [KNone]
    /\ co_argcount c = S n
    /\ co_kwonlyargcount c = 0
    /\ co_nlocals c = S n.
Proof.
  intros Hn.
  destruct (exec_def_init (placeholders n)) as (c & Hc);
    [by apply placeholders_nonempty|apply placeholders_identifiers|apply placeholders_NoDup|].
  rewrite length_placeholders in Hc. by exists c.
Qed.

(** ** The specializer on the templates *)

Lemma code_replace_names (c : code) (names : list string) :
  code_replace c [("co_names", FNames names)]
  = if length (co_varnames c) <? co_argcount c + co_kwonlyargcount c
    then Raise ValueError else Ok (with_names c names).
Proof. destruct c. reflexivity. Qed.

Lemma code_replace_names_varnames (c : code) (names varnames : list string) :
  code_replace c [("co_names", FNames names); ("co_varnames", FNames varnames)]
  = if length varnames <? co_argcount c + co_kwonlyargcount c
    then Raise ValueError else Ok (with_varnames (with_names c names) varnames).
Proof. destruct c. reflexivity. Qed.

Lemma cache_wf_init : cache_wf world_init.
Proof. intros fam n f Hin. simpl in Hin. by apply elem_of_nil in Hin. Qed.

Lemma lru_find_elem (n : nat) (f : pyfunc) (c : list (nat * pyfunc)) :
  lru_find n c = Some f -> (n, f) ∈ c.
Proof.
  induction c as [|[k g] c IH]; simpl; [done|].
  destruct (Nat.eqb_spec k n) as [->|]; [intros [= ->]; left|intros; right; auto].
Qed.

Lemma codegen_ok (fam : family) (n : nat) (w w' : world) (t : pyfunc) :
  cache_wf w ->
  codegen fam n w = (Ok t, w') ->
  exec_def (template_source fam (placeholders n)) = Ok (fn_code t) /\ cache_wf w'.
Proof.
  intros Hwf. unfold codegen.
  destruct (lru_find n (w_cache w fam)) as [g|] eqn:Hfind.
  - intros [= -> <-]. apply lru_find_elem in Hfind.
    split; [by apply (Hwf fam)|].
    intros fam' k f. simpl.
    destruct (family_eqb_spec fam' fam) as [->|]; [|apply Hwf].
    unfold lru_touch. intros [[= -> ->]|Hin]%elem_of_cons; [by apply (Hwf fam)|].
    apply (Hwf fam). eapply elem_of_sublist; [exact Hin|apply lru_remove_sublist].
  - unfold make_func_code_uncached, bind, log_exec, lift, new_function. simpl.
    destruct (exec_def _) as [c| | |] eqn:Hc; try discriminate.
    intros [= <- <-]. simpl. split; [done|].
    intros fam' k f. simpl.
    destruct (family_eqb_spec fam' fam) as [->|]; [|apply Hwf].
    unfold lru_add. intros Hin.
    eapply elem_of_sublist in Hin; [|apply sublist_take].
    apply elem_of_cons in Hin as [[= -> ->]|Hin]; [done|by apply (Hwf fam)].
Qed.

Lemma new_function_ok (c : code) (g : string) (w w' : world) (f : pyfunc) :
  new_function c g w = (Ok f, w') ->
  fn_code f = c /\ w_cache w' = w_cache w.
Proof. unfold new_function. by intros [= <- <-]. Qed.

(** A template of a family, specialized. *)
Lemma synthesize_ok (fam : family) (fields : list string) (w w' : world) (f : pyfunc) :
  cache_wf w ->
  synthesize fam fields w = (Ok f, w') ->
  cache_wf w'
  /\ exists t,
       exec_def (template_source fam (placeholders (length fields))) = Ok t
       /\ fn_code f = specialized_code fam t fields.
Proof.
  intros Hwf (t & w1 & Ht & Hf)%bind_ok.
  apply codegen_ok in Ht as [Hexec Hwf1]; [|done].
  assert (Hgen : forall c, (let* c' := lift (Ok c) in new_function c' (fn_globals t)) w1 = (Ok f, w') ->
                           fn_code f = c /\ cache_wf w').
  { intros c (c' & w2 & [[= <-] ->]%lift_ok & [Hc Hcache]%new_function_ok)%bind_ok.
    split; [done|]. intros fam' k g. rewrite Hcache. apply Hwf1. }
  destruct fam; simpl in Hf; unfold patch_args_and_attributes, patch_attributes in Hf;
    rewrite ?code_replace_names, ?code_replace_names_varnames in Hf;
    match type of Hf with
    | context [if ?b then _ else _] => destruct b; [by apply bind_ok in Hf as (? & ? & [? _]%lift_ok & _)|]
    end;
    apply Hgen in Hf as [Hc Hwf']; (split; [done|]); exists (fn_code t); (split; [done|]);
    rewrite Hc; reflexivity.
Qed.

Lemma dataklass_attached_code (cls cls' : pyclass) (w w' : world) (fam : family) :
  cache_wf w ->
  dataklass cls w = (Ok cls', w') ->
  fam ∈ attached_families ->
  cls_vars cls !! family_attr fam = None ->
  cache_wf w'
  /\ exists d f t,
       all_hints cls = Ok d
       /\ cls_vars cls' !! family_attr fam = Some (AFunc f)
       /\ exec_def (template_source fam (placeholders (length d))) = Ok t
       /\ fn_code f = specialized_code fam t (PyDict.keys d).
Proof.
  intros Hwf Hd Hfam Hnone.
  pose proof Hd as (d & c1 & c2 & c3 & w1 & w2 & Hhints & H1 & H2 & H3 & ->)%dataklass_inv.
  assert (Hlen : length (PyDict.keys d) = length d) by (unfold PyDict.keys; by rewrite length_map).
  assert (Hwf1 : cache_wf w1).
  { destruct H1 as [(_ & _ & ->)|(_ & f & Hf & _)]; [done|].
    by apply synthesize_ok in Hf as [? _]. }
  assert (Hwf2 : cache_wf w2).
  { destruct H2 as [(_ & _ & ->)|(_ & f & Hf & _)]; [done|].
    by apply synthesize_ok in Hf as [? _]. }
  assert (Hwf3 : cache_wf w').
  { destruct H3 as [(_ & _ & ->)|(_ & f & Hf & _)]; [done|].
    by apply synthesize_ok in Hf as [? _]. }
  split; [done|].
  assert (E1 : forall name, name <> "__init__" -> cls_vars c1 !! name = cls_vars cls !! name).
  { intros name ?. destruct H1 as [(_ & -> & _)|(Hn & f & _ & ->)]; [done|].
    rewrite cls_vars_setattr. by apply lookup_insert_ne. }
  assert (E2 : forall name, name <> "__repr__" -> cls_vars c2 !! name = cls_vars c1 !! name).
  { intros name ?. destruct H2 as [(_ & -> & _)|(Hn & f & _ & ->)]; [done|].
    rewrite cls_vars_setattr. by apply lookup_insert_ne. }
  assert (E3 : forall name, name <> "__eq__" -> cls_vars c3 !! name = cls_vars c2 !! name).
  { intros name ?. destruct H3 as [(_ & -> & _)|(Hn & f & _ & ->)]; [done|].
    rewrite cls_vars_setattr. by apply lookup_insert_ne. }
  exists d. rewrite cls_vars_setattr.
  unfold attached_families in Hfam.
  apply elem_of_cons in Hfam as [->|Hfam]; [|apply elem_of_cons in Hfam as [->|Hfam];
    [|apply list_elem_of_singleton in Hfam as ->]]; simpl in *.
  - destruct H1 as [([? ?] & _)|(_ & f & Hf & ->)]; [congruence|].
    apply synthesize_ok in Hf as (_ & t & Ht & Hc); [|done]. rewrite Hlen in Ht.
    exists f, t. split; [done|]. split; [|done].
    rewrite lookup_insert_ne, E3, E2 by done.
    rewrite cls_vars_setattr. apply lookup_insert_eq.
  - destruct H2 as [([? Hs] & _)|(_ & f & Hf & ->)].
    { rewrite E1 in Hs by done. congruence. }
    apply synthesize_ok in Hf as (_ & t & Ht & Hc); [|done]. rewrite Hlen in Ht.
    exists f, t. split; [done|]. split; [|done].
    rewrite lookup_insert_ne, E3 by done.
    rewrite cls_vars_setattr. apply lookup_insert_eq.
  - destruct H3 as [([? Hs] & _)|(_ & f & Hf & ->)].
    { rewrite E2, E1 in Hs by done. congruence. }
    apply synthesize_ok in Hf as (_ & t & Ht & Hc); [|done]. rewrite Hlen in Ht.
    exists f, t. split; [done|]. split; [|done].
    rewrite lookup_insert_ne by done.
    rewrite cls_vars_setattr. apply lookup_insert_eq.
Qed.

(** The constructor the decorator attaches. *)
Lemma dataklass_init_code (cls cls' : pyclass) (w w' : world) :
  cache_wf w ->
  dataklass cls w = (Ok cls', w') ->
  cls_vars cls !! "__init__" = None ->
  exists d f,
    all_hints cls = Ok d
    /\ d <> []
    /\ cls_vars cls' !! "__init__" = Some (AFunc f)
    /\ co_code (fn_code f) = init_code (length d)
    /\ co_names (fn_code f) = PyDict.keys d
    /\ co_varnames (fn_code f) = "self" :: PyDict.keys d
    /\ co_consts (fn_code f) = [KNone]
    /\ co_argcount (fn_code f) = S (length d)
    /\ co_kwonlyargcount (fn_code f) = 0
    /\ co_nlocals (fn_code f) = S (length d).
Proof.
  intros Hwf Hd Hnone.
  destruct (dataklass_attached_code cls cls' w w' F_init Hwf Hd) as (_ & d & f & t & Hh & Hf & Ht & Hc);
    [left|done|].
  exists d, f. split; [done|].
  destruct d as [|kv d].
  { exfalso. simpl in Ht. vm_compute in Ht. discriminate. }
  split; [done|]. split; [done|].
  destruct (exec_def_make__init__ (length (kv :: d))) as (c & Hc' & Hcode & Hn & Hv & Hk & Ha & Hkw & Hnl);
    [simpl; lia|].
  rewrite Hc' in Ht. injection Ht as <-. rewrite Hc. simpl.
  by rewrite Hcode, Hk, Ha, Hkw, Hnl.
Qed.

(** ** Running the constructor *)

Lemma run_next (c : code) (i : instr) (rest : list instr) (pc : nat)
    (fr fr' : frame) (h h' : heap) :
  step c i fr h = Next fr' h' ->
  run c (i :: rest) pc 0 fr h = run c rest (S pc) 0 fr' h'.
Proof. intros H. simpl. by rewrite H. Qed.

Lemma step_load_fast (c : code) (n : nat) (locals : list (option value))
    (st : list value) (h : heap) (v : value) :
  locals !! n = Some (Some v) ->
  step c (LOAD_FAST n) {| f_locals := locals; f_stack := st |} h
  = Next {| f_locals := locals; f_stack := v :: st |} h.
Proof. intros H. unfold step. simpl. by rewrite H. Qed.

Lemma step_store_attr (c : code) (n : nat) (locals : list (option value))
    (st : list value) (h : heap) (a : nat) (o : object) (name : string) (v : value) :
  co_names c !! n = Some name -> can_store (obj_class o) name = true -> h !! a = Some o ->
  step c (STORE_ATTR n) {| f_locals := locals; f_stack := VRef a :: v :: st |} h
  = Next {| f_locals := locals; f_stack := st |}
      (<[a := {| obj_class := obj_class o; obj_dict := <[name := v]> (obj_dict o) |}]> h).
Proof.
  intros Hn Hs Ha. unfold step. simpl. rewrite Hn. unfold store_attr. rewrite Ha.
  unfold can_store in Hs.
  destruct (type_getattr (obj_class o) "__setattr__"); [done|].
  destruct (type_getattr (obj_class o) "__slots__"); [done|].
  apply andb_prop in Hs as [Hs Hdesc]. apply negb_true_iff in Hs, Hdesc.
  unfold is_special_attr in Hs.
  apply orb_false_elim in Hs as [Hs Hweak]. apply orb_false_elim in Hs as [Hclass Hdict].
  by rewrite Hweak, Hclass, Hdict, Hdesc.
Qed.

Lemma set_attrs_nil (o : object) : set_attrs o [] = o.
Proof. by destruct o. Qed.

Lemma run_init_instrs (c : code) (names : list string) (vals : list value)
    (k : nat) (rest : list instr) (pc : nat) (locals : list (option value))
    (h : heap) (a : nat) (o : object) :
  h !! a = Some o ->
  locals !! 0 = Some (Some (VRef a)) ->
  (forall i name, names !! i = Some name ->
     co_names c !! (k + i) = Some name /\ can_store (obj_class o) name = true) ->
  (forall i v, vals !! i = Some v -> locals !! S (k + i) = Some (Some v)) ->
  length names = length vals ->
  run c (init_instrs k (length names) ++ rest) pc 0
    {| f_locals := locals; f_stack := [] |} h
  = run c rest (pc + 3 * length names) 0
      {| f_locals := locals; f_stack := [] |}
      (<[a := set_attrs o (zip names vals)]> h).
Proof.
  intros Ha Hself. revert vals k pc h o Ha.
  induction names as [|n names IH]; intros vals k pc h o Ha Hnames Hvals Hlen.
  - destruct vals; [|done].
    change (init_instrs k (length []) ++ rest) with rest.
    change (zip [] []) with (@nil (string * value)).
    rewrite set_attrs_nil, insert_id by done.
    by rewrite Nat.mul_0_r, Nat.add_0_r.
  - destruct vals as [|v vals]; [done|]. injection Hlen as Hlen.
    destruct (Hnames 0 n eq_refl) as [Hn Hspecial]. rewrite Nat.add_0_r in Hn.
    pose proof (Hvals 0 v eq_refl) as Hv. rewrite Nat.add_0_r in Hv.
    change (init_instrs k (length (n :: names)))
      with ([LOAD_FAST (S k); LOAD_FAST 0; STORE_ATTR k] ++ init_instrs (S k) (length names)).
    rewrite <- app_assoc. cbn [app].
    erewrite run_next by (by apply step_load_fast).
    erewrite run_next by (by apply step_load_fast).
    erewrite run_next by (by eapply step_store_attr).
    rewrite (IH vals (S k) (S (S (S pc))) _
               {| obj_class := obj_class o; obj_dict := <[n := v]> (obj_dict o) |}).
    + rewrite insert_insert_eq. f_equal. simpl. lia.
    + apply lookup_insert_eq.
    + intros i name Hi. replace (S k + i) with (k + S i) by lia. by apply Hnames.
    + intros i x Hi. replace (S k + i) with (k + S i) by lia. by apply Hvals.
    + done.
Qed.

Lemma fold_insert_notin (items : list (string * value)) (d0 : gmap string value) (name : string) :
  name ∉ map fst items ->
  fold_left (fun d kv => <[fst kv := snd kv]> d) items d0 !! name = d0 !! name.
Proof.
  revert d0. induction items as [|[n0 v0] items IH]; intros d0 Hn; simpl; [done|].
  simpl in Hn. apply not_elem_of_cons in Hn as [Hne Hn].
  rewrite IH by done. by apply lookup_insert_ne.
Qed.

Lemma fold_insert_lookup (items : list (string * value)) (d0 : gmap string value)
    (i : nat) (name : string) (v : value) :
  NoDup (map fst items) -> items !! i = Some (name, v) ->
  fold_left (fun d kv => <[fst kv := snd kv]> d) items d0 !! name = Some v.
Proof.
  revert d0 i. induction items as [|[n0 v0] items IH]; intros d0 i Hnd Hi; [done|].
  simpl in Hnd. apply NoDup_cons in Hnd as [Hn0 Hnd].
  destruct i as [|i]; simpl in *.
  - injection Hi as -> ->. rewrite fold_insert_notin by done. apply lookup_insert_eq.
  - by eapply IH.
Qed.

Lemma lookup_zip (names : list string) (vals : list value) (i : nat) (name : string) (v : value) :
  names !! i = Some name -> vals !! i = Some v -> zip names vals !! i = Some (name, v).
Proof.
  revert vals i. induction names as [|n names IH]; intros [|x vals] [|i]; simpl; try done.
  - by intros [= ->] [= ->].
  - apply IH.
Qed.

Lemma keys_zip (names : list string) (vals : list value) :
  length names = length vals -> map fst (zip names vals) = names.
Proof.
  revert vals. induction names as [|n names IH]; intros [|x vals]; simpl; try done.
  intros [= H]. by rewrite IH.
Qed.

Lemma forallb_map_Some (vals : list value) :
  forallb (fun o : option value => bool_decide (is_Some o)) (map Some vals) = true.
Proof. induction vals as [|v vals IH]; [done|]. simpl. by rewrite IH. Qed.

(** Positional arguments, one per parameter. *)
Lemma bind_args_positional (c : code) (args : list value) :
  co_argcount c = length args -> co_nlocals c = length args ->
  bind_args c args [] = Ok (map Some args).
Proof.
  intros Ha Hn. unfold bind_args. rewrite Ha, Hn, Nat.ltb_irrefl, Nat.sub_diag.
  simpl. rewrite app_nil_r, <- (length_map Some), firstn_all.
  by rewrite forallb_map_Some.
Qed.

(** The call of a specialized constructor on an instance. *)
Lemma call_init (f : pyfunc) (fields : list string) (vals : list value)
    (h : heap) (a : nat) (o : object) :
  co_code (fn_code f) = init_code (length fields) ->
  co_names (fn_code f) = fields ->
  co_consts (fn_code f) = [KNone] ->
  co_argcount (fn_code f) = S (length fields) ->
  co_nlocals (fn_code f) = S (length fields) ->
  Forall (fun name => can_store (obj_class o) name = true) fields ->
  length vals = length fields ->
  h !! a = Some o ->
  call_function f (VRef a :: vals) [] h
  = Ok (VNone, <[a := set_attrs o (zip fields vals)]> h).
Proof.
  intros Hcode Hnames Hconsts Hargs Hnl Hspecial Hlen Ha.
  unfold call_function.
  rewrite bind_args_positional by (simpl; congruence). cbn [rbind].
  rewrite Hcode. unfold init_code.
  rewrite (run_init_instrs (fn_code f) fields vals 0 _ 0 _ h a o); try done.
  - simpl. unfold step. rewrite Hconsts. simpl. done.
  - intros i name Hi. simpl. rewrite Hnames. split; [done|].
    rewrite Forall_forall in Hspecial. apply Hspecial. by eapply list_elem_of_lookup_2.
  - intros i v Hi. simpl. rewrite list_lookup_fmap, Hi. done.
Qed.

Lemma dataklass_type_getattr (cls cls' : pyclass) (w w' : world) (name : string) :
  dataklass cls w = (Ok cls', w') ->
  name <> "__match_args__" -> name <> "__init__" -> name <> "__repr__" -> name <> "__eq__" ->
  type_getattr cls' name = type_getattr cls name.
Proof.
  intros Hd ? ? ? ?.
  destruct (dataklass_frame _ _ _ _ Hd) as (_ & _ & Htail).
  rewrite !type_getattr_unfold, Htail.
  by rewrite (dataklass_lookup cls cls' w w' name Hd) by (done || by left).
Qed.

(** Decoration puts no data descriptor in front of a name: what it
    attaches are functions and the tuple of [__match_args__]. *)
Lemma dataklass_no_new_descriptor (cls cls' : pyclass) (w w' : world) (name : string) :
  dataklass cls w = (Ok cls', w') ->
  may_be_data_descriptor (type_getattr cls name) = false ->
  may_be_data_descriptor (type_getattr cls' name) = false.
Proof.
  intros Hd Hnot.
  destruct (dataklass_frame _ _ _ _ Hd) as (_ & _ & Htail).
  destruct (decide (name = "__match_args__")) as [->|Hm].
  { destruct (dataklass_inv _ _ _ _ Hd)
      as (d & c1 & c2 & c3 & w1 & w2 & _ & _ & _ & _ & ->).
    by rewrite type_getattr_unfold, cls_vars_setattr, lookup_insert_eq. }
  destruct (cls_vars cls !! name) as [x|] eqn:Hx.
  { rewrite type_getattr_unfold, (dataklass_lookup cls cls' w w' name Hd), Htail;
      [by rewrite <- type_getattr_unfold|done|right; by rewrite Hx]. }
  assert (Hfam : forall fam, fam ∈ attached_families -> name = family_attr fam ->
            may_be_data_descriptor (type_getattr cls' name) = false).
  { intros fam Hfam ->.
    destruct (dataklass_attached cls cls' w w' fam Hd Hfam Hx)
      as (d & f & wa & wb & _ & _ & Hf).
    by rewrite type_getattr_unfold, Hf. }
  destruct (decide (name = "__init__")) as [Hi|Hi].
  { apply (Hfam F_init); [set_solver|done]. }
  destruct (decide (name = "__repr__")) as [Hr|Hr].
  { apply (Hfam F_repr); [set_solver|done]. }
  destruct (decide (name = "__eq__")) as [He|He].
  { apply (Hfam F_eq); [set_solver|done]. }
  by rewrite (dataklass_type_getattr cls cls' w w' name Hd).
Qed.

(** The decorated class takes a store to a field as the class did. *)
Lemma dataklass_can_store (cls cls' : pyclass) (w w' : world) (name : string) :
  dataklass cls w = (Ok cls', w') ->
  plain_class cls -> plain_field cls name ->
  can_store cls' name = true.
Proof.
  intros Hd (_ & Hset & _ & Hslots) [Hs Hdesc]. unfold can_store.
  rewrite (dataklass_type_getattr cls cls' w w' "__setattr__" Hd) by done.
  rewrite (dataklass_type_getattr cls cls' w w' "__slots__" Hd) by done.
  rewrite Hset, Hslots, Hs.
  by rewrite (dataklass_no_new_descriptor cls cls' w w' name Hd Hdesc).
Qed.

(** Reading back an attribute that is in the instance's own
    dictionary, for a class that leaves attribute access alone. *)
Lemma load_attr_stored (h : heap) (a : nat) (o : object) (name : string) (v : value) :
  h !! a = Some o ->
  type_getattr (obj_class o) "__getattribute__" = None ->
  is_special_attr name = false ->
  may_be_data_descriptor (type_getattr (obj_class o) name) = false ->
  obj_dict o !! name = Some v ->
  load_attr h (VRef a) name = Ok v.
Proof.
  intros Ha Hget Hs Hdesc Hv. unfold load_attr. rewrite Ha, Hget, Hs, Hdesc, Hv.
  unfold is_special_attr in Hs.
  apply orb_false_elim in Hs as [Hs _]. apply orb_false_elim in Hs as [-> _]. done.
Qed.

(** The same for an instance of a decorated class or of a subclass
    that adds nothing, from what the class was before decoration. *)
Lemma dataklass_load_stored (cls cls' : pyclass) (w w' : world) (h : heap) (a : nat)
    (o : object) (name : string) (v : value) :
  dataklass cls w = (Ok cls', w') ->
  h !! a = Some o ->
  (forall n, type_getattr (obj_class o) n = type_getattr cls' n) ->
  type_getattr cls "__getattribute__" = None ->
  plain_field cls name ->
  obj_dict o !! name = Some v ->
  load_attr h (VRef a) name = Ok v.
Proof.
  intros Hd Ha Hcls Hget [Hs Hdesc] Hv.
  apply (load_attr_stored h a o name v Ha); rewrite ?Hcls; try done.
  - by rewrite (dataklass_type_getattr cls cls' w w' "__getattribute__" Hd).
  - by apply (dataklass_no_new_descriptor cls cls' w w').
Qed.

(** C3, as the code has it.  A class the decorator returned, with no
    [__init__] of its own, whose instances are made and written to in
    the default way (no [__new__], [__setattr__], [__getattribute__]
    or [__slots__] along the [__mro__]), and whose fields are not
    [__class__], [__dict__] or [__weakref__] nor names of class
    attributes that may be data descriptors: constructing it with one
    positional value per field gives a new instance of the class whose
    attribute [fi] is [vi], for every field. *)
Theorem constructor_sets_fields (cls cls' : pyclass) (w w' : world)
    (d : list (string * string)) (vals : list value) (h : heap) :
  cache_wf w ->
  dataklass cls w = (Ok cls', w') ->
  cls_vars cls !! "__init__" = None ->
  plain_class cls ->
  all_hints cls = Ok d ->
  Forall (plain_field cls) (PyDict.keys d) ->
  length vals = length d ->
  exists a h' o,
    instantiate cls' vals [] h = Ok (VRef a, h')
    /\ h !! a = None
    /\ h' !! a = Some o /\ obj_class o = cls'
    /\ forall i name v,
         PyDict.keys d !! i = Some name -> vals !! i = Some v ->
         obj_dict o !! name = Some v /\ load_attr h' (VRef a) name = Ok v.
Proof.
  intros Hwf Hd Hnone Hplain Hhints Hfields Hlen.
  destruct (dataklass_init_code cls cls' w w' Hwf Hd Hnone)
    as (d' & f & Hh' & _ & Hf & Hcode & Hnames & Hvars & Hconsts & Hargs & _ & Hnl).
  rewrite Hhints in Hh'. injection Hh' as <-.
  assert (Hklen : length (PyDict.keys d) = length d) by (unfold PyDict.keys; by rewrite length_map).
  destruct (all_hints_field_order cls d Hhints) as (Hnd & _).
  set (a := fresh_addr h).
  set (o0 := {| obj_class := cls'; obj_dict := ∅ |}).
  assert (Hfresh : h !! a = None).
  { apply (not_elem_of_dom (D := gset nat)). unfold a, fresh_addr. apply is_fresh. }
  exists a, (<[a := set_attrs o0 (zip (PyDict.keys d) vals)]> (<[a := o0]> h)),
    (set_attrs o0 (zip (PyDict.keys d) vals)).
  split.
  { unfold instantiate.
    rewrite (dataklass_type_getattr cls cls' w w' "__new__" Hd) by done.
    pose proof Hplain as (Hnew & _).
    rewrite Hnew, type_getattr_unfold, Hf.
    fold a. fold o0.
    rewrite (call_init f (PyDict.keys d) vals (<[a := o0]> h) a o0);
      rewrite ?Hklen; try done; [|apply lookup_insert_eq].
    eapply Forall_impl; [exact Hfields|].
    intros name Hname. simpl. by apply (dataklass_can_store cls cls' w w'). }
  split; [done|]. split; [apply lookup_insert_eq|]. split; [done|].
  intros i name v Hi Hv.
  assert (Hstored : obj_dict (set_attrs o0 (zip (PyDict.keys d) vals)) !! name = Some v).
  { simpl. erewrite fold_insert_lookup; [done| |by apply lookup_zip].
    rewrite keys_zip by lia. done. }
  split; [exact Hstored|].
  assert (Hfield : plain_field cls name).
  { rewrite Forall_forall in Hfields. apply Hfields. by eapply list_elem_of_lookup_2. }
  destruct Hfield as [Hs Hdesc]. destruct Hplain as (_ & _ & Hget & _).
  eapply load_attr_stored; [apply lookup_insert_eq| | | |exact Hstored]; simpl.
  - by rewrite (dataklass_type_getattr cls cls' w w' "__getattribute__" Hd).
  - exact Hs.
  - by apply (dataklass_no_new_descriptor cls cls' w w').
Qed.

(** C3, as stated, fails for a field named [__class__]: the attached
    constructor runs [self.__class__ = __class__], and the value
    passed for the field is no class, so the call is a [TypeError] and
    there is no instance. *)
Lemma constructor_class_field_raises :
  exists cls' w',
    dataklass ClassField world_init = (Ok cls', w')
    /\ cls_vars ClassField !! "__init__" = None
    /\ all_hints ClassField = Ok [("__class__", "int")]
    /\ instantiate cls' [VInt 1] [] ∅ = Raise TypeError.
Proof.
  eexists _, _.
  split; [vm_compute; reflexivity|].
  split; [reflexivity|].
  split; vm_compute; reflexivity.
Qed.

(** ** Keyword arguments *)





Lemma constructor_sets_fields_witness :
  exists cls' a h',
    fst (dataklass Coordinates world_init) = Ok cls'
    /\ instantiate cls' [VInt 2; VInt 3] [] ∅ = Ok (VRef a, h')
    /\ load_attr h' (VRef a) "y" = Ok (VInt 3).
Proof.
  destruct (dataklass Coordinates world_init) as [r w'] eqn:E.
  assert (Hr : exists cls', r = Ok cls').
  { replace r with (fst (dataklass Coordinates world_init)) by (by rewrite E).
    vm_compute. eauto. }
  destruct Hr as [cls' ->].
  destruct (constructor_sets_fields Coordinates cls' world_init w'
              [("x", "int"); ("y", "int")] [VInt 2; VInt 3] ∅)
    as (a & h' & o & Hinst & _ & _ & _ & Hattr).
  - apply cache_wf_init.
  - exact E.
  - reflexivity.
  - repeat split; reflexivity.
  - reflexivity.
  - repeat constructor.
  - reflexivity.
  - exists cls', a, h'. split; [reflexivity|]. split; [exact Hinst|].
    apply (Hattr 1); reflexivity.
Defined.


(** ** The front end on the representation template *)

Lemma fstring_text_app (a b : string) :
  fstring_text (a +:+ b) = fstring_text a && fstring_text b.
Proof.
  induction a as [|c a IH]; [done|].
  rewrite append_cons. simpl. by rewrite IH, andb_assoc.
Qed.

Lemma name_char_fstring (c : ascii) : is_name_char c = true -> fstring_char c = true.
Proof.
  destruct c as [[] [] [] [] [] [] [] []]; vm_compute; intros; try discriminate; done.
Qed.

Lemma name_chars_fstring (s : string) : all_name_chars s = true -> fstring_text s = true.
Proof.
  induction s as [|c s IH]; [done|]. simpl.
  intros [Hc Hs]%andb_prop. by rewrite name_char_fstring, IH.
Qed.

Lemma identifier_fstring (s : string) : is_identifier s -> fstring_text s = true.
Proof.
  intros (c & rest & -> & Hc & Hrest & _). simpl.
  rewrite name_char_fstring, name_chars_fstring; [done..|].
  unfold is_name_char. by rewrite Hc.
Qed.

Lemma lex_fstring_text (T : list token) (I : list nat) (acc s : string) :
  fstring_text s = true ->
  lex_string {| lx_toks := T; lx_indents := I; lx_mode := InFString acc |} s
  = {| lx_toks := T; lx_indents := I; lx_mode := InFString (acc +:+ s) |}.
Proof.
  revert acc. induction s as [|c s IH]; intros acc Hs; simpl.
  - by rewrite append_nil_r.
  - simpl in Hs. apply andb_prop in Hs as [Hc Hs].
    unfold fstring_char in Hc. apply negb_true_iff in Hc.
    apply orb_false_elim in Hc as [Hc H92]. apply orb_false_elim in Hc as [H34 H10].
    unfold lex_char. cbn [lx_mode]. rewrite H34, H10, H92.
    unfold lx_goto. cbn [lx_toks lx_indents]. rewrite IH by done.
    by rewrite append_assoc, append_cons.
Qed.

Lemma repr_piece_fstring (name : string) :
  is_identifier name -> fstring_text (repr_piece name) = true.
Proof.
  intros Hn. unfold repr_piece. rewrite !fstring_text_app.
  rewrite (identifier_fstring name Hn). reflexivity.
Qed.

Lemma repr_raw_fstring (names : list string) :
  Forall is_identifier names -> fstring_text (repr_raw names) = true.
Proof.
  intros Hall. unfold repr_raw. rewrite !fstring_text_app.
  assert (fstring_text (join ", " (map repr_piece names)) = true) as ->; [|reflexivity].
  induction names as [|n names IH]; [done|].
  apply Forall_cons in Hall as [Hn Hall].
  destruct names as [|n' names]; [by apply repr_piece_fstring|].
  change (join ", " (map repr_piece (n :: n' :: names)))
    with (repr_piece n +:+ ", " +:+ join ", " (map repr_piece (n' :: names))).
  rewrite !fstring_text_app, (repr_piece_fstring n Hn), (IH Hall). reflexivity.
Qed.

Lemma make__repr___text (names : list string) :
  Source.make__repr__ names
  = "def __repr__(self):" +:+ nl +:+ " return f" +:+ dquote
    +:+ (repr_raw names +:+ dquote +:+ nl).
Proof.
  unfold Source.make__repr__, repr_raw. fold repr_piece.
  by rewrite !append_assoc.
Qed.

Lemma tokenize_repr (names : list string) :
  Forall is_identifier names ->
  tokenize (Source.make__repr__ names) = Ok (repr_toks names).
Proof.
  intros Hall. rewrite make__repr___text.
  unfold tokenize, lexer_init, nl, dquote.
  lex_lit. lex_lit. lex_lit. lex_lit.
  rewrite lex_string_app, lex_fstring_text by (by apply repr_raw_fstring).
  rewrite append_nil_l. lex_lit. lex_lit.
  reflexivity.
Qed.

(** ** Parsing the f-string *)

Section fstring_lemmas.
Variable pe : list token -> result (expr * list token).

Lemma fs_string_app (st : fstate) (a b : string) :
  fs_string pe st (a +:+ b) = fs_string pe (fs_string pe st a) b.
Proof.
  revert st. induction a as [|c a IH]; intros st; [done|].
  rewrite append_cons. simpl. apply IH.
Qed.

Lemma fs_name_char (text : string) (c : ascii) (st : fstate) :
  is_name_char c = true ->
  fs_expr_char pe text 0 c st = fs_goto (FsExpr (text +:+ String c "") 0) st.
Proof.
  destruct c as [[] [] [] [] [] [] [] []]; intros H; try discriminate H; reflexivity.
Qed.

Lemma fs_expr_name (P : list fpart) (L text s : string) :
  all_name_chars s = true ->
  fs_string pe {| fs_parts := P; fs_lit := L; fs_mode := FsExpr text 0 |} s
  = {| fs_parts := P; fs_lit := L; fs_mode := FsExpr (text +:+ s) 0 |}.
Proof.
  revert text. induction s as [|c s IH]; intros text Hs; simpl.
  - by rewrite append_nil_r.
  - simpl in Hs. apply andb_prop in Hs as [Hc Hs].
    unfold fs_char. cbn [fs_mode]. rewrite fs_name_char by done.
    unfold fs_goto. cbn [fs_parts fs_lit]. rewrite IH by done.
    by rewrite append_assoc, append_cons.
Qed.
End fstring_lemmas.

Lemma tokenize_expr_attr (name : string) :
  is_identifier name ->
  tokenize_expr ("self." +:+ name) = Ok [TName "self"; TDot; TName name].
Proof.
  intros Hn. unfold tokenize_expr. lex_lit.
  rewrite lex_identifier by done.
  unfold lex_flush, rbind. cbn [lx_mode lx_toks].
  by rewrite (is_identifier_classify name Hn).
Qed.

(** Run the f-string automaton over a literal piece of text, whatever
    the parts and the literal seen so far. *)
Ltac fs_lit :=
  match goal with
  | |- context [fs_string ?pe {| fs_parts := ?P; fs_lit := ?L; fs_mode := ?m |}
                  (String ?c ?l +:+ ?X)] =>
      rewrite (fs_string_app pe {| fs_parts := P; fs_lit := L; fs_mode := m |} (String c l) X);
      let p := fresh "parts" in
      let q := fresh "parser" in
      remember P as p in |- *; remember pe as q in |- *;
      let r := eval vm_compute in
        (fs_string q {| fs_parts := p; fs_lit := L; fs_mode := m |} (String c l)) in
      change (fs_string q {| fs_parts := p; fs_lit := L; fs_mode := m |} (String c l)) with r;
      subst p q
  end.

(** The same, for text with a field the parser is run on. *)
Ltac fs_lit_parsing :=
  match goal with
  | |- context [fs_string ?pe {| fs_parts := ?P; fs_lit := ?L; fs_mode := ?m |}
                  (String ?c ?l +:+ ?X)] =>
      rewrite (fs_string_app pe {| fs_parts := P; fs_lit := L; fs_mode := m |} (String c l) X);
      let p := fresh "parts" in
      remember P as p in |- *;
      let r := eval vm_compute in
        (fs_string pe {| fs_parts := p; fs_lit := L; fs_mode := m |} (String c l)) in
      change (fs_string pe {| fs_parts := p; fs_lit := L; fs_mode := m |} (String c l)) with r;
      subst p
  end.

Lemma fs_field (f : nat) (P : list fpart) (L : string) (name rest : string) :
  is_identifier name ->
  fs_string (parse_expr (12 + f)) {| fs_parts := P; fs_lit := L; fs_mode := FsLit |}
    (repr_piece name +:+ rest)
  = fs_string (parse_expr (12 + f))
      {| fs_parts := field_value name
                     :: fs_flush_lit {| fs_parts := P; fs_lit := L; fs_mode := FsLit |};
         fs_lit := ""; fs_mode := FsLit |} rest.
Proof.
  intros Hn. unfold repr_piece. rewrite !append_assoc.
  fs_lit.
  destruct Hn as (c & r & -> & Hc & Hr & Hcls).
  assert (Hid : is_identifier (String c r)) by (by exists c, r).
  rewrite fs_string_app, fs_expr_name
    by (simpl; unfold is_name_char; by rewrite Hc, Hr).
  rewrite fs_string_app. f_equal.
  change (fs_string (parse_expr (12 + f))
            {| fs_parts := P; fs_lit := L; fs_mode := FsExpr ("self." +:+ String c r) 0 |} "!r}")
    with (fs_close_field (parse_expr (12 + f)) ("self." +:+ String c r) 2
            {| fs_parts := P; fs_lit := L; fs_mode := FsConv ("self." +:+ String c r) 2 |}).
  unfold fs_close_field, fs_parse_field.
  rewrite tokenize_expr_attr by done. reflexivity.
Qed.

Lemma fs_fields (f : nat) (names : list string) (P : list fpart) (L : string) (tail : string) :
  names <> [] -> Forall is_identifier names ->
  fs_string (parse_expr (12 + f)) {| fs_parts := P; fs_lit := L; fs_mode := FsLit |}
    (join ", " (map repr_piece names) +:+ tail)
  = fs_string (parse_expr (12 + f))
      {| fs_parts := rev (fields_parts names)
                     ++ fs_flush_lit {| fs_parts := P; fs_lit := L; fs_mode := FsLit |};
         fs_lit := ""; fs_mode := FsLit |} tail.
Proof.
  intros Hne Hall. revert P L.
  induction names as [|n names IH]; intros P L; [done|].
  apply Forall_cons in Hall as [Hn Hall].
  destruct names as [|n' names].
  - simpl join. by rewrite fs_field.
  - change (join ", " (map repr_piece (n :: n' :: names)))
      with (repr_piece n +:+ ", " +:+ join ", " (map repr_piece (n' :: names))).
    rewrite !append_assoc, fs_field by done.
    fs_lit. rewrite IH by done.
    change (fields_parts (n :: n' :: names))
      with ([field_value n; FLit ", "] ++ fields_parts (n' :: names)).
    rewrite rev_app_distr, <- app_assoc. reflexivity.
Qed.

Lemma parse_fstring_repr (f : nat) (names : list string) :
  Forall is_identifier names ->
  parse_fstring (parse_expr (12 + f)) (repr_raw names) = Ok (repr_parts names).
Proof.
  intros Hall. destruct names as [|n names]; [reflexivity|].
  unfold parse_fstring, repr_raw. fs_lit_parsing.
  rewrite fs_fields by done.
  match goal with
  | |- context [fs_string ?pe {| fs_parts := ?P; fs_lit := ?L; fs_mode := ?m |} ")"] =>
      change (fs_string pe {| fs_parts := P; fs_lit := L; fs_mode := m |} ")")
        with {| fs_parts := P; fs_lit := ")"; fs_mode := FsLit |}
  end.
  unfold fs_finish, repr_parts. cbn [fs_mode]. f_equal.
  change (fs_flush_lit ?st) with (FLit ")" :: fs_parts st) at 1.
  cbn [fs_parts].
  change (fs_flush_lit _) with [FLit "("; FValue type_name_expr 0].
  cbn [rev]. rewrite rev_app_distr, rev_involutive.
  unfold fields_parts. rewrite <- app_assoc. reflexivity.
Qed.

(** ** Parsing and compiling the representation *)

Lemma parse_return_fstring (d : nat) (raw : string) (parts : list fpart) (rest : list token) :
  parse_fstring (parse_expr d) raw = Ok parts ->
  parse_stmt (S (S (S (S d)))) (TKeyword "return" :: TFString raw :: TNewline :: rest)
  = Ok (SReturn (EJoinedStr parts), rest).
Proof.
  intros H.
  change (parse_stmt (S (S (S (S d)))) (TKeyword "return" :: TFString raw :: TNewline :: rest))
    with (rbind (rbind (rbind (rbind (parse_fstring (parse_expr d) raw)
                                 (fun parts => Ok (EJoinedStr parts, TNewline :: rest)))
                          (fun '(e, rest) => parse_trailers (S d) e rest))
                   (fun '(l, rest) =>
                      match rest with
                      | TEqEq :: rest' =>
                          rbind (parse_primary (S (S d)) rest')
                            (fun '(r, rest'') => Ok (ECompare l CmpEq r, rest''))
                      | TKeyword "is" :: rest' =>
                          rbind (parse_primary (S (S d)) rest')
                            (fun '(r, rest'') => Ok (ECompare l CmpIs r, rest''))
                      | _ => Ok (l, rest)
                      end))
            (fun '(e, rest') =>
               match rest' with
               | TNewline :: rest'' => Ok (SReturn e, rest'')
               | _ => Unsupported
               end)).
  rewrite H. reflexivity.
Qed.

Lemma parse_stmts_single (fuel : nat) (ts rest : list token) (s : stmt) :
  parse_stmt fuel ts = Ok (s, TDedent :: rest) ->
  parse_stmts (S fuel) ts = Ok ([s], rest).
Proof. intros H. cbn [parse_stmts]. by rewrite H. Qed.

Lemma parse_repr_fuel (d : nat) (names : list string) :
  Forall is_identifier names ->
  parse_funcdef (S (S (S (S (S (S (12 + d))))))) (repr_toks names)
  = Ok {| fd_name := "__repr__"; fd_params := ["self"];
          fd_body := [SReturn (EJoinedStr (repr_parts names))] |}.
Proof.
  intros Hall. unfold repr_toks. rewrite parse_funcdef_unfold.
  change (parse_params (TName "self" :: TRParen :: ?r)) with (Ok (["self"], r)).
  cbn [rbind]. rewrite parse_suite_unfold.
  erewrite parse_stmts_single;
    [|apply parse_return_fstring, (parse_fstring_repr d names Hall)].
  cbn [rbind]. by rewrite has_dup_false by (apply NoDup_singleton).
Qed.

Lemma parse_repr (names : list string) :
  Forall is_identifier names ->
  parse_funcdef (8 * length (repr_toks names) + 8) (repr_toks names)
  = Ok {| fd_name := "__repr__"; fd_params := ["self"];
          fd_body := [SReturn (EJoinedStr (repr_parts names))] |}.
Proof. intros Hall. exact (parse_repr_fuel 86 names Hall). Qed.

Lemma compile_joined (vn : list string) (parts : list fpart) (cs : cstate) :
  compile_expr vn (EJoinedStr parts) cs
  = rbind (compile_parts vn parts cs) (fun cs =>
      Ok (if length parts =? 1 then cs else emit (BUILD_STRING (length parts)) cs)).
Proof. reflexivity. Qed.

Lemma compile_parts_app (vn : list string) (p1 p2 : list fpart) (cs : cstate) :
  compile_parts vn (p1 ++ p2) cs
  = rbind (compile_parts vn p1 cs) (compile_parts vn p2).
Proof.
  revert cs. induction p1 as [|[s|e conv] p1 IH]; intros cs; simpl; [done|apply IH|].
  destruct (compile_expr vn e cs); simpl; [apply IH|done..].
Qed.

Lemma compile_field_value (N : list string) (K : list const) (C : list instr) (y : string) :
  y ∉ N ->
  compile_parts ["self"] [field_value y]
    {| cs_names := N; cs_consts := K; cs_code := C |}
  = Ok {| cs_names := N ++ [y]; cs_consts := K;
          cs_code := C ++ [LOAD_FAST 0; LOAD_ATTR (length N); FORMAT_VALUE 2] |}.
Proof.
  intros Hy. unfold field_value. cbn [compile_parts compile_expr].
  change (index_of "self" ["self"]) with (Some 0). cbn [rbind].
  unfold emit_name, emit. cbn [cs_names cs_consts cs_code].
  rewrite (proj2 (index_of_None y N) Hy). cbn [rbind cs_names cs_consts cs_code].
  by rewrite <- !app_assoc.
Qed.

Lemma repr_more_S (start count : nat) :
  repr_more start (S count)
  = LOAD_CONST 2 :: repr_field start ++ repr_more (S start) count.
Proof. reflexivity. Qed.

Lemma compile_more (pre rest : list string) (K : list const) (C : list instr) :
  NoDup ("type" :: "__name__" :: pre ++ rest) ->
  K = [KNone; KStr "("] \/ K = [KNone; KStr "("; KStr ", "] ->
  compile_parts ["self"] (concat (map (fun y => [FLit ", "; field_value y]) rest))
    {| cs_names := "type" :: "__name__" :: pre; cs_consts := K; cs_code := C |}
  = Ok {| cs_names := "type" :: "__name__" :: pre ++ rest;
          cs_consts := match rest with [] => K | _ => [KNone; KStr "("; KStr ", "] end;
          cs_code := C ++ repr_more (length pre) (length rest) |}.
Proof.
  revert pre K C. induction rest as [|y rest IH]; intros pre K C Hnd HK.
  - simpl. unfold repr_more. simpl. by rewrite !app_nil_r.
  - cbn [map concat].
    change ([FLit ", "; field_value y] ++ ?r) with ([FLit ", "] ++ [field_value y] ++ r).
    rewrite compile_parts_app.
    assert (E : compile_parts ["self"] [FLit ", "]
                  {| cs_names := "type" :: "__name__" :: pre; cs_consts := K; cs_code := C |}
                = Ok {| cs_names := "type" :: "__name__" :: pre;
                        cs_consts := [KNone; KStr "("; KStr ", "];
                        cs_code := C ++ [LOAD_CONST 2] |}).
    { by destruct HK as [-> | ->]. }
    rewrite E. cbn [rbind]. rewrite compile_parts_app.
    rewrite compile_field_value.
    2:{ rewrite !app_comm_cons in Hnd. apply NoDup_app in Hnd as (_ & Hdisj & _).
        intros Hin. apply (Hdisj y Hin). left. }
    cbn [rbind].
    replace (("type" :: "__name__" :: pre) ++ [y]) with ("type" :: "__name__" :: (pre ++ [y])) by done.
    rewrite (IH (pre ++ [y])); [|by rewrite <- app_assoc|by right].
    f_equal. f_equal; [by rewrite <- app_assoc|by destruct rest|].
    rewrite length_app. cbn [length]. rewrite Nat.add_1_r, repr_more_S.
    by rewrite <- !app_assoc.
Qed.

Lemma length_repr_parts (x : string) (rest : list string) :
  length (repr_parts (x :: rest)) = 2 * length rest + 4.
Proof.
  unfold repr_parts. rewrite !length_app. cbn [length].
  assert (E : forall l : list string,
             length (concat (map (fun y => [FLit ", "; field_value y]) l)) = 2 * length l).
  { induction l as [|y l IH]; [done|]. cbn [map concat]. rewrite length_app, IH. simpl. lia. }
  rewrite E. lia.
Qed.

Lemma emit_const_close (N : list string) (C : list instr) :
  emit_const (KStr ")")
    {| cs_names := N; cs_consts := [KNone; KStr "("; KStr ", "]; cs_code := C |}
  = {| cs_names := N; cs_consts := [KNone; KStr "("; KStr ", "; KStr ")"];
       cs_code := C ++ [LOAD_CONST 3] |}.
Proof. reflexivity. Qed.

Lemma compile_repr_parts (names : list string) :
  NoDup ("type" :: "__name__" :: names) ->
  compile_body ["self"] [SReturn (EJoinedStr (repr_parts names))]
    {| cs_names := []; cs_consts := [KNone]; cs_code := [] |}
  = Ok {| cs_names := "type" :: "__name__" :: names;
          cs_consts := repr_consts (length names);
          cs_code := repr_code (length names) |}.
Proof.
  intros Hnd. destruct names as [|x rest]; [reflexivity|].
  cbn [compile_body compile_stmt]. rewrite compile_joined, length_repr_parts.
  unfold repr_parts.
  change ([FValue type_name_expr 0; FLit "("; field_value x] ++ ?r)
    with ([FValue type_name_expr 0; FLit "("] ++ [field_value x] ++ r).
  rewrite compile_parts_app.
  change (compile_parts ["self"] [FValue type_name_expr 0; FLit "("]
            {| cs_names := []; cs_consts := [KNone]; cs_code := [] |})
    with (Ok {| cs_names := ["type"; "__name__"]; cs_consts := [KNone; KStr "("];
                cs_code := repr_head ++ [LOAD_CONST 1] |}).
  cbn [rbind]. rewrite compile_parts_app, compile_field_value.
  2:{ apply NoDup_cons in Hnd as [H1 Hnd]. apply NoDup_cons in Hnd as [H2 _].
      intros [->|[->|[]%elem_of_nil]%elem_of_cons]%elem_of_cons.
      - apply H1. right. left.
      - apply H2. left. }
  cbn [rbind]. rewrite compile_parts_app.
  change (["type"; "__name__"] ++ [x]) with ("type" :: "__name__" :: [x]).
  rewrite (compile_more [x] rest) by (done || by left). cbn [rbind].
  assert (E : forall w1 w2 : cstate, w1 = w2 -> forall k : cstate -> result cstate,
                rbind (Ok w1) k = k w2) by (by intros ? ? ->).
  destruct rest as [|y rest]; [reflexivity|].
  cbn [compile_parts]. rewrite emit_const_close. cbn [rbind].
  replace (2 * length (y :: rest) + 4 =? 1) with false
    by (symmetry; apply Nat.eqb_neq; lia).
  cbn [rbind]. unfold emit. cbn [cs_consts cs_names cs_code].
  f_equal. unfold repr_code. cbn [length]. f_equal.
  rewrite <- !app_assoc. reflexivity.
Qed.

(** The representation template, for any list of distinct names that
    differ from the two names the template itself uses. *)
Lemma exec_def_repr (names : list string) :
  Forall is_identifier names -> NoDup ("type" :: "__name__" :: names) ->
  exists c,
    exec_def (Source.make__repr__ names) = Ok c
    /\ co_code c = repr_code (length names)
    /\ co_names c = "type" :: "__name__" :: names
    /\ co_varnames c = ["self"]
    /\ co_consts c = repr_consts (length names)
    /\ co_argcount c = 1
    /\ co_kwonlyargcount c = 0
    /\ co_nlocals c = 1.
Proof.
  intros Hall Hnd. unfold exec_def, parse_module.
  rewrite tokenize_repr by done. cbn [rbind].
  rewrite parse_repr by done. cbn [rbind].
  unfold compile_funcdef. cbn [fd_params fd_body fd_name].
  rewrite compile_repr_parts by done. cbn [rbind].
  eexists. split; [reflexivity|]. cbn. done.
Qed.

Lemma placeholders_not_template_names (n : nat) :
  NoDup ("type" :: "__name__" :: placeholders n).
Proof.
  pose proof (placeholders_NoDup n) as [_ Hnd]%NoDup_cons.
  apply NoDup_cons. split; [|apply NoDup_cons; split; [|done]].
  - intros [Hin|Hin]%elem_of_cons; [done|].
    unfold placeholders in Hin. apply list_elem_of_fmap in Hin as (i & Hi & _).
    discriminate Hi.
  - intros Hin. unfold placeholders in Hin.
    apply list_elem_of_fmap in Hin as (i & Hi & _).
    unfold placeholder in Hi. rewrite append_cons, append_nil_l in Hi.
    injection Hi as Hi.
    apply (f_equal NilEmpty.uint_of_string) in Hi. rewrite NilEmpty.usu in Hi.
    discriminate Hi.
Qed.

(** The representation template of every arity. *)
Lemma exec_def_make__repr__ (n : nat) :
  exists c,
    exec_def (template_source F_repr (placeholders n)) = Ok c
    /\ co_code c = repr_code n
    /\ co_names c = "type" :: "__name__" :: placeholders n
    /\ co_varnames c = ["self"]
    /\ co_consts c = repr_consts n
    /\ co_argcount c = 1
    /\ co_kwonlyargcount c = 0
    /\ co_nlocals c = 1.
Proof.
  destruct (exec_def_repr (placeholders n)) as (c & Hc);
    [apply placeholders_identifiers|apply placeholders_not_template_names|].
  rewrite length_placeholders in Hc. by exists c.
Qed.

(** The representation method the decorator attaches. *)
Lemma dataklass_repr_code (cls cls' : pyclass) (w w' : world) :
  cache_wf w ->
  dataklass cls w = (Ok cls', w') ->
  cls_vars cls !! "__repr__" = None ->
  exists d f,
    all_hints cls = Ok d
    /\ cls_vars cls' !! "__repr__" = Some (AFunc f)
    /\ co_code (fn_code f) = repr_code (length d)
    /\ co_names (fn_code f) = "type" :: "__name__" :: PyDict.keys d
    /\ co_consts (fn_code f) = repr_consts (length d)
    /\ co_argcount (fn_code f) = 1
    /\ co_nlocals (fn_code f) = 1.
Proof.
  intros Hwf Hd Hnone.
  destruct (dataklass_attached_code cls cls' w w' F_repr Hwf Hd) as (_ & d & f & t & Hh & Hf & Ht & Hc);
    [right; left|done|].
  exists d, f. split; [done|]. split; [done|].
  destruct (exec_def_make__repr__ (length d)) as (c & Hc' & Hcode & Hn & Hv & Hk & Ha & Hkw & Hnl).
  rewrite Hc' in Ht. injection Ht as <-. rewrite Hc. simpl.
  by rewrite Hcode, Hk, Ha, Hnl, Hn.
Qed.

(** ** Running the representation *)

Lemma step_load_global (c : code) (n : nat) (name : string) (v : value)
    (fr : frame) (h : heap) :
  co_names c !! n = Some name -> load_global name = Ok v ->
  step c (LOAD_GLOBAL n) fr h = Next (push v fr) h.
Proof. intros Hn Hg. unfold step. by rewrite Hn, Hg. Qed.

Lemma step_load_const (c : code) (n : nat) (k : const) (fr : frame) (h : heap) :
  co_consts c !! n = Some k ->
  step c (LOAD_CONST n) fr h = Next (push (const_value k) fr) h.
Proof. intros Hk. unfold step. by rewrite Hk. Qed.

Lemma step_load_attr (c : code) (n : nat) (name : string) (v x : value)
    (locals : list (option value)) (st : list value) (h : heap) :
  co_names c !! n = Some name -> load_attr h v name = Ok x ->
  step c (LOAD_ATTR n) {| f_locals := locals; f_stack := v :: st |} h
  = Next {| f_locals := locals; f_stack := x :: st |} h.
Proof. intros Hn Ha. unfold step. simpl. by rewrite Hn, Ha. Qed.

Lemma step_format_repr (c : code) (v : value) (s : string)
    (locals : list (option value)) (st : list value) (h : heap) :
  py_repr v = Some s ->
  step c (FORMAT_VALUE 2) {| f_locals := locals; f_stack := v :: st |} h
  = Next {| f_locals := locals; f_stack := VStr s :: st |} h.
Proof. intros Hr. unfold step. simpl. by rewrite Hr. Qed.

Lemma step_build_string_all (c : code) (n : nat) (s : string)
    (locals : list (option value)) (st : list value) (h : heap) :
  length st = n -> concat_strs st "" = Some s ->
  step c (BUILD_STRING n) {| f_locals := locals; f_stack := st |} h
  = Next {| f_locals := locals; f_stack := [VStr s] |} h.
Proof.
  intros <- Hs. unfold step. cbn [f_stack f_locals].
  by rewrite Nat.ltb_irrefl, firstn_all, Hs, drop_all.
Qed.

Lemma run_repr_more (c : code) (ss : list string) (start : nat) (rest : list instr)
    (pc : nat) (locals : list (option value)) (st : list value) (h : heap) (a : nat) :
  locals !! 0 = Some (Some (VRef a)) ->
  (ss = [] \/ co_consts c !! 2 = Some (KStr ", ")) ->
  (forall i s, ss !! i = Some s ->
     exists name v, co_names c !! (2 + (start + i)) = Some name
                    /\ load_attr h (VRef a) name = Ok v /\ py_repr v = Some s) ->
  run c (repr_more start (length ss) ++ rest) pc 0
    {| f_locals := locals; f_stack := st |} h
  = run c rest (pc + 4 * length ss) 0
      {| f_locals := locals; f_stack := push_fields st ss |} h.
Proof.
  intros Hself. revert start pc st.
  induction ss as [|s ss IH]; intros start pc st Hsep Hfields.
  - change (repr_more start (length []) ++ rest) with rest.
    by rewrite Nat.mul_0_r, Nat.add_0_r.
  - destruct Hsep as [|Hsep]; [done|].
    destruct (Hfields 0 s eq_refl) as (name & v & Hn & Hv & Hr).
    rewrite Nat.add_0_r in Hn.
    cbn [length]. rewrite repr_more_S. unfold repr_field. cbn [app].
    erewrite run_next by (by apply step_load_const).
    erewrite run_next by (by apply step_load_fast).
    erewrite run_next by (by eapply step_load_attr).
    erewrite run_next by (by eapply step_format_repr).
    rewrite (IH (S start) (S (S (S (S pc))))).
    + f_equal. lia.
    + by right.
    + intros i x Hi. replace (S start + i) with (start + S i) by lia. by apply Hfields.
Qed.

Lemma concat_strs_push_fields (ss : list string) (st : list value) (acc : string) :
  concat_strs (push_fields st ss) acc = concat_strs st (tail_str ss +:+ acc).
Proof.
  revert st. induction ss as [|s ss IH]; intros st; [by rewrite append_nil_l|].
  cbn [push_fields fold_left]. fold (push_fields (VStr s :: VStr ", " :: st) ss).
  rewrite IH. cbn [concat_strs tail_str]. by rewrite !append_assoc.
Qed.

Lemma length_push_fields (ss : list string) (st : list value) :
  length (push_fields st ss) = 2 * length ss + length st.
Proof.
  revert st. induction ss as [|s ss IH]; intros st; [done|].
  cbn [push_fields fold_left]. fold (push_fields (VStr s :: VStr ", " :: st) ss).
  rewrite IH. simpl. lia.
Qed.

Lemma join_tail_str (s : string) (ss : list string) :
  join ", " (s :: ss) = s +:+ tail_str ss.
Proof.
  revert s. induction ss as [|s' ss IH]; intros s; [by rewrite append_nil_r|].
  change (join ", " (s :: s' :: ss)) with (s +:+ ", " +:+ join ", " (s' :: ss)).
  by rewrite IH.
Qed.

(** The call of a specialized representation method on an instance. *)
Lemma call_repr (f : pyfunc) (fields reprs : list string) (h : heap) (a : nat) (o : object) :
  co_code (fn_code f) = repr_code (length fields) ->
  co_names (fn_code f) = "type" :: "__name__" :: fields ->
  co_consts (fn_code f) = repr_consts (length fields) ->
  co_argcount (fn_code f) = 1 ->
  co_nlocals (fn_code f) = 1 ->
  h !! a = Some o ->
  Forall2 (fun name s => exists v, load_attr h (VRef a) name = Ok v /\ py_repr v = Some s)
    fields reprs ->
  call_function f [VRef a] [] h
  = Ok (VStr (cls_name (obj_class o) +:+ "(" +:+ join ", " reprs +:+ ")"), h).
Proof.
  intros Hcode Hnames Hconsts Hargs Hnl Ha Hfields.
  unfold call_function.
  rewrite bind_args_positional by done. cbn [rbind map].
  pose proof (Forall2_length _ _ _ Hfields) as Hlen.
  rewrite Hcode.
  assert (Hhead : forall rest,
             run (fn_code f) (repr_head ++ LOAD_CONST 1 :: rest) 0 0
               {| f_locals := [Some (VRef a)]; f_stack := [] |} h
             = run (fn_code f) rest 6 0
                 {| f_locals := [Some (VRef a)];
                    f_stack := [VStr (match length fields with 0 => "()" | _ => "(" end);
                                VStr (cls_name (obj_class o))] |} h).
  { intros rest. unfold repr_head. cbn [app].
    erewrite run_next by (eapply step_load_global; [by rewrite Hnames|done]).
    erewrite run_next by (by apply step_load_fast).
    erewrite run_next by (unfold step; simpl; by rewrite Ha).
    erewrite run_next by (eapply step_load_attr; [by rewrite Hnames|done]).
    erewrite run_next by done.
    erewrite run_next
      by (apply (step_load_const _ _ (KStr (match length fields with 0 => "()" | _ => "(" end)));
          rewrite Hconsts; by destruct fields as [|? [|? ?]]).
    done. }
  destruct Hfields as [|name r fields reprs (v & Hv & Hr) Hfields].
  - unfold repr_code. cbn [length].
    rewrite Hhead. simpl.
    by rewrite !append_nil_l, !append_nil_r.
  - injection Hlen as Hlen. unfold repr_code. cbn [length] in *. rewrite Hlen in *.
    cbn [app]. rewrite Hhead. unfold repr_field. cbn [app].
    erewrite run_next by (by apply step_load_fast).
    erewrite run_next by (eapply step_load_attr; [by rewrite Hnames|done]).
    erewrite run_next by (by eapply step_format_repr).
    rewrite (run_repr_more _ reprs 1 _ _ _ _ _ a); [|done| |].
    2:{ destruct reprs; [by left|right]. by rewrite Hconsts. }
    2:{ intros i s Hi. rewrite Hnames. simpl.
        destruct (Forall2_lookup_r _ _ _ _ _ Hfields Hi) as (n & Hn & x & Hx & Hs).
        by exists n, x. }
    erewrite run_next
      by (apply (step_load_const _ _ (KStr ")")); rewrite Hconsts; by destruct reprs).
    cbn [push const_value f_stack f_locals].
    erewrite run_next.
    2:{ apply step_build_string_all.
        - cbn [length f_stack]. rewrite length_push_fields. simpl. lia.
        - cbn [const_value concat_strs f_stack]. rewrite concat_strs_push_fields.
          cbn [concat_strs]. reflexivity. }
    cbn [run step f_stack]. rewrite join_tail_str.
    by rewrite !append_nil_r, !append_assoc.
Qed.

(** X1. A class the decorator returned, with no [__repr__] of its
    own: the representation of an instance is the name of the class,
    then, in parentheses and separated by a comma and a space, the
    representations of the values of the fields in field order, with
    no field names. *)
Theorem repr_of_instance (cls cls' : pyclass) (w w' : world)
    (d : list (string * string)) (h : heap) (a : nat) (o : object) (reprs : list string) :
  cache_wf w ->
  dataklass cls w = (Ok cls', w') ->
  cls_vars cls !! "__repr__" = None ->
  all_hints cls = Ok d ->
  h !! a = Some o ->
  obj_class o = cls' ->
  Forall2 (fun name s => exists v, load_attr h (VRef a) name = Ok v /\ py_repr v = Some s)
    (PyDict.keys d) reprs ->
  repr_of h (VRef a) = Ok (cls_name cls +:+ "(" +:+ join ", " reprs +:+ ")").
Proof.
  intros Hwf Hd Hnone Hhints Ha Hcls Hfields.
  destruct (dataklass_repr_code cls cls' w w' Hwf Hd Hnone)
    as (d' & f & Hh' & Hf & Hcode & Hnames & Hconsts & Hargs & Hnl).
  rewrite Hhints in Hh'. injection Hh' as <-.
  assert (Hklen : length (PyDict.keys d) = length d) by (unfold PyDict.keys; by rewrite length_map).
  destruct (dataklass_frame _ _ _ _ Hd) as (_ & Hname & _).
  unfold repr_of. rewrite Ha, Hcls, type_getattr_unfold, Hf.
  rewrite (call_repr f (PyDict.keys d) reprs h a o); rewrite ?Hklen; try done.
  cbn [rbind]. by rewrite Hcls, Hname.
Qed.

Lemma repr_of_instance_witness :
  exists cls',
    fst (dataklass Coordinates world_init) = Ok cls'
    /\ repr_of {[ 0 := {| obj_class := cls';
                          obj_dict := {[ "x" := VInt 2; "y" := VInt 3 ]} |} ]} (VRef 0)
       = Ok "Coordinates(2, 3)".
Proof.
  destruct (dataklass Coordinates world_init) as [r w'] eqn:E.
  assert (Hr : exists cls', r = Ok cls').
  { replace r with (fst (dataklass Coordinates world_init)) by (by rewrite E).
    vm_compute. eauto. }
  destruct Hr as [cls' ->]. exists cls'. split; [reflexivity|].
  apply (repr_of_instance Coordinates cls' world_init w'
           [("x", "int"); ("y", "int")] _ 0
           {| obj_class := cls'; obj_dict := {[ "x" := VInt 2; "y" := VInt 3 ]} |}
           ["2"; "3"]).
  - apply cache_wf_init.
  - exact E.
  - reflexivity.
  - reflexivity.
  - reflexivity.
  - reflexivity.
  - repeat constructor.
    + exists (VInt 2). split; [|reflexivity].
      eapply (dataklass_load_stored Coordinates cls' world_init w' _ 0 _ "x" (VInt 2) E);
        first [reflexivity | split; reflexivity | intros n; reflexivity].
    + exists (VInt 3). split; [|reflexivity].
      eapply (dataklass_load_stored Coordinates cls' world_init w' _ 0 _ "y" (VInt 3) E);
        first [reflexivity | split; reflexivity | intros n; reflexivity].
Defined.

(** ** [code_replace] and the specializer, in general *)

Lemma getattrs_field_order (c : code) :
  getattrs c _CODE_FIELD_ORDER
  = Ok [FNat (co_argcount c); FNat (co_posonlyargcount c); FNat (co_kwonlyargcount c);
        FNat (co_nlocals c); FNat (co_stacksize c); FNat (co_flags c);
        FInstrs (co_code c); FConsts (co_consts c); FNames (co_names c);
        FNames (co_varnames c); FText (co_filename c); FText (co_name c);
        FNat (co_firstlineno c); FLnotab (co_lnotab c);
        FNames (co_freevars c); FNames (co_cellvars c)].
Proof. reflexivity. Qed.

(** X2. [code_replace] with no keyword gives back a code object with
    the same sixteen attributes, provided [co_varnames] has a name for
    every argument. *)
Theorem code_replace_nothing (c : code) :
  co_argcount c + co_kwonlyargcount c <= length (co_varnames c) ->
  code_replace c [] = Ok c.
Proof.
  intros Hlen. unfold code_replace. rewrite getattrs_field_order.
  cbn [rbind apply_kwargs code_new].
  destruct (Nat.ltb_spec (length (co_varnames c)) (co_argcount c + co_kwonlyargcount c)); [lia|].
  by destruct c.
Qed.

Lemma code_replace_nothing_witness :
  exists c, exec_def (Source.make__repr__ ["_0"]) = Ok c /\ code_replace c [] = Ok c.
Proof.
  eexists. split; [vm_compute; reflexivity|].
  apply code_replace_nothing. vm_compute. lia.
Defined.

Lemma apply_kwargs_unknown (kwargs : list (string * cofield)) (unpacked : list cofield) :
  (exists k v, (k, v) ∈ kwargs /\ k ∉ _CODE_FIELD_ORDER) ->
  apply_kwargs kwargs unpacked = Raise ValueError.
Proof.
  revert unpacked. induction kwargs as [|[k0 v0] kwargs IH]; intros unpacked (k & v & Hin & Hk).
  - by apply elem_of_nil in Hin.
  - cbn [apply_kwargs].
    destruct (index_of k0 _CODE_FIELD_ORDER) as [i|] eqn:Hi; [|done].
    apply IH. exists k, v. split; [|done].
    apply elem_of_cons in Hin as [[= -> ->]|Hin]; [|done].
    exfalso. apply index_of_None in Hk. congruence.
Qed.

(** X3. A keyword that is not one of the sixteen names of
    [_CODE_FIELD_ORDER] makes [code_replace] raise [ValueError],
    whatever the other keywords are. *)
Theorem code_replace_unknown_key (c : code) (kwargs : list (string * cofield))
    (k : string) (v : cofield) :
  (k, v) ∈ kwargs -> k ∉ _CODE_FIELD_ORDER ->
  code_replace c kwargs = Raise ValueError.
Proof.
  intros Hin Hk. unfold code_replace. rewrite getattrs_field_order. cbn [rbind].
  rewrite apply_kwargs_unknown; [done|]. by exists k, v.
Qed.

Lemma code_replace_unknown_key_witness :
  exists c,
    exec_def (Source.make__repr__ ["_0"]) = Ok c
    /\ code_replace c [("co_names", FNames []); ("co_linetable", FLnotab [])]
       = Raise ValueError.
Proof.
  eexists. split; [vm_compute; reflexivity|].
  apply (code_replace_unknown_key _ _ "co_linetable" (FLnotab [])).
  - right. left.
  - vm_compute. intros H.
    repeat (apply elem_of_cons in H as [H|H]; [discriminate H|]).
    by apply elem_of_nil in H.
Defined.

(** X4. [patch_attributes] returns a new function object: its
    identity is fresh, its globals are those of the template, and its
    code is the code of the template with [co_names] replaced by the
    first [start] names of the template followed by the fields; the
    caches and the log of [exec] are as before.  It raises only when
    the template has fewer variable names than arguments. *)
Theorem patch_attributes_frame (t : pyfunc) (fields : list string) (start : nat) (w : world) :
  co_argcount (fn_code t) + co_kwonlyargcount (fn_code t) <= length (co_varnames (fn_code t)) ->
  exists f w',
    patch_attributes t fields start w = (Ok f, w')
    /\ fn_id f = w_next_id w
    /\ w_next_id w' = S (w_next_id w)
    /\ fn_globals f = fn_globals t
    /\ fn_code f = with_names (fn_code t) (take start (co_names (fn_code t)) ++ fields)
    /\ w_cache w' = w_cache w
    /\ w_exec_log w' = w_exec_log w.
Proof.
  intros Hlen. unfold patch_attributes. rewrite code_replace_names.
  destruct (Nat.ltb_spec (length (co_varnames (fn_code t)))
              (co_argcount (fn_code t) + co_kwonlyargcount (fn_code t))); [lia|].
  eexists _, _. split; [reflexivity|]. done.
Qed.

Lemma patch_attributes_frame_witness :
  exists t w1 f w',
    make__repr__ 2 world_init = (Ok t, w1)
    /\ patch_attributes t ["x"; "y"] 2 w1 = (Ok f, w')
    /\ fn_id f = 1
    /\ co_names (fn_code f) = ["type"; "__name__"; "x"; "y"]
    /\ co_code (fn_code f) = co_code (fn_code t).
Proof.
  destruct (make__repr__ 2 world_init) as [r w1] eqn:E.
  assert (Hr : exists t, r = Ok t
                 /\ co_argcount (fn_code t) + co_kwonlyargcount (fn_code t)
                    <= length (co_varnames (fn_code t))
                 /\ take 2 (co_names (fn_code t)) = ["type"; "__name__"]
                 /\ w_next_id w1 = 1).
  { replace r with (fst (make__repr__ 2 world_init)) by (by rewrite E).
    replace w1 with (snd (make__repr__ 2 world_init)) by (by rewrite E).
    vm_compute. eexists. split; [reflexivity|]. vm_compute.
    split; [apply le_n|]. split; reflexivity. }
  destruct Hr as (t & -> & Hlen & Hnames & Hid).
  destruct (patch_attributes_frame t ["x"; "y"] 2 w1 Hlen)
    as (f & w' & Hp & Hf & _ & _ & Hc & _).
  exists t, w1, f, w'. split; [reflexivity|]. split; [exact Hp|].
  split; [by rewrite Hf|]. rewrite Hc. simpl. rewrite Hnames. split; reflexivity.
Defined.

(** X5. [patch_args_and_attributes] replaces [co_names] and
    [co_varnames] and nothing else: the argument count of the result is
    that of the template, whatever the number of fields, and the call
    raises [ValueError] exactly when the fields and [self] are fewer
    than the arguments of the template. *)
Theorem patch_args_and_attributes_frame (t : pyfunc) (fields : list string) (start : nat)
    (w : world) :
  (S (length fields) < co_argcount (fn_code t) + co_kwonlyargcount (fn_code t) ->
   fst (patch_args_and_attributes t fields start w) = Raise ValueError)
  /\ (co_argcount (fn_code t) + co_kwonlyargcount (fn_code t) <= S (length fields) ->
      exists f w',
        patch_args_and_attributes t fields start w = (Ok f, w')
        /\ fn_id f = w_next_id w
        /\ fn_globals f = fn_globals t
        /\ fn_code f
           = with_varnames
               (with_names (fn_code t) (take start (co_names (fn_code t)) ++ fields))
               ("self" :: fields)
        /\ co_argcount (fn_code f) = co_argcount (fn_code t)
        /\ co_code (fn_code f) = co_code (fn_code t)).
Proof.
  unfold patch_args_and_attributes. rewrite code_replace_names_varnames.
  cbn [length].
  destruct (Nat.ltb_spec (S (length fields))
              (co_argcount (fn_code t) + co_kwonlyargcount (fn_code t))).
  - split; [done|lia].
  - split; [lia|]. intros _. eexists _, _. split; [reflexivity|]. done.
Qed.

Lemma patch_args_and_attributes_frame_witness :
  exists t w1,
    make__init__ 2 world_init = (Ok t, w1)
    /\ fst (patch_args_and_attributes t ["x"] 0 w1) = Raise ValueError.
Proof.
  destruct (make__init__ 2 world_init) as [r w1] eqn:E.
  assert (Hr : exists t, r = Ok t
                 /\ 2 < co_argcount (fn_code t) + co_kwonlyargcount (fn_code t)).
  { replace r with (fst (make__init__ 2 world_init)) by (by rewrite E).
    vm_compute. eexists. split; [reflexivity|]. vm_compute. apply le_n. }
  destruct Hr as (t & -> & Hlen).
  exists t, w1. split; [reflexivity|].
  apply (patch_args_and_attributes_frame t ["x"] 0 w1). exact Hlen.
Defined.

(** ** The decorator, in general *)

(** X6. The decorator sets [__match_args__] to the resolved field
    names, over a [__match_args__] of the class's own if there is
    one, and keeps the identity, the name and the bases of the class. *)
Theorem dataklass_match_args (cls cls' : pyclass) (w w' : world) :
  dataklass cls w = (Ok cls', w') ->
  exists d,
    all_hints cls = Ok d
    /\ cls_vars cls' !! "__match_args__" = Some (ANames (PyDict.keys d))
    /\ cls_id cls' = cls_id cls
    /\ cls_name cls' = cls_name cls
    /\ tail (cls_mro cls') = tail (cls_mro cls).
Proof.
  intros Hd. destruct (dataklass_frame _ _ _ _ Hd) as (Hid & Hname & Htail).
  destruct (dataklass_inv _ _ _ _ Hd) as (d & c1 & c2 & c3 & w1 & w2 & Hh & _ & _ & _ & ->).
  exists d. split; [done|]. split; [|done].
  rewrite cls_vars_setattr. apply lookup_insert_eq.
Qed.

Lemma dataklass_match_args_witness :
  exists cls',
    fst (dataklass Coordinates world_init) = Ok cls'
    /\ cls_vars cls' !! "__match_args__" = Some (ANames ["x"; "y"]).
Proof.
  destruct (dataklass Coordinates world_init) as [r w'] eqn:E.
  assert (Hr : exists cls', r = Ok cls').
  { replace r with (fst (dataklass Coordinates world_init)) by (by rewrite E).
    vm_compute. eauto. }
  destruct Hr as [cls' ->]. exists cls'. split; [reflexivity|].
  destruct (dataklass_match_args Coordinates cls' world_init w' E) as (d & Hh & Hm & _).
  injection Hh as <-. exact Hm.
Defined.

Lemma cls_mro_unfold (c : pyclass) : cls_mro c = c :: tail (cls_mro c).
Proof. by destruct c. Qed.

Lemma cls_setattr_same (c : pyclass) (name : string) (a : attr) :
  cls_vars c !! name = Some a -> cls_setattr c name a = c.
Proof. destruct c as [i n d bs]. simpl. intros H. by rewrite insert_id. Qed.

Lemma dataklass_has_family (cls cls' : pyclass) (w w' : world) (fam : family) :
  dataklass cls w = (Ok cls', w') ->
  fam ∈ attached_families ->
  is_Some (cls_vars cls' !! family_attr fam).
Proof.
  intros Hd Hfam.
  destruct (cls_vars cls !! family_attr fam) as [x|] eqn:Hx.
  - rewrite (dataklass_lookup cls cls' w w' _ Hd); [by rewrite Hx| |right; by rewrite Hx].
    unfold attached_families in Hfam.
    repeat (apply elem_of_cons in Hfam as [->|Hfam]; [done|]). by apply elem_of_nil in Hfam.
  - destruct (dataklass_attached cls cls' w w' fam Hd Hfam Hx) as (d & f & wa & wb & _ & _ & ->).
    eauto.
Qed.

Lemma dataklass_all_hints (cls cls' : pyclass) (w w' : world) :
  dataklass cls w = (Ok cls', w') -> all_hints cls' = all_hints cls.
Proof.
  intros Hd. destruct (dataklass_frame _ _ _ _ Hd) as (_ & _ & Htail).
  unfold all_hints. rewrite (cls_mro_unfold cls'), (cls_mro_unfold cls), Htail.
  cbn [fold_left]. f_equal. unfold all_hints_step, annotations_of. cbn [rbind].
  by rewrite (dataklass_type_getattr cls cls' w w' "__annotations__" Hd).
Qed.

(** X7. Decorating a class the decorator returned changes nothing:
    the class comes back as it is, no template is requested and no
    function object is made. *)
Theorem dataklass_idempotent (cls cls' : pyclass) (w w' w2 : world) :
  dataklass cls w = (Ok cls', w') ->
  dataklass cls' w2 = (Ok cls', w2).
Proof.
  intros Hd.
  assert (exists d, all_hints cls = Ok d
            /\ cls_vars cls' !! "__match_args__" = Some (ANames (PyDict.keys d)))
    as (d & Hh & Hm).
  { destruct (dataklass_inv _ _ _ _ Hd) as (d & c1 & c2 & c3 & w1 & w3 & Hh & _ & _ & _ & ->).
    exists d. split; [done|]. rewrite cls_vars_setattr. apply lookup_insert_eq. }
  pose proof (dataklass_has_family cls cls' w w' F_init Hd ltac:(left)) as Hi.
  pose proof (dataklass_has_family cls cls' w w' F_repr Hd ltac:(right; left)) as Hr.
  pose proof (dataklass_has_family cls cls' w w' F_eq Hd ltac:(right; right; left)) as He.
  simpl in Hi, Hr, He.
  unfold dataklass, bind, lift, ret, in_clsdict.
  rewrite (dataklass_all_hints cls cls' w w' Hd), Hh.
  rewrite (bool_decide_true (is_Some (cls_vars cls' !! "__init__"))) by assumption.
  cbn [negb].
  rewrite (bool_decide_true (is_Some (cls_vars cls' !! "__repr__"))) by assumption.
  cbn [negb].
  rewrite (bool_decide_true (is_Some (cls_vars cls' !! "__eq__"))) by assumption.
  cbn [negb].
  by rewrite cls_setattr_same.
Qed.

Lemma dataklass_idempotent_witness :
  exists cls',
    fst (dataklass Coordinates world_init) = Ok cls'
    /\ dataklass cls' world_init = (Ok cls', world_init).
Proof.
  destruct (dataklass Coordinates world_init) as [r w'] eqn:E.
  assert (Hr : exists cls', r = Ok cls').
  { replace r with (fst (dataklass Coordinates world_init)) by (by rewrite E).
    vm_compute. eauto. }
  destruct Hr as [cls' ->]. exists cls'. split; [reflexivity|].
  exact (dataklass_idempotent Coordinates cls' world_init w' world_init E).
Defined.

(** ** Invariants of the process state *)

Lemma preserves_bind {A B} (I : world -> Prop) (m : M A) (k : A -> M B) :
  preserves I m -> (forall a, preserves I (k a)) -> preserves I (bind m k).
Proof.
  intros Hm Hk w Hw. unfold bind. specialize (Hm w Hw).
  destruct (m w) as [[a| | |] w1]; simpl in *; try done. by apply Hk.
Qed.

Lemma preserves_ret {A} (I : world -> Prop) (a : A) : preserves I (ret a).
Proof. by intros w Hw. Qed.

Lemma preserves_lift {A} (I : world -> Prop) (r : result A) : preserves I (lift r).
Proof. by intros w Hw. Qed.

Lemma preserves_if {A} (I : world -> Prop) (b : bool) (m1 m2 : M A) :
  preserves I m1 -> preserves I m2 -> preserves I (if b then m1 else m2).
Proof. by destruct b. Qed.

(** The decorator keeps an invariant that a request of one of the
    three attached families and a new function object keep. *)
Lemma preserves_dataklass (I : world -> Prop) (cls : pyclass) :
  (forall fam n, fam ∈ attached_families -> preserves I (codegen fam n)) ->
  (forall c g, preserves I (new_function c g)) ->
  preserves I (dataklass cls).
Proof.
  intros Hgen Hnew. unfold dataklass.
  assert (Hi : F_init ∈ attached_families) by left.
  assert (Hr : F_repr ∈ attached_families) by (right; left).
  assert (He : F_eq ∈ attached_families) by (right; right; left).
  apply preserves_bind; [apply preserves_lift|intros d].
  apply preserves_bind; [|intros c1].
  { apply preserves_if; [|apply preserves_ret].
    apply preserves_bind; [by apply Hgen|intros t].
    apply preserves_bind; [|intros f; apply preserves_ret].
    apply preserves_bind; [apply preserves_lift|intros c; apply Hnew]. }
  apply preserves_bind; [|intros c2].
  { apply preserves_if; [|apply preserves_ret].
    apply preserves_bind; [by apply Hgen|intros t].
    apply preserves_bind; [|intros f; apply preserves_ret].
    apply preserves_bind; [apply preserves_lift|intros c; apply Hnew]. }
  apply preserves_bind; [|intros c3; apply preserves_ret].
  apply preserves_if; [|apply preserves_ret].
  apply preserves_bind; [by apply Hgen|intros t].
  apply preserves_bind; [|intros f; apply preserves_ret].
  apply preserves_bind; [apply preserves_lift|intros c; apply Hnew].
Qed.

Lemma lru_remove_length (k : nat) (f : pyfunc) (c : list (nat * pyfunc)) :
  lru_find k c = Some f -> S (length (lru_remove k c)) = length c.
Proof.
  induction c as [|[k' f'] c IH]; simpl; [done|].
  destruct (k' =? k); [done|]. intros H. simpl. by rewrite IH.
Qed.

Lemma codegen_cache_bounded (fam : family) (n : nat) :
  preserves cache_bounded (codegen fam n).
Proof.
  intros w Hw g.
  destruct (codegen_effect fam n w) as [Hother Hself].
  destruct (family_eqb_spec g fam) as [->|Hg]; [|rewrite Hother by done; apply Hw].
  destruct (Hw fam) as [Hlen Hnd].
  destruct (lru_find n (w_cache w fam)) as [f|] eqn:Hfind.
  - destruct Hself as (_ & -> & _). unfold lru_touch. split.
    + simpl. by rewrite (lru_remove_length n f).
    + simpl. apply NoDup_cons. split; [by apply lru_remove_gone|by apply lru_remove_NoDup].
  - destruct Hself as (_ & Hc).
    destruct (fst (codegen fam n w)) as [f| | |]; try (by rewrite Hc).
    destruct Hc as [-> _]. unfold lru_add. split.
    + rewrite length_take. lia.
    + eapply sublist_NoDup; [|apply sublist_keys, sublist_take].
      simpl. apply NoDup_cons. split; [by apply lru_find_None|done].
Qed.

(** X8. The caches stay within the capacity of [lru_cache()]: after
    the decorator, whether it returned or raised, each of the five
    caches has at most 128 templates, and at most one for an arity, if
    that was so before. *)
Theorem dataklass_cache_bounded (cls : pyclass) (w : world) :
  cache_bounded w -> cache_bounded (snd (dataklass cls w)).
Proof.
  apply preserves_dataklass.
  - intros fam n _. apply codegen_cache_bounded.
  - intros c g w0 Hw0. exact Hw0.
Qed.

Lemma dataklass_cache_bounded_witness :
  cache_bounded world_init /\ cache_bounded (snd (dataklass Coordinates world_init)).
Proof.
  assert (H : cache_bounded world_init).
  { intros fam. simpl. split; [unfold lru_maxsize; lia|constructor]. }
  split; [exact H|]. exact (dataklass_cache_bounded Coordinates world_init H).
Defined.

Lemma codegen_log_extends (w0 : world) (fam : family) (n : nat) :
  fam ∈ attached_families -> preserves (log_extends w0) (codegen fam n).
Proof.
  intros Hfam w Hw e He.
  destruct (codegen_effect fam n w) as [_ Hself].
  destruct (lru_find n (w_cache w fam)).
  - destruct Hself as (_ & _ & Hlog). rewrite Hlog in He. by apply Hw.
  - destruct Hself as (Hlog & _). rewrite Hlog in He.
    apply elem_of_cons in He as [->|He]; [by right|by apply Hw].
Qed.

(** X9. The decorator compiles templates of the constructor, the
    representation and the equality only: whatever the class, and
    whether the decorator returns or raises, [exec] never runs for the
    iteration or the hashing template. *)
Theorem dataklass_compiles_attached_only (cls : pyclass) (w : world) (e : family * nat) :
  e ∈ w_exec_log (snd (dataklass cls w)) ->
  e ∈ w_exec_log w \/ fst e ∈ attached_families.
Proof.
  revert e. change (log_extends w (snd (dataklass cls w))).
  apply preserves_dataklass.
  - intros fam n Hfam. by apply codegen_log_extends.
  - intros c g w0 Hw0. exact Hw0.
  - intros e He. by left.
Qed.

Lemma dataklass_compiles_attached_only_witness :
  (F_repr, 2) ∈ w_exec_log (snd (dataklass Coordinates world_init))
  /\ ((F_repr, 2) ∈ w_exec_log world_init \/ fst (F_repr, 2) ∈ attached_families).
Proof.
  assert (H : (F_repr, 2) ∈ w_exec_log (snd (dataklass Coordinates world_init))).
  { vm_compute. right. left. }
  split; [exact H|].
  exact (dataklass_compiles_attached_only Coordinates world_init (F_repr, 2) H).
Defined.

(** ** Templates that do not compile *)

Lemma codegen_fails (fam : family) (n : nat) (w : world) (e : exn) :
  cache_wf w ->
  exec_def (template_source fam (placeholders n)) = Raise e ->
  codegen fam n w
  = (Raise e, {| w_next_id := w_next_id w; w_cache := w_cache w;
                 w_exec_log := (fam, n) :: w_exec_log w |}).
Proof.
  intros Hwf He. unfold codegen.
  destruct (lru_find n (w_cache w fam)) as [f|] eqn:Hfind.
  { apply lru_find_elem, Hwf in Hfind. congruence. }
  unfold make_func_code_uncached, bind, log_exec, lift. simpl. by rewrite He.
Qed.

(** X10. [lru_cache()] keeps no failure: where the template of a
    family and an arity does not compile, a request raises the error of
    [exec] and leaves the caches as they were, so the next request for
    it runs [exec] again and raises again. *)
Theorem codegen_failure_not_cached (fam : family) (n : nat) (w : world) (e : exn) :
  cache_wf w ->
  exec_def (template_source fam (placeholders n)) = Raise e ->
  let w' := snd (codegen fam n w) in
  fst (codegen fam n w) = Raise e
  /\ w_cache w' = w_cache w
  /\ exec_count fam n w' = S (exec_count fam n w)
  /\ fst (codegen fam n w') = Raise e
  /\ exec_count fam n (snd (codegen fam n w')) = S (S (exec_count fam n w)).
Proof.
  intros Hwf He.
  assert (Hstep : forall w0, cache_wf w0 ->
             exec_count fam n (snd (codegen fam n w0)) = S (exec_count fam n w0)
             /\ cache_wf (snd (codegen fam n w0))).
  { intros w0 Hw0. rewrite (codegen_fails fam n w0 e Hw0 He). split; [|exact Hw0].
    unfold exec_count. cbn [snd w_exec_log]. rewrite filter_cons. cbn [fst snd].
    by rewrite family_eqb_refl, Nat.eqb_refl. }
  destruct (Hstep w Hwf) as [Hc Hwf']. destruct (Hstep _ Hwf') as [Hc' _].
  cbv zeta. rewrite (codegen_fails fam n w e Hwf He) in *.
  split; [done|]. split; [done|].
  split; [done|]. split; [by rewrite (codegen_fails fam n _ e Hwf' He)|].
  by rewrite Hc', Hc.
Qed.

Lemma codegen_failure_not_cached_witness :
  fst (codegen F_init 0 world_init) = Raise SyntaxError
  /\ exec_count F_init 0 (snd (codegen F_init 0 (snd (codegen F_init 0 world_init)))) = 2.
Proof.
  destruct (codegen_failure_not_cached F_init 0 world_init SyntaxError cache_wf_init)
    as (H1 & _ & _ & _ & H2).
  - vm_compute. reflexivity.
  - split; [exact H1|exact H2].
Defined.

Lemma codegen_succeeds (fam : family) (n : nat) (w : world) (c : code) :
  cache_wf w ->
  exec_def (template_source fam (placeholders n)) = Ok c ->
  exists t w1, codegen fam n w = (Ok t, w1) /\ fn_code t = c /\ cache_wf w1.
Proof.
  intros Hwf Hc.
  assert (Hok : exists t w1, codegen fam n w = (Ok t, w1)).
  { unfold codegen. destruct (lru_find n (w_cache w fam)) as [f|]; [eauto|].
    unfold make_func_code_uncached, bind, log_exec, lift, new_function. simpl.
    rewrite Hc. eauto. }
  destruct Hok as (t & w1 & Ht). exists t, w1. split; [done|].
  destruct (codegen_ok fam n w w1 t Hwf Ht) as [Hcode Hwf1]. split; [congruence|done].
Qed.

Lemma bind_step {A B} (m : M A) (k : A -> M B) (w w1 : world) (a : A) :
  m w = (Ok a, w1) -> bind m k w = k a w1.
Proof. intros H. unfold bind. by rewrite H. Qed.

Lemma bind_raise {A B} (m : M A) (k : A -> M B) (w : world) (e : exn) :
  fst (m w) = Raise e -> fst (bind m k w) = Raise e.
Proof. unfold bind. destruct (m w) as [[a| | |] w1]; simpl; congruence. Qed.

Lemma patch_attributes_ok (t : pyfunc) (fields : list string) (start : nat) (w : world) :
  co_argcount (fn_code t) + co_kwonlyargcount (fn_code t) <= length (co_varnames (fn_code t)) ->
  patch_attributes t fields start w
  = (Ok {| fn_id := w_next_id w;
           fn_code := with_names (fn_code t) (take start (co_names (fn_code t)) ++ fields);
           fn_globals := fn_globals t |},
     {| w_next_id := S (w_next_id w); w_cache := w_cache w; w_exec_log := w_exec_log w |}).
Proof.
  intros Hlen. unfold patch_attributes. rewrite code_replace_names.
  destruct (Nat.ltb_spec (length (co_varnames (fn_code t)))
              (co_argcount (fn_code t) + co_kwonlyargcount (fn_code t))); [lia|].
  reflexivity.
Qed.

Lemma cache_wf_next_id (w : world) (n : nat) :
  cache_wf w ->
  cache_wf {| w_next_id := n; w_cache := w_cache w; w_exec_log := w_exec_log w |}.
Proof. intros Hwf fam k f. apply Hwf. Qed.

Lemma exec_def_init_no_fields :
  exec_def (template_source F_init (placeholders 0)) = Raise SyntaxError.
Proof. vm_compute. reflexivity. Qed.

Lemma exec_def_eq_no_fields :
  exec_def (template_source F_eq (placeholders 0)) = Raise SyntaxError.
Proof. vm_compute. reflexivity. Qed.

(** X11. A class with no field at all: the decorator raises
    [SyntaxError] unless the class defines both [__init__] and
    [__eq__] itself, and then it returns; the representation template
    is the only one of the three that compiles for no field. *)
Theorem dataklass_no_fields (cls : pyclass) (w : world) :
  cache_wf w ->
  all_hints cls = Ok [] ->
  (cls_vars cls !! "__init__" = None \/ cls_vars cls !! "__eq__" = None ->
   fst (dataklass cls w) = Raise SyntaxError)
  /\ (is_Some (cls_vars cls !! "__init__") -> is_Some (cls_vars cls !! "__eq__") ->
      exists cls', fst (dataklass cls w) = Ok cls').
Proof.
  intros Hwf Hh.
  pose proof (fun w0 Hw0 => codegen_fails F_init 0 w0 SyntaxError Hw0 exec_def_init_no_fields)
    as Hinit.
  pose proof (fun w0 Hw0 => codegen_fails F_eq 0 w0 SyntaxError Hw0 exec_def_eq_no_fields)
    as Heq.
  assert (Hrepr : forall w0, cache_wf w0 ->
             exists t w1, codegen F_repr 0 w0 = (Ok t, w1) /\ cache_wf w1
               /\ co_argcount (fn_code t) + co_kwonlyargcount (fn_code t)
                  <= length (co_varnames (fn_code t))).
  { intros w0 Hw0.
    destruct (exec_def_make__repr__ 0) as (c & Hrepr & _ & _ & Hvars & _ & Hargs & Hkw & _).
    destruct (codegen_succeeds F_repr 0 w0 c Hw0 Hrepr) as (t & w1 & Ht & Hc & Hwf1).
    exists t, w1. split; [exact Ht|]. split; [exact Hwf1|].
    rewrite Hc, Hvars, Hargs, Hkw. apply le_n. }
  assert (Hstep : exists c2 w2,
             (if negb (in_clsdict "__repr__" cls)
              then let* t := make__repr__ 0 in
                   let* f := patch_attributes t (PyDict.keys (@nil (string * string))) 2 in
                   ret (cls_setattr cls "__repr__" (AFunc f))
              else ret cls) w = (Ok c2, w2)
             /\ cache_wf w2 /\ cls_vars c2 !! "__eq__" = cls_vars cls !! "__eq__").
  { destruct (in_clsdict "__repr__" cls); cbn [negb]; [by exists cls, w|].
    destruct (Hrepr w Hwf) as (t & w1 & Ht & Hwf1 & Hlen).
    eexists _, _. split.
    - unfold make__repr__. rewrite (bind_step _ _ w w1 t Ht).
      erewrite bind_step; [reflexivity|].
      by apply patch_attributes_ok.
    - split; [by apply cache_wf_next_id|].
      rewrite cls_vars_setattr. by apply lookup_insert_ne. }
  destruct Hstep as (c2 & w2 & Hstep & Hwf2 & Hsame).
  assert (Hstart : dataklass cls w
            = (let* c1 := (if negb (in_clsdict "__init__" cls)
                           then let* t := make__init__ 0 in
                                let* f := patch_args_and_attributes t
                                            (PyDict.keys (@nil (string * string))) 0 in
                                ret (cls_setattr cls "__init__" (AFunc f))
                           else ret cls) in
               let* c2 := (if negb (in_clsdict "__repr__" c1)
                           then let* t := make__repr__ 0 in
                                let* f := patch_attributes t
                                            (PyDict.keys (@nil (string * string))) 2 in
                                ret (cls_setattr c1 "__repr__" (AFunc f))
                           else ret c1) in
               let* c3 := (if negb (in_clsdict "__eq__" c2)
                           then let* t := make__eq__ 0 in
                                let* f := patch_attributes t
                                            (PyDict.keys (@nil (string * string))) 1 in
                                ret (cls_setattr c2 "__eq__" (AFunc f))
                           else ret c2) in
               ret (cls_setattr c3 "__match_args__"
                      (ANames (PyDict.keys (@nil (string * string)))))) w).
  { unfold dataklass.
    by rewrite (bind_step _ _ w w _ (f_equal (fun r => (r, w)) Hh)). }
  rewrite Hstart. clear Hstart.
  assert (Hno_init : cls_vars cls !! "__init__" = None ->
                     in_clsdict "__init__" cls = false).
  { intros Hi. unfold in_clsdict. rewrite Hi. apply bool_decide_false. by intros [? ?]. }
  assert (Hown : forall name c0, is_Some (cls_vars c0 !! name) -> in_clsdict name c0 = true).
  { intros name c0 Hs. unfold in_clsdict. by apply bool_decide_true. }
  assert (Hno_eq : cls_vars cls !! "__eq__" = None -> in_clsdict "__eq__" c2 = false).
  { intros Hq. unfold in_clsdict. rewrite Hsame, Hq. apply bool_decide_false. by intros [? ?]. }
  split.
  - intros Hor.
    destruct (cls_vars cls !! "__init__") as [i|] eqn:Hi.
    + destruct Hor as [Hor|Hq]; [done|].
      rewrite (Hown "__init__" cls) by (rewrite Hi; eauto). cbn [negb].
      rewrite (bind_step (ret cls) _ w w cls eq_refl).
      rewrite (bind_step _ _ w w2 c2 Hstep).
      rewrite (Hno_eq Hq). cbn [negb].
      apply bind_raise, bind_raise. unfold make__eq__. by rewrite Heq.
    + rewrite (Hno_init eq_refl). cbn [negb].
      apply bind_raise, bind_raise. unfold make__init__. by rewrite Hinit.
  - intros Hi Hq.
    rewrite (Hown "__init__" cls Hi). cbn [negb].
    rewrite (bind_step (ret cls) _ w w cls eq_refl).
    rewrite (bind_step _ _ w w2 c2 Hstep).
    rewrite (Hown "__eq__" c2) by (by rewrite Hsame). cbn [negb].
    rewrite (bind_step (ret c2) _ w2 w2 c2 eq_refl). eexists. reflexivity.
Qed.

Lemma dataklass_no_fields_witness :
  fst (dataklass Empty world_init) = Raise SyntaxError.
Proof.
  apply (dataklass_no_fields Empty world_init cache_wf_init eq_refl).
  left. reflexivity.
Defined.

(** ** The types of the resolved fields *)

Section dict_items.
Context {V : Type}.
Implicit Types (d items : list (string * V)).

Lemma getitem_None k d : PyDict.getitem k d = None <-> k ∉ PyDict.keys d.
Proof.
  induction d as [|[k' v'] d IH]; simpl.
  - split; [intros _; apply not_elem_of_nil|done].
  - destruct (String.eqb_spec k' k) as [->|Hne].
    + split; [done|]. intros []. left.
    + rewrite IH, not_elem_of_cons. naive_solver.
Qed.

Lemma getitem_setitem k k' v d :
  PyDict.getitem k (PyDict.setitem k' v d)
  = if String.eqb k' k then Some v else PyDict.getitem k d.
Proof.
  induction d as [|[k0 v0] d IH]; simpl.
  - by destruct (String.eqb_spec k' k).
  - destruct (String.eqb_spec k0 k') as [->|Hne]; simpl.
    + by destruct (String.eqb_spec k' k).
    + destruct (String.eqb_spec k0 k) as [->|Hne'].
      * by destruct (String.eqb_spec k' k); [congruence|].
      * exact IH.
Qed.

Lemma getitem_update k d items :
  NoDup (PyDict.keys items) ->
  PyDict.getitem k (PyDict.update d items)
  = match PyDict.getitem k items with
    | Some v => Some v
    | None => PyDict.getitem k d
    end.
Proof.
  unfold PyDict.update. revert d.
  induction items as [|[k' v'] items IH]; intros d Hnd; simpl; [done|].
  apply NoDup_cons in Hnd as [Hk' Hnd].
  rewrite IH, getitem_setitem by done.
  destruct (String.eqb_spec k' k) as [->|Hne]; [|done].
  by rewrite (proj2 (getitem_None k items) Hk').
Qed.

Lemma getitem_unpack2 k (a b : list (string * V)) :
  NoDup (PyDict.keys a) -> NoDup (PyDict.keys b) ->
  PyDict.getitem k (PyDict.unpack2 a b)
  = match PyDict.getitem k b with
    | Some v => Some v
    | None => PyDict.getitem k a
    end.
Proof.
  intros Ha Hb. unfold PyDict.unpack2. rewrite !getitem_update by done.
  by destruct (PyDict.getitem k b), (PyDict.getitem k a).
Qed.
End dict_items.

Lemma reduce_hints_getitem (mro : list pyclass) (x d : list (string * string)) (k : string) :
  annotations_wf mro -> NoDup (PyDict.keys x) ->
  fold_left all_hints_step mro (Ok x) = Ok d ->
  PyDict.getitem k d
  = match PyDict.getitem k x with
    | Some t => Some t
    | None => declared_type k mro
    end.
Proof.
  revert x. induction mro as [|y mro IH]; intros x Hwf Hnd Hd; simpl in Hd.
  - injection Hd as <-. simpl. by destruct (PyDict.getitem k x).
  - apply Forall_cons in Hwf as [Hy Hwf]. simpl.
    destruct (annotations_of y) as [a| | |] eqn:Ha; simpl in Hd;
      try (by exfalso; eapply all_hints_step_fail; [|exact Hd]).
    apply IH in Hd; [|done|rewrite keys_unpack2; apply NoDup_first_appearance].
    rewrite Hd, getitem_unpack2 by auto.
    by destruct (PyDict.getitem k x), (PyDict.getitem k a).
Qed.

(** A class with no annotations of its own shows those of the next
    class of its chain. *)
Lemma declared_type_inherited (k : string) (y : pyclass) (rest : list pyclass) :
  cls_vars y !! "__annotations__" = None ->
  cls_mro y = y :: rest -> linear_chain rest ->
  declared_type k (y :: rest) = declared_type k rest.
Proof.
  intros Hown Hmro Hrest.
  assert (Hy : annotations_of y
               = match rest with [] => Ok [] | c :: _ => annotations_of c end).
  { unfold annotations_of. rewrite type_getattr_unfold, Hown, Hmro. simpl.
    destruct rest as [|c rest']; [done|].
    destruct Hrest as [Hc _]. unfold type_getattr. by rewrite Hc. }
  cbn [declared_type]. rewrite Hy.
  destruct rest as [|c rest']; [done|].
  cbn [declared_type].
  destruct (annotations_of c) as [a| | |]; [|done..].
  by destruct (PyDict.getitem k a).
Qed.

(** Along a single-inheritance chain, what [getattr] finds for the
    annotations of each class names the same type as the classes' own
    annotations do. *)
Lemma declared_type_linear (k : string) (mro : list pyclass) :
  linear_chain mro ->
  Forall (fun y => exists a, annotations_of y = Ok a) mro ->
  declared_type k mro = most_derived_type k mro.
Proof.
  induction mro as [|y rest IH]; intros Hchain Hall; [done|].
  destruct Hchain as [Hmro Hrest].
  apply Forall_cons in Hall as [[a Ha] Hall].
  destruct (cls_vars y !! "__annotations__") as [x|] eqn:Hown.
  - cbn [most_derived_type]. rewrite Hown.
    assert (Hy : annotations_of y
                 = match x with AAnnotations b => Ok b | _ => Raise TypeError end).
    { unfold annotations_of. by rewrite type_getattr_unfold, Hown. }
    cbn [declared_type]. rewrite Hy in Ha |- *.
    destruct x as [f|b|t|tag]; try discriminate Ha.
    rewrite IH by done. done.
  - rewrite declared_type_inherited by done.
    cbn [most_derived_type]. rewrite Hown. by apply IH.
Qed.

(** X12. In a single-inheritance chain, the type resolved for a field
    is the one the most derived class that annotates the name gives
    it, while its position is that of its first appearance from the
    base: a derived class that annotates an inherited name again
    changes the type and not the place.  (With several bases a class
    that has no annotations of its own shows those of the next class
    of its own [__mro__], which need not be the next class of the
    [__mro__] being walked; [all_hints_diamond] has an instance.) *)
Theorem all_hints_declared_type (cls : pyclass) (d : list (string * string)) (k : string) :
  annotations_wf (cls_mro cls) ->
  linear_chain (cls_mro cls) ->
  all_hints cls = Ok d ->
  PyDict.getitem k d = most_derived_type k (cls_mro cls).
Proof.
  intros Hwf Hchain Hd. unfold all_hints in Hd.
  rewrite (reduce_hints_getitem (cls_mro cls) [] d k Hwf (NoDup_nil_2) Hd).
  cbn [PyDict.getitem]. apply declared_type_linear; [done|].
  apply (reduce_hints_total (cls_mro cls) []). eauto.
Qed.

Lemma all_hints_declared_type_witness :
  all_hints Derived = Ok [("x", "int"); ("y", "str"); ("z", "float")]
  /\ most_derived_type "y" (cls_mro Derived) = Some "str"
  /\ most_derived_type "x" (cls_mro Derived) = Some "int"
  /\ PyDict.getitem "y" [("x", "int"); ("y", "str"); ("z", "float")]
     = most_derived_type "y" (cls_mro Derived).
Proof.
  split; [reflexivity|]. split; [reflexivity|]. split; [reflexivity|].
  apply (all_hints_declared_type Derived); [| |reflexivity].
  - unfold annotations_wf. repeat constructor.
    + intros a [= <-]. simpl. repeat constructor; set_solver.
    + intros a [= <-]. simpl. repeat constructor; set_solver.
  - repeat split.
Defined.

(** On the diamond the walk reaches [B] before [C]; [B] has no
    annotations of its own and shows those of [A], so [x] is resolved
    to the [int] of [A], though [C], which comes before [A], annotates
    it as [str]. *)
Lemma all_hints_diamond :
  all_hints DiamondD = Ok [("x", "int"); ("z", "float")]
  /\ most_derived_type "x" (cls_mro DiamondD) = Some "str"
  /\ ~ linear_chain (cls_mro DiamondD).
Proof.
  split; [reflexivity|]. split; [reflexivity|].
  intros (_ & Hb & _). discriminate Hb.
Qed.

(** ** Calls the constructor refuses *)

Lemma bind_args_too_many (c : code) (args : list value) (kwargs : list (string * value)) :
  co_argcount c < length args -> bind_args c args kwargs = Raise TypeError.
Proof.
  intros H. unfold bind_args.
  by destruct (Nat.ltb_spec (co_argcount c) (length args)); [|lia].
Qed.

Lemma bind_args_too_few (c : code) (args : list value) :
  length args < co_argcount c -> co_argcount c <= co_nlocals c ->
  bind_args c args [] = Raise TypeError.
Proof.
  intros Hlt Hle. unfold bind_args.
  destruct (Nat.ltb_spec (co_argcount c) (length args)); [lia|].
  cbn [bind_keywords rbind].
  destruct (forallb _ _) eqn:Hall; [|done]. exfalso.
  rewrite forallb_forall in Hall.
  specialize (Hall None). rewrite <- list_elem_of_In in Hall.
  assert (Hin : None ∈ take (co_argcount c)
                  (map Some args ++ repeat None (co_nlocals c - length args))).
  { apply (list_elem_of_lookup_2 _ (length args)).
    rewrite lookup_take_lt by lia.
    rewrite lookup_app_r by (by rewrite length_map).
    rewrite length_map, Nat.sub_diag.
    destruct (co_nlocals c - length args) as [|m] eqn:E; [lia|done]. }
  specialize (Hall Hin). apply bool_decide_eq_true in Hall. by destruct Hall.
Qed.

(** X13. The constructor of a decorated class takes exactly one
    positional value per field: a call with more or with fewer values,
    and no keyword, raises [TypeError]. *)
Theorem constructor_wrong_arity (cls cls' : pyclass) (w w' : world)
    (d : list (string * string)) (vals : list value) (h : heap) :
  cache_wf w ->
  dataklass cls w = (Ok cls', w') ->
  cls_vars cls !! "__init__" = None ->
  type_getattr cls "__new__" = None ->
  all_hints cls = Ok d ->
  length vals <> length d ->
  instantiate cls' vals [] h = Raise TypeError.
Proof.
  intros Hwf Hd Hnone Hnew Hhints Hlen.
  destruct (dataklass_init_code cls cls' w w' Hwf Hd Hnone)
    as (d' & f & Hh' & _ & Hf & _ & _ & _ & _ & Hargs & _ & Hnl).
  rewrite Hhints in Hh'. injection Hh' as <-.
  unfold instantiate.
  rewrite (dataklass_type_getattr cls cls' w w' "__new__" Hd) by done.
  rewrite Hnew, type_getattr_unfold, Hf. unfold call_function.
  destruct (Nat.lt_ge_cases (length d) (length vals)).
  - by rewrite bind_args_too_many by (rewrite Hargs; simpl; lia).
  - by rewrite bind_args_too_few by (rewrite ?Hargs, ?Hnl; simpl; lia).
Qed.

Lemma constructor_wrong_arity_witness :
  exists cls',
    fst (dataklass Coordinates world_init) = Ok cls'
    /\ instantiate cls' [VInt 2] [] ∅ = Raise TypeError
    /\ instantiate cls' [VInt 2; VInt 3; VInt 4] [] ∅ = Raise TypeError.
Proof.
  destruct (dataklass Coordinates world_init) as [r w'] eqn:E.
  assert (Hr : exists cls', r = Ok cls').
  { replace r with (fst (dataklass Coordinates world_init)) by (by rewrite E).
    vm_compute. eauto. }
  destruct Hr as [cls' ->]. exists cls'. split; [reflexivity|].
  split.
  - apply (constructor_wrong_arity Coordinates cls' world_init w'
             [("x", "int"); ("y", "int")] [VInt 2] ∅);
      [apply cache_wf_init|exact E|reflexivity|reflexivity|reflexivity|discriminate].
  - apply (constructor_wrong_arity Coordinates cls' world_init w'
             [("x", "int"); ("y", "int")] [VInt 2; VInt 3; VInt 4] ∅);
      [apply cache_wf_init|exact E|reflexivity|reflexivity|reflexivity|discriminate].
Defined.

Lemma index_of_lt (x : string) (l : list string) (j : nat) :
  index_of x l = Some j -> j < length l.
Proof.
  revert j. induction l as [|y l IH]; intros j; simpl; [done|].
  destruct (String.eqb y x); [intros [= <-]; lia|].
  destruct (index_of x l) as [i|]; simpl; [|done].
  intros [= <-]. specialize (IH i eq_refl). lia.
Qed.

Lemma bind_keywords_unknown (c : code) (kwargs : list (string * value))
    (locals : list (option value)) :
  co_argcount c + co_kwonlyargcount c <= length locals ->
  (exists kw v, (kw, v) ∈ kwargs
                /\ kw ∉ take (co_argcount c + co_kwonlyargcount c) (co_varnames c)) ->
  bind_keywords c kwargs locals = Raise TypeError.
Proof.
  revert locals. induction kwargs as [|[kw0 v0] kwargs IH]; intros locals Hlen (kw & v & Hin & Hkw).
  - by apply elem_of_nil in Hin.
  - cbn [bind_keywords]. unfold find_param.
    destruct (index_of kw0 _) as [j|] eqn:Hj; [|done].
    pose proof (index_of_lt _ _ _ Hj) as Hlt. rewrite length_take in Hlt.
    destruct (lookup_lt_is_Some_2 locals j) as [[x|] Hx]; [lia| |]; rewrite Hx; [done|].
    apply IH; [by rewrite length_insert|].
    exists kw, v. split; [|done].
    apply elem_of_cons in Hin as [[= -> ->]|Hin]; [|done].
    exfalso. apply index_of_None in Hkw. congruence.
Qed.

(** X14. A keyword that names no field makes the constructor raise
    [TypeError], whatever the other arguments are. *)
Theorem constructor_unknown_keyword (cls cls' : pyclass) (w w' : world)
    (d : list (string * string)) (args : list value) (kwargs : list (string * value))
    (kw : string) (v : value) (h : heap) :
  cache_wf w ->
  dataklass cls w = (Ok cls', w') ->
  cls_vars cls !! "__init__" = None ->
  type_getattr cls "__new__" = None ->
  all_hints cls = Ok d ->
  (kw, v) ∈ kwargs ->
  kw ∉ "self" :: PyDict.keys d ->
  instantiate cls' args kwargs h = Raise TypeError.
Proof.
  intros Hwf Hd Hnone Hnew Hhints Hin Hkw.
  destruct (dataklass_init_code cls cls' w w' Hwf Hd Hnone)
    as (d' & f & Hh' & _ & Hf & _ & _ & Hvars & _ & Hargs & Hkwonly & Hnl).
  rewrite Hhints in Hh'. injection Hh' as <-.
  assert (Hklen : length (PyDict.keys d) = length d) by (unfold PyDict.keys; by rewrite length_map).
  unfold instantiate.
  rewrite (dataklass_type_getattr cls cls' w w' "__new__" Hd) by done.
  rewrite Hnew, type_getattr_unfold, Hf. unfold call_function, bind_args.
  destruct (Nat.ltb_spec (co_argcount (fn_code f)) (length (VRef (fresh_addr h) :: args)));
    [done|].
  rewrite bind_keywords_unknown; [done| |].
  - rewrite length_app, length_map, repeat_length. lia.
  - exists kw, v. split; [done|].
    rewrite Hargs, Hkwonly, Hvars, Nat.add_0_r.
    rewrite take_ge by (simpl; lia). done.
Qed.

Lemma constructor_unknown_keyword_witness :
  exists cls',
    fst (dataklass Coordinates world_init) = Ok cls'
    /\ instantiate cls' [VInt 2] [("z", VInt 3)] ∅ = Raise TypeError.
Proof.
  destruct (dataklass Coordinates world_init) as [r w'] eqn:E.
  assert (Hr : exists cls', r = Ok cls').
  { replace r with (fst (dataklass Coordinates world_init)) by (by rewrite E).
    vm_compute. eauto. }
  destruct Hr as [cls' ->]. exists cls'. split; [reflexivity|].
  apply (constructor_unknown_keyword Coordinates cls' world_init w'
           [("x", "int"); ("y", "int")] [VInt 2] [("z", VInt 3)] "z" (VInt 3) ∅);
    [apply cache_wf_init|exact E|reflexivity|reflexivity|reflexivity|left|].
  simpl. intros H.
  repeat (apply elem_of_cons in H as [H|H]; [discriminate H|]).
  by apply elem_of_nil in H.
Defined.

(** X15. For a class whose instances are made and written to in the
    default way (no [__new__], [__setattr__], [__getattribute__] or
    [__slots__] along the [__mro__]) and whose fields are plain names
    (not [__class__], [__dict__], [__weakref__], nor a class attribute
    that may be a data descriptor), constructing an instance touches
    nothing else: the objects already in the heap are as they were,
    and the dictionary of the new instance has the fields and no other
    entry. *)
Theorem constructor_frame (cls cls' : pyclass) (w w' : world)
    (d : list (string * string)) (vals : list value) (h : heap) :
  cache_wf w ->
  dataklass cls w = (Ok cls', w') ->
  cls_vars cls !! "__init__" = None ->
  plain_class cls ->
  all_hints cls = Ok d ->
  Forall (plain_field cls) (PyDict.keys d) ->
  length vals = length d ->
  exists a h' o,
    instantiate cls' vals [] h = Ok (VRef a, h')
    /\ h !! a = None
    /\ (forall b, b <> a -> h' !! b = h !! b)
    /\ h' !! a = Some o
    /\ (forall name, name ∉ PyDict.keys d -> obj_dict o !! name = None).
Proof.
  intros Hwf Hd Hnone Hplain Hhints Hfields Hlen.
  pose proof Hplain as (Hnew & _).
  destruct (dataklass_init_code cls cls' w w' Hwf Hd Hnone)
    as (d' & f & Hh' & _ & Hf & Hcode & Hnames & Hvars & Hconsts & Hargs & _ & Hnl).
  rewrite Hhints in Hh'. injection Hh' as <-.
  assert (Hklen : length (PyDict.keys d) = length d) by (unfold PyDict.keys; by rewrite length_map).
  set (a := fresh_addr h).
  set (o0 := {| obj_class := cls'; obj_dict := ∅ |}).
  assert (Hfresh : h !! a = None).
  { apply (not_elem_of_dom (D := gset nat)). unfold a, fresh_addr. apply is_fresh. }
  exists a, (<[a := set_attrs o0 (zip (PyDict.keys d) vals)]> (<[a := o0]> h)),
    (set_attrs o0 (zip (PyDict.keys d) vals)).
  split.
  { unfold instantiate.
    rewrite (dataklass_type_getattr cls cls' w w' "__new__" Hd) by done.
    rewrite Hnew, type_getattr_unfold, Hf.
    fold a. fold o0.
    rewrite (call_init f (PyDict.keys d) vals (<[a := o0]> h) a o0);
      rewrite ?Hklen; try done; [|apply lookup_insert_eq].
    eapply Forall_impl; [exact Hfields|].
    intros name Hname. simpl. by apply (dataklass_can_store cls cls' w w'). }
  split; [done|]. split; [|split; [apply lookup_insert_eq|]].
  - intros b Hb. by rewrite !lookup_insert_ne.
  - intros name Hname. simpl. rewrite fold_insert_notin; [done|].
    by rewrite keys_zip by lia.
Qed.

Lemma constructor_frame_witness :
  exists cls' a h' o,
    fst (dataklass Coordinates world_init) = Ok cls'
    /\ instantiate cls' [VInt 2; VInt 3] [] ∅ = Ok (VRef a, h')
    /\ h' !! a = Some o
    /\ obj_dict o !! "z" = None.
Proof.
  destruct (dataklass Coordinates world_init) as [r w'] eqn:E.
  assert (Hr : exists cls', r = Ok cls').
  { replace r with (fst (dataklass Coordinates world_init)) by (by rewrite E).
    vm_compute. eauto. }
  destruct Hr as [cls' ->].
  destruct (constructor_frame Coordinates cls' world_init w'
              [("x", "int"); ("y", "int")] [VInt 2; VInt 3] ∅)
    as (a & h' & o & Hinst & _ & _ & Ho & Hdict).
  - apply cache_wf_init.
  - exact E.
  - reflexivity.
  - repeat split; reflexivity.
  - reflexivity.
  - repeat constructor.
  - reflexivity.
  - exists cls', a, h', o. split; [reflexivity|]. split; [exact Hinst|].
    split; [exact Ho|]. apply Hdict. simpl. intros H.
    repeat (apply elem_of_cons in H as [H|H]; [discriminate H|]).
    by apply elem_of_nil in H.
Defined.

(** ** The front end on the equality template *)

Lemma make__eq___text (names : list string) :
  Source.make__eq__ names
  = "def __eq__(self, other):" +:+ nl +:+
    "    if self.__class__ is other.__class__:" +:+ nl +:+
    "        return (" +:+ join "," (map (eq_item "self") names) +:+ ",) == (" +:+
    join "," (map (eq_item "other") names) +:+ ",)" +:+ nl +:+
    "    else:" +:+ nl +:+
    "        return NotImplemented" +:+ nl +:+
    "    ".
Proof. reflexivity. Qed.

Lemma lex_eq_item (T : list token) (I : list nat) (obj name : string) (l rest : string) :
  is_identifier obj -> is_identifier name ->
  lex_string {| lx_toks := T; lx_indents := I; lx_mode := Mid |}
    (eq_item obj name +:+ String "," l +:+ rest)
  = lex_string {| lx_toks := TComma :: TName name :: TDot :: TName obj :: T;
                  lx_indents := I; lx_mode := Mid |} (l +:+ rest).
Proof.
  intros Ho Hn. unfold eq_item. rewrite !append_assoc.
  lex_name. lex_name. done.
Qed.

Lemma lex_eq_items (names : list string) (T : list token) (I : list nat)
    (obj : string) (l rest : string) :
  names <> [] -> is_identifier obj -> Forall is_identifier names ->
  lex_string {| lx_toks := T; lx_indents := I; lx_mode := Mid |}
    (join "," (map (eq_item obj) names) +:+ String "," l +:+ rest)
  = lex_string {| lx_toks := rev (tuple_toks obj names) ++ T;
                  lx_indents := I; lx_mode := Mid |} (l +:+ rest).
Proof.
  intros Hne Ho Hall. revert T.
  induction names as [|n names IH]; intros T; [done|].
  apply Forall_cons in Hall as [Hn Hall].
  destruct names as [|n' names].
  - simpl join. by rewrite lex_eq_item.
  - change (join "," (map (eq_item obj) (n :: n' :: names)))
      with (eq_item obj n +:+ "," +:+ join "," (map (eq_item obj) (n' :: names))).
    rewrite !append_assoc.
    rewrite (lex_eq_item T I obj n "" _) by done.
    rewrite append_nil_l, IH by done.
    change (tuple_toks obj (n :: n' :: names))
      with ([TName obj; TDot; TName n; TComma] ++ tuple_toks obj (n' :: names)).
    rewrite rev_app_distr. by rewrite <- app_assoc.
Qed.

Lemma is_identifier_self : is_identifier "self".
Proof. exists "s"%char, "elf". by vm_compute. Qed.

Lemma is_identifier_other : is_identifier "other".
Proof. exists "o"%char, "ther". by vm_compute. Qed.

Lemma tokenize_eq (names : list string) :
  names <> [] -> Forall is_identifier names ->
  tokenize (Source.make__eq__ names) = Ok (eq_toks names).
Proof.
  intros Hne Hall. rewrite make__eq___text.
  unfold tokenize, lexer_init, nl.
  lex_lit. lex_lit. lex_lit. lex_lit. lex_lit.
  rewrite (lex_eq_items names _ _ "self" ") == (") by (done || apply is_identifier_self).
  lex_lit.
  rewrite (lex_eq_items names _ _ "other" ")") by (done || apply is_identifier_other).
  lex_lit. lex_lit. lex_lit. lex_lit. lex_lit. lex_lit. lex_lit.
  unfold lex_finish, lex_flush, rbind, eq_toks.
  cbn [lx_mode lx_toks lx_indents length].
  remember (tuple_toks "self" names) as A. remember (tuple_toks "other" names) as B.
  f_equal. change (repeat TDedent (3 - 1)) with [TDedent; TDedent].
  repeat first [rewrite rev_app_distr | rewrite rev_involutive
               | rewrite <- app_assoc | progress simpl].
  reflexivity.
Qed.

(** ** Parsing the equality *)

Lemma parse_field (fuel : nat) (obj a : string) (rest : list token) :
  4 <= fuel ->
  parse_expr fuel (TName obj :: TDot :: TName a :: TComma :: rest)
  = Ok (EAttr (EName obj) a, TComma :: rest).
Proof. intros H. destruct fuel as [|[|[|[|f]]]]; try lia. reflexivity. Qed.

Lemma parse_elems_fields (obj : string) (names : list string) (fuel : nat)
    (rest : list token) :
  length names + 5 <= fuel ->
  parse_elems fuel (tuple_toks obj names ++ TRParen :: rest)
  = Ok (fields_of obj names, rest).
Proof.
  revert fuel. induction names as [|n names IH]; intros fuel Hfuel;
    (destruct fuel as [|fuel]; [lia|]); [reflexivity|].
  change (tuple_toks obj (n :: names) ++ TRParen :: rest)
    with (TName obj :: TDot :: TName n :: TComma :: (tuple_toks obj names ++ TRParen :: rest)).
  cbn [parse_elems]. rewrite parse_field by (simpl in Hfuel; lia).
  cbn [rbind]. rewrite IH by (simpl in Hfuel; lia). reflexivity.
Qed.

Lemma parse_tuple (obj : string) (names : list string) (fuel : nat) (rest : list token) :
  names <> [] -> length names + 5 <= fuel ->
  parse_atom fuel (TLParen :: tuple_toks obj names ++ TRParen :: rest)
  = Ok (ETuple (fields_of obj names), rest).
Proof.
  intros Hne Hfuel. destruct names as [|n names]; [done|].
  destruct fuel as [|fuel]; [lia|].
  change (tuple_toks obj (n :: names) ++ TRParen :: rest)
    with (TName obj :: TDot :: TName n :: TComma :: (tuple_toks obj names ++ TRParen :: rest)).
  cbn [parse_atom]. rewrite parse_field by (simpl in Hfuel; lia).
  cbn [rbind]. rewrite parse_elems_fields by (simpl in Hfuel; lia). reflexivity.
Qed.

Lemma parse_return_tuples (names : list string) (fuel : nat) (rest : list token) :
  names <> [] -> length names + 8 <= fuel ->
  parse_stmt fuel
    (TKeyword "return" :: TLParen :: tuple_toks "self" names
     ++ TRParen :: TEqEq :: TLParen :: tuple_toks "other" names
     ++ TRParen :: TNewline :: rest)
  = Ok (SReturn (ECompare (ETuple (fields_of "self" names)) CmpEq
                   (ETuple (fields_of "other" names))), rest).
Proof.
  intros Hne Hfuel. destruct fuel as [|[|[|[|fuel]]]]; try lia.
  cbn [parse_stmt parse_expr parse_primary app].
  rewrite parse_tuple by (done || lia). cbn [rbind parse_trailers].
  rewrite parse_tuple by (done || lia). reflexivity.
Qed.

Lemma length_tuple_toks (obj : string) (names : list string) :
  length (tuple_toks obj names) = 4 * length names.
Proof.
  unfold tuple_toks. induction names as [|n names IH]; [done|].
  cbn [map concat]. rewrite length_app, IH. simpl. lia.
Qed.

Lemma parse_test (fuel : nat) (rest : list token) :
  4 <= fuel ->
  parse_expr fuel
    (TName "self" :: TDot :: TName "__class__" :: TKeyword "is"
     :: TName "other" :: TDot :: TName "__class__" :: TColon :: rest)
  = Ok (ECompare (EAttr (EName "self") "__class__") CmpIs
          (EAttr (EName "other") "__class__"), TColon :: rest).
Proof. intros H. destruct fuel as [|[|[|[|f]]]]; try lia. reflexivity. Qed.

Lemma parse_return_name (fuel : nat) (name : string) (rest : list token) :
  4 <= fuel ->
  parse_stmt fuel (TKeyword "return" :: TName name :: TNewline :: rest)
  = Ok (SReturn (EName name), rest).
Proof. intros H. destruct fuel as [|[|[|[|f]]]]; try lia. reflexivity. Qed.

Lemma parse_if_else (fuel : nat) (ts r1 r2 r3 : list token) (test : expr)
    (body orelse : list stmt) :
  parse_expr fuel ts = Ok (test, TColon :: r1) ->
  parse_suite fuel r1 = Ok (body, TKeyword "else" :: TColon :: r2) ->
  parse_suite fuel r2 = Ok (orelse, r3) ->
  parse_stmt (S fuel) (TKeyword "if" :: ts) = Ok (SIf test body orelse, r3).
Proof.
  intros H1 H2 H3. cbn [parse_stmt]. rewrite H1. cbn [rbind].
  rewrite H2. cbn [rbind]. by rewrite H3.
Qed.

Lemma parse_suite_single (fuel : nat) (ts rest : list token) (s : stmt) :
  parse_stmt fuel ts = Ok (s, TDedent :: rest) ->
  parse_suite (S (S fuel)) (TNewline :: TIndent :: ts) = Ok ([s], rest).
Proof. intros H. rewrite parse_suite_unfold. by apply parse_stmts_single. Qed.

Lemma parse_eq_fuel (names : list string) (fuel : nat) :
  names <> [] -> length names + 13 <= fuel ->
  parse_funcdef fuel (eq_toks names)
  = Ok {| fd_name := "__eq__"; fd_params := ["self"; "other"];
          fd_body := [eq_stmt names] |}.
Proof.
  intros Hne Hfuel. destruct fuel as [|[|[|[|[|fuel]]]]]; try lia.
  unfold eq_toks. cbn [app]. rewrite parse_funcdef_unfold.
  change (parse_params (TName "self" :: TComma :: TName "other" :: TRParen :: ?r))
    with (Ok (["self"; "other"], r)).
  cbn [rbind].
  erewrite parse_suite_single.
  2:{ eapply parse_if_else.
      - apply parse_test. lia.
      - apply parse_suite_single, parse_return_tuples; [done|lia].
      - apply parse_suite_single, parse_return_name. lia. }
  cbn [rbind]. by rewrite has_dup_false by (repeat constructor; set_solver).
Qed.

Lemma parse_eq (names : list string) :
  names <> [] ->
  parse_funcdef (8 * length (eq_toks names) + 8) (eq_toks names)
  = Ok {| fd_name := "__eq__"; fd_params := ["self"; "other"];
          fd_body := [eq_stmt names] |}.
Proof.
  intros Hne. apply parse_eq_fuel; [done|].
  unfold eq_toks. rewrite !length_app, !length_tuple_toks. simpl. lia.
Qed.

(** ** Compiling the equality *)

Lemma compile_tuple (vn : list string) (e : expr) (es : list expr) (cs : cstate) :
  compile_expr vn (ETuple (e :: es)) cs
  = rbind (compile_exprs vn (e :: es) cs) (fun cs =>
      Ok (emit (BUILD_TUPLE (length (e :: es))) cs)).
Proof. reflexivity. Qed.

Lemma compile_if (vn : list string) (test : expr) (body orelse : list stmt) (cs : cstate) :
  ends_with_return body = true ->
  compile_stmt vn (SIf test body orelse) cs
  = rbind (compile_expr vn test cs) (fun cs1 =>
      rbind (compile_body vn body (emit (POP_JUMP_IF_FALSE 0) cs1)) (fun cs2 =>
        compile_body vn orelse (set_jump (length (cs_code cs1)) (length (cs_code cs2)) cs2))).
Proof.
  intros H.
  transitivity
    (if ends_with_return body || bool_decide (orelse = [])
     then rbind (compile_expr vn test cs) (fun cs1 =>
            rbind (compile_body vn body (emit (POP_JUMP_IF_FALSE 0) cs1)) (fun cs2 =>
              compile_body vn orelse
                (set_jump (length (cs_code cs1)) (length (cs_code cs2)) cs2)))
     else Unsupported); [reflexivity|by rewrite H].
Qed.

Lemma load_fields_S (v start count : nat) :
  load_fields v start (S count)
  = [LOAD_FAST v; LOAD_ATTR (S start)] ++ load_fields v (S start) count.
Proof. reflexivity. Qed.

Lemma length_load_fields (v start count : nat) :
  length (load_fields v start count) = 2 * count.
Proof.
  revert start. induction count as [|count IH]; intros start; [done|].
  rewrite load_fields_S, length_app, IH. simpl. lia.
Qed.

Lemma compile_self_fields (vn : list string) (hd : string) (pre rest : list string)
    (K : list const) (C : list instr) :
  index_of "self" vn = Some 0 ->
  NoDup (hd :: pre ++ rest) ->
  compile_exprs vn (fields_of "self" rest)
    {| cs_names := hd :: pre; cs_consts := K; cs_code := C |}
  = Ok {| cs_names := hd :: pre ++ rest; cs_consts := K;
          cs_code := C ++ load_fields 0 (length pre) (length rest) |}.
Proof.
  intros Hself. revert pre C. induction rest as [|y rest IH]; intros pre C Hnd.
  - simpl. unfold load_fields. simpl. by rewrite !app_nil_r.
  - cbn [fields_of map compile_exprs compile_expr].
    rewrite Hself. cbn [rbind].
    unfold emit_name, emit. cbn [cs_names cs_consts cs_code].
    rewrite (proj2 (index_of_None y (hd :: pre))).
    2:{ rewrite app_comm_cons in Hnd. apply NoDup_app in Hnd as (_ & Hdisj & _).
        intros Hin. apply (Hdisj y Hin). left. }
    cbn [rbind cs_names cs_consts cs_code].
    change ((hd :: pre) ++ [y]) with (hd :: (pre ++ [y])).
    fold (fields_of "self" rest).
    rewrite (IH (pre ++ [y])) by (by rewrite <- app_assoc).
    f_equal. f_equal; [by rewrite <- app_assoc|].
    rewrite length_app. cbn [length]. rewrite Nat.add_1_r, load_fields_S.
    by rewrite <- !app_assoc.
Qed.

Lemma compile_other_fields (pre rest : list string) (K : list const) (C : list instr) :
  NoDup ("__class__" :: pre ++ rest) ->
  compile_exprs ["self"; "other"] (fields_of "other" rest)
    {| cs_names := "__class__" :: pre ++ rest; cs_consts := K; cs_code := C |}
  = Ok {| cs_names := "__class__" :: pre ++ rest; cs_consts := K;
          cs_code := C ++ load_fields 1 (length pre) (length rest) |}.
Proof.
  revert pre C. induction rest as [|y rest IH]; intros pre C Hnd.
  - simpl. unfold load_fields. simpl. by rewrite !app_nil_r.
  - cbn [fields_of map compile_exprs compile_expr].
    change (index_of "other" ["self"; "other"]) with (Some 1). cbn [rbind].
    unfold emit_name, emit. cbn [cs_names cs_consts cs_code].
    change ("__class__" :: pre ++ y :: rest) with (("__class__" :: pre) ++ y :: rest).
    rewrite (index_of_middle y ("__class__" :: pre) rest).
    2:{ rewrite app_comm_cons in Hnd. apply NoDup_app in Hnd as (_ & Hdisj & _).
        intros Hin. apply (Hdisj y Hin). left. }
    cbn [rbind cs_names cs_consts cs_code].
    fold (fields_of "other" rest).
    change (("__class__" :: pre) ++ y :: rest) with ("__class__" :: pre ++ y :: rest).
    replace (pre ++ y :: rest) with ((pre ++ [y]) ++ rest) by (by rewrite <- app_assoc).
    rewrite (IH (pre ++ [y])) by (by rewrite <- app_assoc).
    f_equal. f_equal.
    rewrite length_app. cbn [length]. rewrite Nat.add_1_r, load_fields_S.
    by rewrite <- !app_assoc.
Qed.

Lemma compile_compare (vn : list string) (l r : expr) (op : cmp_op) (cs : cstate) :
  compile_expr vn (ECompare l op r) cs
  = rbind (compile_expr vn l cs) (fun cs1 =>
      rbind (compile_expr vn r cs1) (fun cs2 => Ok (emit (COMPARE_OP op) cs2))).
Proof. reflexivity. Qed.

Lemma compile_return_tuples (names : list string) (K : list const) (C : list instr) :
  names <> [] -> NoDup ("__class__" :: names) ->
  compile_body ["self"; "other"]
    [SReturn (ECompare (ETuple (fields_of "self" names)) CmpEq
                (ETuple (fields_of "other" names)))]
    {| cs_names := ["__class__"]; cs_consts := K; cs_code := C |}
  = Ok {| cs_names := "__class__" :: names; cs_consts := K;
          cs_code := C ++ load_fields 0 0 (length names) ++ [BUILD_TUPLE (length names)]
                     ++ load_fields 1 0 (length names)
                     ++ [BUILD_TUPLE (length names); COMPARE_OP CmpEq; RETURN_VALUE] |}.
Proof.
  intros Hne Hnd.
  assert (Hself : forall cs,
            compile_expr ["self"; "other"] (ETuple (fields_of "self" names)) cs
            = rbind (compile_exprs ["self"; "other"] (fields_of "self" names) cs) (fun cs =>
                Ok (emit (BUILD_TUPLE (length names)) cs))).
  { intros cs. destruct names as [|n names]; [done|].
    unfold fields_of. cbn [map]. rewrite compile_tuple. cbn [length].
    by rewrite length_map. }
  assert (Hother : forall cs,
            compile_expr ["self"; "other"] (ETuple (fields_of "other" names)) cs
            = rbind (compile_exprs ["self"; "other"] (fields_of "other" names) cs) (fun cs =>
                Ok (emit (BUILD_TUPLE (length names)) cs))).
  { intros cs. destruct names as [|n names]; [done|].
    unfold fields_of. cbn [map]. rewrite compile_tuple. cbn [length].
    by rewrite length_map. }
  cbn [compile_body compile_stmt].
  rewrite compile_compare.
  rewrite Hself, (compile_self_fields _ "__class__" [] names) by done. cbn [rbind].
  unfold emit at 1. cbn [cs_names cs_consts cs_code app length].
  rewrite Hother, (compile_other_fields [] names) by done. cbn [rbind].
  unfold emit. cbn [cs_names cs_consts cs_code app length].
  by rewrite <- !app_assoc.
Qed.

Lemma compile_eq_body (names : list string) :
  names <> [] -> NoDup ("__class__" :: names ++ ["NotImplemented"]) ->
  compile_body ["self"; "other"] [eq_stmt names]
    {| cs_names := []; cs_consts := [KNone]; cs_code := [] |}
  = Ok {| cs_names := "__class__" :: names ++ ["NotImplemented"];
          cs_consts := [KNone];
          cs_code := [LOAD_FAST 0; LOAD_ATTR 0; LOAD_FAST 1; LOAD_ATTR 0; COMPARE_OP CmpIs;
                      POP_JUMP_IF_FALSE (4 * length names + 10)]
                     ++ load_fields 0 0 (length names) ++ [BUILD_TUPLE (length names)]
                     ++ load_fields 1 0 (length names)
                     ++ [BUILD_TUPLE (length names); COMPARE_OP CmpEq; RETURN_VALUE;
                         LOAD_GLOBAL (S (length names)); RETURN_VALUE] |}.
Proof.
  intros Hne Hnd.
  assert (Hnd' : NoDup ("__class__" :: names)).
  { rewrite app_comm_cons in Hnd. by apply NoDup_app in Hnd as (? & _ & _). }
  assert (Hni : "NotImplemented" ∉ "__class__" :: names).
  { rewrite app_comm_cons in Hnd. apply NoDup_app in Hnd as (_ & Hdisj & _).
    intros Hin. apply (Hdisj _ Hin). left. }
  unfold eq_stmt. cbn [compile_body]. rewrite compile_if by reflexivity.
  change (compile_expr ["self"; "other"]
            (ECompare (EAttr (EName "self") "__class__") CmpIs
               (EAttr (EName "other") "__class__"))
            {| cs_names := []; cs_consts := [KNone]; cs_code := [] |})
    with (Ok {| cs_names := ["__class__"]; cs_consts := [KNone];
                cs_code := [LOAD_FAST 0; LOAD_ATTR 0; LOAD_FAST 1; LOAD_ATTR 0;
                            COMPARE_OP CmpIs] |}).
  cbn [rbind]. unfold emit at 1. cbn [cs_names cs_consts cs_code app].
  rewrite compile_return_tuples by done. cbn [rbind cs_code app length].
  unfold set_jump. cbn [cs_names cs_consts cs_code].
  cbn [compile_body compile_stmt compile_expr].
  change (index_of "NotImplemented" ["self"; "other"]) with (@None nat).
  cbn [rbind]. unfold emit_name, emit. cbn [cs_names cs_consts cs_code].
  rewrite (proj2 (index_of_None _ _) Hni). cbn [cs_names cs_consts cs_code rbind].
  match goal with
  | |- context [POP_JUMP_IF_FALSE (S ?t)] =>
      replace (S t) with (4 * length names + 10)
        by (rewrite !length_app, !length_load_fields; cbn [length];
            rewrite !length_app, !length_load_fields; cbn [length]; lia)
  end.
  change (<[5:=?x]> (?a :: ?b :: ?c :: ?d :: ?e :: ?f :: ?l))
    with (a :: b :: c :: d :: e :: x :: l).
  cbn [app length]. f_equal. f_equal.
  repeat (rewrite <- app_assoc; cbn [app]). reflexivity.
Qed.

Lemma ends_with_return_eq (names : list string) : ends_with_return [eq_stmt names] = false.
Proof. reflexivity. Qed.

(** The equality template, for any list of distinct names that differ
    from the two names the template itself uses. *)
Lemma exec_def_eq (names : list string) :
  names <> [] -> Forall is_identifier names ->
  NoDup ("__class__" :: names ++ ["NotImplemented"]) ->
  exists c,
    exec_def (Source.make__eq__ names) = Ok c
    /\ co_code c = eq_code (length names)
    /\ co_names c = "__class__" :: names ++ ["NotImplemented"]
    /\ co_varnames c = ["self"; "other"]
    /\ co_consts c = [KNone]
    /\ co_argcount c = 2
    /\ co_kwonlyargcount c = 0
    /\ co_nlocals c = 2.
Proof.
  intros Hne Hall Hnd. unfold exec_def, parse_module.
  rewrite tokenize_eq by done. cbn [rbind].
  rewrite parse_eq by done. cbn [rbind].
  unfold compile_funcdef. cbn [fd_params fd_body fd_name].
  rewrite compile_eq_body by done. cbn [rbind].
  rewrite ends_with_return_eq.
  eexists. split; [reflexivity|]. cbn.
  split; [|done]. unfold eq_code.
  repeat (rewrite <- app_assoc; cbn [app]). reflexivity.
Qed.

Lemma placeholders_not_eq_names (n : nat) :
  NoDup ("__class__" :: placeholders n ++ ["NotImplemented"]).
Proof.
  pose proof (placeholders_NoDup n) as [_ Hnd]%NoDup_cons.
  assert (Hni : "NotImplemented" ∉ placeholders n).
  { intros Hin. unfold placeholders in Hin.
    apply list_elem_of_fmap in Hin as (i & Hi & _). discriminate Hi. }
  apply NoDup_cons. split.
  - intros [Hin|Hin]%elem_of_app.
    + unfold placeholders in Hin. apply list_elem_of_fmap in Hin as (i & Hi & _).
      unfold placeholder in Hi. rewrite append_cons, append_nil_l in Hi.
      injection Hi as Hi.
      apply (f_equal NilEmpty.uint_of_string) in Hi. rewrite NilEmpty.usu in Hi.
      discriminate Hi.
    + apply list_elem_of_singleton in Hin. discriminate Hin.
  - apply NoDup_app. split; [done|]. split; [|apply NoDup_singleton].
    intros x Hx ->%list_elem_of_singleton. done.
Qed.

(** The equality template of every arity but 0. *)
Lemma exec_def_make__eq__ (n : nat) :
  0 < n ->
  exists c,
    exec_def (template_source F_eq (placeholders n)) = Ok c
    /\ co_code c = eq_code n
    /\ co_names c = "__class__" :: placeholders n ++ ["NotImplemented"]
    /\ co_varnames c = ["self"; "other"]
    /\ co_consts c = [KNone]
    /\ co_argcount c = 2
    /\ co_kwonlyargcount c = 0
    /\ co_nlocals c = 2.
Proof.
  intros Hn.
  destruct (exec_def_eq (placeholders n)) as (c & Hc);
    [by apply placeholders_nonempty|apply placeholders_identifiers
    |apply placeholders_not_eq_names|].
  rewrite length_placeholders in Hc. by exists c.
Qed.

(** The equality method the decorator attaches. *)
Lemma dataklass_eq_code (cls cls' : pyclass) (w w' : world) :
  cache_wf w ->
  dataklass cls w = (Ok cls', w') ->
  cls_vars cls !! "__eq__" = None ->
  exists d f,
    all_hints cls = Ok d
    /\ d <> []
    /\ cls_vars cls' !! "__eq__" = Some (AFunc f)
    /\ co_code (fn_code f) = eq_code (length d)
    /\ co_names (fn_code f) = "__class__" :: PyDict.keys d
    /\ co_consts (fn_code f) = [KNone]
    /\ co_argcount (fn_code f) = 2
    /\ co_nlocals (fn_code f) = 2.
Proof.
  intros Hwf Hd Hnone.
  destruct (dataklass_attached_code cls cls' w w' F_eq Hwf Hd) as (_ & d & f & t & Hh & Hf & Ht & Hc);
    [right; right; left|done|].
  exists d, f. split; [done|].
  destruct d as [|kv d].
  { exfalso. cbn [length] in Ht. rewrite exec_def_eq_no_fields in Ht. discriminate. }
  split; [done|]. split; [done|].
  destruct (exec_def_make__eq__ (length (kv :: d))) as (c & Hc' & Hcode & Hn & Hv & Hk & Ha & Hkw & Hnl);
    [simpl; lia|].
  rewrite Hc' in Ht. injection Ht as <-. rewrite Hc. simpl.
  by rewrite Hcode, Hk, Ha, Hnl, Hn.
Qed.

(** ** Running the equality *)













(** X18. The equality method attached to a class of [n] fields keeps
    the instruction that loads the name of index [n + 1], while the
    specializer has written [n + 1] names, [__class__] and the fields:
    for every class and every number of fields, the name
    [NotImplemented] of the template is gone. *)
Theorem eq_method_dangling_name (cls cls' : pyclass) (w w' : world) :
  cache_wf w ->
  dataklass cls w = (Ok cls', w') ->
  cls_vars cls !! "__eq__" = None ->
  exists d f t,
    all_hints cls = Ok d
    /\ cls_vars cls' !! "__eq__" = Some (AFunc f)
    /\ exec_def (template_source F_eq (placeholders (length d))) = Ok t
    /\ co_names t !! S (length d) = Some "NotImplemented"
    /\ co_code (fn_code f) = co_code t
    /\ LOAD_GLOBAL (S (length d)) ∈ co_code (fn_code f)
    /\ co_names (fn_code f) = "__class__" :: PyDict.keys d
    /\ co_names (fn_code f) !! S (length d) = None.
Proof.
  intros Hwf Hd Hnone.
  destruct (dataklass_eq_code cls cls' w w' Hwf Hd Hnone)
    as (d & f & Hh & Hne & Hf & Hcode & Hnames & _ & _ & _).
  assert (Hklen : length (PyDict.keys d) = length d) by (unfold PyDict.keys; by rewrite length_map).
  destruct (exec_def_make__eq__ (length d)) as (t & Ht & Htcode & Htnames & _).
  { destruct d; [done|simpl; lia]. }
  exists d, f, t. split; [done|]. split; [done|]. split; [exact Ht|].
  split.
  { rewrite Htnames.
    change (("__class__" :: placeholders (length d) ++ ["NotImplemented"]) !! S (length d))
      with ((placeholders (length d) ++ ["NotImplemented"]) !! length d).
    rewrite lookup_app_r by (by rewrite length_placeholders).
    by rewrite length_placeholders, Nat.sub_diag. }
  split; [by rewrite Hcode, Htcode|].
  split.
  { rewrite Hcode. unfold eq_code. rewrite !elem_of_app. do 4 right.
    do 3 right. left. }
  split; [done|]. rewrite Hnames.
  apply lookup_ge_None_2. cbn [length]. lia.
Qed.

Lemma eq_method_dangling_name_witness :
  exists cls' f,
    fst (dataklass Coordinates world_init) = Ok cls'
    /\ cls_vars cls' !! "__eq__" = Some (AFunc f)
    /\ LOAD_GLOBAL 3 ∈ co_code (fn_code f)
    /\ co_names (fn_code f) = ["__class__"; "x"; "y"].
Proof.
  destruct (dataklass Coordinates world_init) as [r w'] eqn:E.
  assert (Hr : exists cls', r = Ok cls').
  { replace r with (fst (dataklass Coordinates world_init)) by (by rewrite E).
    vm_compute. eauto. }
  destruct Hr as [cls' ->].
  destruct (eq_method_dangling_name Coordinates cls' world_init w' cache_wf_init E eq_refl)
    as (d & f & t & Hh & Hf & _ & _ & _ & Hin & Hnames & _).
  injection Hh as <-.
  exists cls', f. split; [reflexivity|]. split; [exact Hf|]. split; [exact Hin|exact Hnames].
Defined.

(** ** The decorator returns *)

Lemma patch_args_and_attributes_ok (t : pyfunc) (fields : list string) (start : nat)
    (w : world) :
  co_argcount (fn_code t) + co_kwonlyargcount (fn_code t) <= S (length fields) ->
  patch_args_and_attributes t fields start w
  = (Ok {| fn_id := w_next_id w;
           fn_code := with_varnames
                        (with_names (fn_code t) (take start (co_names (fn_code t)) ++ fields))
                        ("self" :: fields);
           fn_globals := fn_globals t |},
     {| w_next_id := S (w_next_id w); w_cache := w_cache w; w_exec_log := w_exec_log w |}).
Proof.
  intros Hlen. unfold patch_args_and_attributes. rewrite code_replace_names_varnames.
  cbn [length].
  destruct (Nat.ltb_spec (S (length fields))
              (co_argcount (fn_code t) + co_kwonlyargcount (fn_code t))); [lia|].
  reflexivity.
Qed.

(** Attaching one method, where its template compiles and has no more
    arguments than the specializer names. *)
Lemma attach_total (fam : family) (cls0 : pyclass) (n : nat) (fields : list string)
    (w0 : world) (c : code) :
  cache_wf w0 ->
  exec_def (template_source fam (placeholders n)) = Ok c ->
  co_argcount c + co_kwonlyargcount c
  <= match fam with F_init => S (length fields) | _ => length (co_varnames c) end ->
  exists c1 w1,
    (if negb (in_clsdict (family_attr fam) cls0)
     then let* t := codegen fam n in
          let* f := specialize fam t fields in
          ret (cls_setattr cls0 (family_attr fam) (AFunc f))
     else ret cls0) w0 = (Ok c1, w1)
    /\ cache_wf w1.
Proof.
  intros Hwf Hc Hlen.
  destruct (in_clsdict (family_attr fam) cls0); cbn [negb]; [by exists cls0, w0|].
  destruct (codegen_succeeds fam n w0 c Hwf Hc) as (t & w1 & Ht & Hcode & Hwf1).
  clear Hc. subst c.
  rewrite (bind_step _ _ w0 w1 t Ht).
  destruct fam; cbn [specialize];
    (eexists _, _; split;
     [erewrite bind_step;
      [reflexivity|first [apply patch_args_and_attributes_ok; exact Hlen
                         |apply patch_attributes_ok; exact Hlen]]
     |by apply cache_wf_next_id]).
Qed.

(** X19. For a class with at least one field the decorator returns,
    in every state of the process that the templates' caches can
    reach: the three templates compile for every arity but 0, and the
    specializer accepts them. *)
Theorem dataklass_returns (cls : pyclass) (w : world) (d : list (string * string)) :
  cache_wf w ->
  all_hints cls = Ok d ->
  d <> [] ->
  exists cls' w', dataklass cls w = (Ok cls', w') /\ cache_wf w'.
Proof.
  intros Hwf Hh Hne.
  assert (Hn : 0 < length d) by (destruct d; [done|simpl; lia]).
  assert (Hklen : length (PyDict.keys d) = length d) by (unfold PyDict.keys; by rewrite length_map).
  assert (Hstart : dataklass cls w
            = (let* c1 := (if negb (in_clsdict (family_attr F_init) cls)
                           then let* t := codegen F_init (length d) in
                                let* f := specialize F_init t (PyDict.keys d) in
                                ret (cls_setattr cls (family_attr F_init) (AFunc f))
                           else ret cls) in
               let* c2 := (if negb (in_clsdict (family_attr F_repr) c1)
                           then let* t := codegen F_repr (length d) in
                                let* f := specialize F_repr t (PyDict.keys d) in
                                ret (cls_setattr c1 (family_attr F_repr) (AFunc f))
                           else ret c1) in
               let* c3 := (if negb (in_clsdict (family_attr F_eq) c2)
                           then let* t := codegen F_eq (length d) in
                                let* f := specialize F_eq t (PyDict.keys d) in
                                ret (cls_setattr c2 (family_attr F_eq) (AFunc f))
                           else ret c2) in
               ret (cls_setattr c3 "__match_args__" (ANames (PyDict.keys d)))) w).
  { unfold dataklass.
    by rewrite (bind_step _ _ w w _ (f_equal (fun r => (r, w)) Hh)). }
  rewrite Hstart. clear Hstart.
  destruct (exec_def_make__init__ (length d) Hn) as (ci & Hci & _ & _ & _ & _ & Hai & Hki & _).
  destruct (attach_total F_init cls (length d) (PyDict.keys d) w ci Hwf Hci)
    as (c1 & w1 & H1 & Hwf1); [rewrite Hai, Hki, Hklen; lia|].
  clear Hci.
  destruct (exec_def_make__repr__ (length d)) as (cr & Hcr & _ & _ & Hvr & _ & Har & Hkr & _).
  destruct (attach_total F_repr c1 (length d) (PyDict.keys d) w1 cr Hwf1 Hcr)
    as (c2 & w2 & H2 & Hwf2); [rewrite Har, Hkr, Hvr; simpl; lia|].
  clear Hcr.
  destruct (exec_def_make__eq__ (length d) Hn) as (ce & Hce & _ & _ & Hve & _ & Hae & Hke & _).
  destruct (attach_total F_eq c2 (length d) (PyDict.keys d) w2 ce Hwf2 Hce)
    as (c3 & w3 & H3 & Hwf3); [rewrite Hae, Hke, Hve; simpl; lia|].
  clear Hce.
  rewrite (bind_step _ _ w w1 c1 H1), (bind_step _ _ w1 w2 c2 H2), (bind_step _ _ w2 w3 c3 H3).
  eexists _, _. split; [reflexivity|exact Hwf3].
Qed.

Lemma dataklass_returns_witness :
  exists cls' w', dataklass Derived world_init = (Ok cls', w') /\ cache_wf w'.
Proof.
  apply (dataklass_returns Derived world_init [("x", "int"); ("y", "str"); ("z", "float")]).
  - apply cache_wf_init.
  - reflexivity.
  - discriminate.
Defined.

(** ** Classes of the same arity share their templates *)

Lemma preserves_dataklass_arity (I : world -> Prop) (cls : pyclass) :
  (forall d fam, all_hints cls = Ok d -> fam ∈ attached_families ->
     preserves I (codegen fam (length d))) ->
  (forall c g, preserves I (new_function c g)) ->
  preserves I (dataklass cls).
Proof.
  intros Hgen Hnew.
  assert (Hi : F_init ∈ attached_families) by left.
  assert (Hr : F_repr ∈ attached_families) by (right; left).
  assert (He : F_eq ∈ attached_families) by (right; right; left).
  intros w Hw. unfold dataklass. unfold bind at 1. unfold lift at 1.
  destruct (all_hints cls) as [d| | |] eqn:Hh; try exact Hw.
  cbv zeta. revert w Hw.
  apply (preserves_bind I); [|intros c1].
  { apply preserves_if; [|apply preserves_ret].
    apply preserves_bind; [by apply (Hgen d F_init)|intros t].
    apply preserves_bind; [|intros f; apply preserves_ret].
    apply preserves_bind; [apply preserves_lift|intros c; apply Hnew]. }
  apply preserves_bind; [|intros c2].
  { apply preserves_if; [|apply preserves_ret].
    apply preserves_bind; [by apply (Hgen d F_repr)|intros t].
    apply preserves_bind; [|intros f; apply preserves_ret].
    apply preserves_bind; [apply preserves_lift|intros c; apply Hnew]. }
  apply preserves_bind; [|intros c3; apply preserves_ret].
  apply preserves_if; [|apply preserves_ret].
  apply preserves_bind; [by apply (Hgen d F_eq)|intros t].
  apply preserves_bind; [|intros f; apply preserves_ret].
  apply preserves_bind; [apply preserves_lift|intros c; apply Hnew].
Qed.

Lemma lru_find_touch (n : nat) (f : pyfunc) (c : list (nat * pyfunc)) :
  lru_find n (lru_touch n f c) = Some f.
Proof. unfold lru_touch. simpl. by rewrite Nat.eqb_refl. Qed.

Lemma lru_find_add (n : nat) (f : pyfunc) (c : list (nat * pyfunc)) :
  lru_find n (lru_add n f c) = Some f.
Proof. unfold lru_add, lru_maxsize. simpl. by rewrite Nat.eqb_refl. Qed.

(** After a request that returned, the template is in the cache of
    its family. *)
Lemma codegen_cached (fam : family) (n : nat) (w w' : world) (t : pyfunc) :
  codegen fam n w = (Ok t, w') ->
  lru_find n (w_cache w' fam) = Some t
  /\ forall g, g <> fam -> w_cache w' g = w_cache w g.
Proof.
  intros H. destruct (codegen_effect fam n w) as [Hother Hself].
  rewrite H in Hother, Hself. cbn [fst snd] in *. split; [|exact Hother].
  destruct (lru_find n (w_cache w fam)) as [f|].
  - destruct Hself as ([= ->] & -> & _). apply lru_find_touch.
  - destruct Hself as (_ & -> & _). apply lru_find_add.
Qed.

Lemma specialize_cache (fam : family) (t f : pyfunc) (fields : list string) (w w' : world) :
  specialize fam t fields w = (Ok f, w') -> w_cache w' = w_cache w.
Proof.
  assert (Hgen : forall r g, (let* c' := lift r in new_function c' g) w = (Ok f, w') ->
                             w_cache w' = w_cache w).
  { intros r g (c' & w2 & [_ ->]%lift_ok & [_ Hc]%new_function_ok)%bind_ok. exact Hc. }
  destruct fam; cbn [specialize]; unfold patch_args_and_attributes, patch_attributes;
    apply Hgen.
Qed.

Lemma synthesize_cached (fam : family) (fields : list string) (w w' : world) (f : pyfunc) :
  synthesize fam fields w = (Ok f, w') ->
  is_Some (lru_find (length fields) (w_cache w' fam))
  /\ forall g, g <> fam -> w_cache w' g = w_cache w g.
Proof.
  intros (t & w1 & Ht & Hf)%bind_ok.
  apply codegen_cached in Ht as [Hfind Hother].
  apply specialize_cache in Hf. rewrite Hf. split; [eauto|exact Hother].
Qed.

(** A class that defines none of the three methods itself leaves the
    three templates of its arity in the caches. *)
Lemma dataklass_has_templates (cls cls' : pyclass) (w w' : world) (d : list (string * string)) :
  dataklass cls w = (Ok cls', w') ->
  all_hints cls = Ok d ->
  (forall fam, fam ∈ attached_families -> cls_vars cls !! family_attr fam = None) ->
  has_templates (length d) w'.
Proof.
  intros Hd Hh Hnone.
  destruct (dataklass_inv _ _ _ _ Hd) as (d' & c1 & c2 & c3 & w1 & w2 & Hh' & H1 & H2 & H3 & _).
  rewrite Hh in Hh'. injection Hh' as <-.
  assert (Hklen : length (PyDict.keys d) = length d) by (unfold PyDict.keys; by rewrite length_map).
  assert (Ni : cls_vars cls !! "__init__" = None) by (apply (Hnone F_init); left).
  assert (Nr : cls_vars cls !! "__repr__" = None) by (apply (Hnone F_repr); right; left).
  assert (Ne : cls_vars cls !! "__eq__" = None) by (apply (Hnone F_eq); right; right; left).
  destruct H1 as [([? ?] & _)|(_ & f1 & S1 & ->)]; [congruence|].
  destruct H2 as [([? Hs] & _)|(_ & f2 & S2 & ->)].
  { rewrite cls_vars_setattr, lookup_insert_ne in Hs by done. congruence. }
  destruct H3 as [([? Hs] & _)|(_ & f3 & S3 & _)].
  { rewrite !cls_vars_setattr, !lookup_insert_ne in Hs by done. congruence. }
  apply synthesize_cached in S1 as [C1 O1], S2 as [C2 O2], S3 as [C3 O3].
  rewrite Hklen in C1, C2, C3.
  intros fam Hfam. unfold attached_families in Hfam.
  apply elem_of_cons in Hfam as [->|Hfam]; [|apply elem_of_cons in Hfam as [->|Hfam];
    [|apply list_elem_of_singleton in Hfam as ->]].
  - by rewrite O3, O2.
  - by rewrite O3.
  - done.
Qed.

Lemma codegen_keeps_templates (n : nat) (L : list (family * nat)) (fam : family) :
  fam ∈ attached_families ->
  preserves (fun w => has_templates n w /\ w_exec_log w = L) (codegen fam n).
Proof.
  intros Hfam w [Hw HL].
  destruct (Hw fam Hfam) as [t Ht].
  destruct (codegen_effect fam n w) as [Hother Hself].
  rewrite Ht in Hself. destruct Hself as (_ & Hc & Hlog).
  split; [|congruence].
  intros g Hg. destruct (family_eqb_spec g fam) as [->|Hne].
  - rewrite Hc, lru_find_touch. eauto.
  - rewrite Hother by done. by apply Hw.
Qed.

(** X20. Classes with the same number of fields share the compiled
    templates: after a class that defines none of the three methods
    itself has been decorated, decorating any class with as many
    fields runs [exec] not once. *)
Theorem dataklass_shares_templates (cls1 cls1' cls2 : pyclass) (w w1 : world)
    (d1 d2 : list (string * string)) :
  dataklass cls1 w = (Ok cls1', w1) ->
  all_hints cls1 = Ok d1 ->
  (forall fam, fam ∈ attached_families -> cls_vars cls1 !! family_attr fam = None) ->
  all_hints cls2 = Ok d2 ->
  length d2 = length d1 ->
  w_exec_log (snd (dataklass cls2 w1)) = w_exec_log w1.
Proof.
  intros Hd Hh1 Hnone Hh2 Hlen.
  pose proof (dataklass_has_templates cls1 cls1' w w1 d1 Hd Hh1 Hnone) as Ht.
  apply (preserves_dataklass_arity
           (fun w0 => has_templates (length d1) w0 /\ w_exec_log w0 = w_exec_log w1) cls2).
  - intros d fam Hh Hfam. rewrite Hh2 in Hh. injection Hh as <-. rewrite Hlen.
    by apply codegen_keeps_templates.
  - intros c g w0 Hw0. exact Hw0.
  - by split.
Qed.

Lemma dataklass_shares_templates_witness :
  exists c1 w1,
    dataklass Coordinates world_init = (Ok c1, w1)
    /\ w_exec_log (snd (dataklass (Class 6 "Size" {[ "__annotations__" :=
                         AAnnotations [("w", "int"); ("h", "int")] ]} []) w1))
       = w_exec_log w1.
Proof.
  destruct (dataklass Coordinates world_init) as [r w1] eqn:E.
  assert (Hr : exists c1, r = Ok c1).
  { replace r with (fst (dataklass Coordinates world_init)) by (by rewrite E).
    vm_compute. eauto. }
  destruct Hr as [c1 ->]. exists c1, w1. split; [reflexivity|].
  apply (dataklass_shares_templates Coordinates c1 _ world_init w1
           [("x", "int"); ("y", "int")] [("w", "int"); ("h", "int")] E).
  - reflexivity.
  - intros fam _. by destruct fam.
  - reflexivity.
  - reflexivity.
Defined.

(** ** Instances of subclasses *)

(** X21. The representation names the class of the instance, not the
    decorated class: for an instance of any class whose [__repr__] is
    the one the decorator attached, a subclass for one, the text
    starts with the name of that class. *)
Theorem repr_of_subclass_instance (cls cls' : pyclass) (w w' : world)
    (d : list (string * string)) (h : heap) (a : nat) (o : object) (reprs : list string) :
  cache_wf w ->
  dataklass cls w = (Ok cls', w') ->
  cls_vars cls !! "__repr__" = None ->
  all_hints cls = Ok d ->
  h !! a = Some o ->
  type_getattr (obj_class o) "__repr__" = type_getattr cls' "__repr__" ->
  Forall2 (fun name s => exists v, load_attr h (VRef a) name = Ok v /\ py_repr v = Some s)
    (PyDict.keys d) reprs ->
  repr_of h (VRef a) = Ok (cls_name (obj_class o) +:+ "(" +:+ join ", " reprs +:+ ")").
Proof.
  intros Hwf Hd Hnone Hhints Ha Hget Hfields.
  destruct (dataklass_repr_code cls cls' w w' Hwf Hd Hnone)
    as (d' & f & Hh' & Hf & Hcode & Hnames & Hconsts & Hargs & Hnl).
  rewrite Hhints in Hh'. injection Hh' as <-.
  assert (Hklen : length (PyDict.keys d) = length d) by (unfold PyDict.keys; by rewrite length_map).
  unfold repr_of. rewrite Ha, Hget, type_getattr_unfold, Hf.
  rewrite (call_repr f (PyDict.keys d) reprs h a o); rewrite ?Hklen; done.
Qed.

Lemma repr_of_subclass_instance_witness :
  exists cls',
    fst (dataklass Coordinates world_init) = Ok cls'
    /\ repr_of {[ 0 := {| obj_class := subclass_of cls';
                          obj_dict := {[ "x" := VInt 2; "y" := VInt 3 ]} |} ]} (VRef 0)
       = Ok "Point3(2, 3)".
Proof.
  destruct (dataklass Coordinates world_init) as [r w'] eqn:E.
  assert (Hr : exists cls', r = Ok cls').
  { replace r with (fst (dataklass Coordinates world_init)) by (by rewrite E).
    vm_compute. eauto. }
  destruct Hr as [cls' ->]. exists cls'. split; [reflexivity|].
  apply (repr_of_subclass_instance Coordinates cls' world_init w'
           [("x", "int"); ("y", "int")] _ 0
           {| obj_class := subclass_of cls'; obj_dict := {[ "x" := VInt 2; "y" := VInt 3 ]} |}
           ["2"; "3"]).
  - apply cache_wf_init.
  - exact E.
  - reflexivity.
  - reflexivity.
  - reflexivity.
  - reflexivity.
  - repeat constructor.
    + exists (VInt 2). split; [|reflexivity].
      eapply (dataklass_load_stored Coordinates cls' world_init w' _ 0 _ "x" (VInt 2) E);
        first [reflexivity | split; reflexivity | intros n; reflexivity].
    + exists (VInt 3). split; [|reflexivity].
      eapply (dataklass_load_stored Coordinates cls' world_init w' _ 0 _ "y" (VInt 3) E);
        first [reflexivity | split; reflexivity | intros n; reflexivity].
Defined.

(** ** The hashing template *)

Lemma make__hash___text (names : list string) :
  Source.make__hash__ names
  = "def __hash__(self):" +:+ nl +:+
    "    return hash((" +:+ join "," (map (eq_item "self") names) +:+ ",))" +:+ nl.
Proof.
  unfold Source.make__hash__. rewrite !append_assoc. reflexivity.
Qed.

Lemma tokenize_hash (names : list string) :
  names <> [] -> Forall is_identifier names ->
  tokenize (Source.make__hash__ names) = Ok (hash_toks names).
Proof.
  intros Hne Hall. rewrite make__hash___text.
  unfold tokenize, lexer_init, nl.
  lex_lit. lex_lit. lex_lit.
  rewrite (lex_eq_items names _ _ "self" "))") by (done || apply is_identifier_self).
  lex_lit. lex_lit.
  unfold lex_finish, lex_flush, rbind, hash_toks.
  cbn [lx_mode lx_toks lx_indents length].
  remember (tuple_toks "self" names) as A.
  f_equal. change (repeat TDedent (2 - 1)) with [TDedent].
  repeat first [rewrite rev_app_distr | rewrite rev_involutive
               | rewrite <- app_assoc | progress simpl].
  reflexivity.
Qed.

Lemma parse_tuple_expr (names : list string) (fuel : nat) (rest : list token) :
  names <> [] -> length names + 7 <= fuel ->
  parse_expr fuel (TLParen :: tuple_toks "self" names ++ TRParen :: TRParen :: rest)
  = Ok (ETuple (fields_of "self" names), TRParen :: rest).
Proof.
  intros Hne Hfuel. destruct fuel as [|[|[|fuel]]]; try lia.
  cbn [parse_expr parse_primary].
  rewrite parse_tuple by (done || lia). reflexivity.
Qed.

Lemma parse_hash_args (names : list string) (fuel : nat) (rest : list token) :
  names <> [] -> length names + 8 <= fuel ->
  parse_elems fuel (TLParen :: tuple_toks "self" names ++ TRParen :: TRParen :: rest)
  = Ok ([ETuple (fields_of "self" names)], rest).
Proof.
  intros Hne Hfuel. destruct fuel as [|fuel]; [lia|].
  cbn [parse_elems]. rewrite parse_tuple_expr by (done || lia). reflexivity.
Qed.

Lemma parse_return_hash (names : list string) (fuel : nat) (rest : list token) :
  names <> [] -> length names + 12 <= fuel ->
  parse_stmt fuel
    (TKeyword "return" :: TName "hash" :: TLParen :: TLParen :: tuple_toks "self" names
     ++ TRParen :: TRParen :: TNewline :: rest)
  = Ok (SReturn (ECall (EName "hash") [ETuple (fields_of "self" names)]), rest).
Proof.
  intros Hne Hfuel. destruct fuel as [|[|[|[|[|fuel]]]]]; try lia.
  cbn [parse_stmt parse_expr parse_primary].
  change (parse_atom (S (S fuel)) (TName "hash" :: ?r)) with (Ok (EName "hash", r)).
  cbn [rbind parse_trailers].
  rewrite parse_hash_args by (done || lia).
  reflexivity.
Qed.

Lemma parse_hash (names : list string) :
  names <> [] ->
  parse_funcdef (8 * length (hash_toks names) + 8) (hash_toks names)
  = Ok {| fd_name := "__hash__"; fd_params := ["self"];
          fd_body := [SReturn (ECall (EName "hash") [ETuple (fields_of "self" names)])] |}.
Proof.
  intros Hne.
  assert (Hfuel : length names + 14 <= 8 * length (hash_toks names) + 8).
  { unfold hash_toks. rewrite !length_app, !length_tuple_toks. simpl. lia. }
  remember (8 * length (hash_toks names) + 8) as fuel eqn:E. clear E.
  destruct fuel as [|[|fuel]]; try lia.
  unfold hash_toks. cbn [app]. rewrite parse_funcdef_unfold.
  change (parse_params (TName "self" :: TRParen :: ?r)) with (Ok (["self"], r)).
  cbn [rbind].
  erewrite parse_suite_single by (apply parse_return_hash; [done|lia]).
  cbn [rbind]. by rewrite has_dup_false by (apply NoDup_singleton).
Qed.

(** ** Compiling the hashing template *)

Lemma compile_call_name (vn : list string) (s : string) (args : list expr) (cs : cstate) :
  compile_expr vn (ECall (EName s) args) cs
  = rbind (compile_expr vn (EName s) cs) (fun cs1 =>
      rbind (compile_exprs vn args cs1) (fun cs2 =>
        Ok (emit (CALL_FUNCTION (length args)) cs2))).
Proof. reflexivity. Qed.

Lemma compile_hash_body (names : list string) :
  names <> [] -> NoDup ("hash" :: names) ->
  compile_body ["self"]
    [SReturn (ECall (EName "hash") [ETuple (fields_of "self" names)])]
    {| cs_names := []; cs_consts := [KNone]; cs_code := [] |}
  = Ok {| cs_names := "hash" :: names; cs_consts := [KNone];
          cs_code := hash_code (length names) |}.
Proof.
  intros Hne Hnd.
  assert (Htuple : forall cs,
            compile_expr ["self"] (ETuple (fields_of "self" names)) cs
            = rbind (compile_exprs ["self"] (fields_of "self" names) cs) (fun cs =>
                Ok (emit (BUILD_TUPLE (length names)) cs))).
  { intros cs. destruct names as [|n names]; [done|].
    unfold fields_of. cbn [map]. rewrite compile_tuple. cbn [length].
    by rewrite length_map. }
  cbn [compile_body compile_stmt]. rewrite compile_call_name.
  change (compile_expr ["self"] (EName "hash")
            {| cs_names := []; cs_consts := [KNone]; cs_code := [] |})
    with (Ok {| cs_names := ["hash"]; cs_consts := [KNone]; cs_code := [LOAD_GLOBAL 0] |}).
  cbn [rbind compile_exprs]. rewrite Htuple.
  rewrite (compile_self_fields ["self"] "hash" [] names) by done.
  cbn [rbind]. unfold emit. cbn [cs_names cs_consts cs_code app length].
  unfold hash_code. f_equal. f_equal.
  repeat (rewrite <- app_assoc; cbn [app]). reflexivity.
Qed.

(** The hashing template, for any list of distinct names other than
    [hash]. *)
Lemma exec_def_hash (names : list string) :
  names <> [] -> Forall is_identifier names -> NoDup ("hash" :: names) ->
  exists c,
    exec_def (Source.make__hash__ names) = Ok c
    /\ co_code c = hash_code (length names)
    /\ co_names c = "hash" :: names
    /\ co_varnames c = ["self"]
    /\ co_consts c = [KNone]
    /\ co_argcount c = 1
    /\ co_kwonlyargcount c = 0
    /\ co_nlocals c = 1.
Proof.
  intros Hne Hall Hnd. unfold exec_def, parse_module.
  rewrite tokenize_hash by done. cbn [rbind].
  rewrite parse_hash by done. cbn [rbind].
  unfold compile_funcdef. cbn [fd_params fd_body fd_name].
  rewrite compile_hash_body by done. cbn [rbind].
  eexists. split; [reflexivity|]. cbn. done.
Qed.

Lemma placeholders_not_hash (n : nat) : NoDup ("hash" :: placeholders n).
Proof.
  pose proof (placeholders_NoDup n) as [_ Hnd]%NoDup_cons.
  apply NoDup_cons. split; [|done].
  intros Hin. unfold placeholders in Hin.
  apply list_elem_of_fmap in Hin as (i & Hi & _). discriminate Hi.
Qed.

(** The hashing template of every arity but 0. *)
Lemma exec_def_make__hash__ (n : nat) :
  0 < n ->
  exists c,
    exec_def (template_source F_hash (placeholders n)) = Ok c
    /\ co_code c = hash_code n
    /\ co_names c = "hash" :: placeholders n
    /\ co_varnames c = ["self"]
    /\ co_consts c = [KNone]
    /\ co_argcount c = 1
    /\ co_kwonlyargcount c = 0
    /\ co_nlocals c = 1.
Proof.
  intros Hn.
  destruct (exec_def_hash (placeholders n)) as (c & Hc);
    [by apply placeholders_nonempty|apply placeholders_identifiers
    |apply placeholders_not_hash|].
  rewrite length_placeholders in Hc. by exists c.
Qed.

Lemma exec_def_hash_no_fields :
  exec_def (template_source F_hash (placeholders 0)) = Raise SyntaxError.
Proof. vm_compute. reflexivity. Qed.

(** ** Name operands and the symbol tables *)

Ltac in_range :=
  repeat first [apply Forall_nil_2
               | apply Forall_cons_2; [simpl; first [exact I | lia]|]].

Lemma init_instrs_in_range (bound start count : nat) :
  start + count <= bound -> Forall (name_operand_ok bound) (init_instrs start count).
Proof.
  revert start. induction count as [|count IH]; intros start H; [constructor|].
  change (init_instrs start (S count))
    with ([LOAD_FAST (S start); LOAD_FAST 0; STORE_ATTR start] ++ init_instrs (S start) count).
  apply Forall_app. split; [|apply IH; lia]. in_range.
Qed.

Lemma repr_more_in_range (bound start count : nat) :
  2 + start + count <= bound -> Forall (name_operand_ok bound) (repr_more start count).
Proof.
  revert start. induction count as [|count IH]; intros start H; [constructor|].
  rewrite repr_more_S. apply Forall_cons_2; [exact I|].
  apply Forall_app. split; [|apply IH; lia].
  unfold repr_field. in_range.
Qed.

Lemma load_fields_in_range (bound v start count : nat) :
  S (start + count) <= bound -> Forall (name_operand_ok bound) (load_fields v start count).
Proof.
  revert start. induction count as [|count IH]; intros start H; [constructor|].
  rewrite load_fields_S. apply Forall_app. split; [|apply IH; lia]. in_range.
Qed.

Lemma init_code_in_range (n : nat) : Forall (name_operand_ok n) (init_code n).
Proof.
  unfold init_code. apply Forall_app. split; [by apply init_instrs_in_range|].
  in_range.
Qed.

Lemma repr_code_in_range (n : nat) : Forall (name_operand_ok (2 + n)) (repr_code n).
Proof.
  destruct n as [|m]; [unfold repr_code, repr_head; cbn [app]; in_range|].
  unfold repr_code, repr_head, repr_field.
  repeat (apply Forall_app; split); try (by in_range).
  apply repr_more_in_range. lia.
Qed.

Lemma hash_code_in_range (n : nat) : Forall (name_operand_ok (S n)) (hash_code n).
Proof.
  unfold hash_code.
  repeat (apply Forall_app; split); try (by in_range).
  apply load_fields_in_range. lia.
Qed.

(** X22. The hashing template: for no field its text is a syntax
    error; for every other arity it compiles to a function of [self]
    whose names are [hash] and the placeholders, and specializing it as
    the decorator's disabled line does, keeping the first name, gives
    [hash] followed by the fields, with every name the instructions
    refer to in the table. *)
Theorem make__hash___template (n : nat) (fields : list string) (w : world) :
  cache_wf w ->
  length fields = n ->
  match n with
  | 0 => fst (make__hash__ n w) = Raise SyntaxError
  | S _ =>
      exists t w1 f w2,
        make__hash__ n w = (Ok t, w1)
        /\ co_names (fn_code t) = "hash" :: placeholders n
        /\ co_varnames (fn_code t) = ["self"]
        /\ patch_attributes t fields 1 w1 = (Ok f, w2)
        /\ co_code (fn_code f) = hash_code n
        /\ co_names (fn_code f) = "hash" :: fields
        /\ names_in_range (fn_code f)
  end.
Proof.
  intros Hwf Hlen. destruct n as [|m].
  { unfold make__hash__. by rewrite (codegen_fails F_hash 0 w SyntaxError Hwf exec_def_hash_no_fields). }
  destruct (exec_def_make__hash__ (S m)) as (c & Hc & Hcode & Hnames & Hvars & _ & Hargs & Hkw & _);
    [lia|].
  destruct (codegen_succeeds F_hash (S m) w c Hwf Hc) as (t & w1 & Ht & Htc & _).
  clear Hc. subst c.
  exists t, w1. eexists _, _. split; [exact Ht|]. split; [exact Hnames|]. split; [exact Hvars|].
  split.
  { apply patch_attributes_ok. rewrite Hargs, Hkw, Hvars. apply le_n. }
  cbn [fn_code with_names co_code co_names]. rewrite Hnames. cbn [take].
  split; [exact Hcode|]. split; [reflexivity|].
  unfold names_in_range. cbn [fn_code with_names co_code co_names app length].
  rewrite take_0. cbn [app]. rewrite Hcode, Hlen. apply hash_code_in_range.
Qed.

Lemma make__hash___template_witness :
  exists t w1 f w2,
    make__hash__ 2 world_init = (Ok t, w1)
    /\ patch_attributes t ["x"; "y"] 1 w1 = (Ok f, w2)
    /\ co_names (fn_code f) = ["hash"; "x"; "y"].
Proof.
  destruct (make__hash___template 2 ["x"; "y"] world_init cache_wf_init eq_refl)
    as (t & w1 & f & w2 & Ht & _ & _ & Hf & _ & Hn & _).
  exists t, w1, f, w2. split; [exact Ht|]. split; [exact Hf|exact Hn].
Defined.

(** X23. The constructor and the representation the decorator
    attaches refer to names of their own [co_names] only; the equality
    it attaches does not: one of its instructions names an entry past
    the end of the table. *)
Theorem attached_names_in_range (cls cls' : pyclass) (w w' : world) (fam : family) :
  cache_wf w ->
  dataklass cls w = (Ok cls', w') ->
  fam ∈ attached_families ->
  cls_vars cls !! family_attr fam = None ->
  exists f,
    cls_vars cls' !! family_attr fam = Some (AFunc f)
    /\ (names_in_range (fn_code f) <-> fam <> F_eq).
Proof.
  intros Hwf Hd Hfam Hnone.
  unfold attached_families in Hfam.
  apply elem_of_cons in Hfam as [->|Hfam]; [|apply elem_of_cons in Hfam as [->|Hfam];
    [|apply list_elem_of_singleton in Hfam as ->]].
  - destruct (dataklass_init_code cls cls' w w' Hwf Hd Hnone)
      as (d & f & _ & _ & Hf & Hcode & Hnames & _).
    exists f. split; [exact Hf|]. split; [done|intros _].
    unfold names_in_range. rewrite Hcode, Hnames.
    unfold PyDict.keys. rewrite length_map. apply init_code_in_range.
  - destruct (dataklass_repr_code cls cls' w w' Hwf Hd Hnone)
      as (d & f & _ & Hf & Hcode & Hnames & _).
    exists f. split; [exact Hf|]. split; [done|intros _].
    unfold names_in_range. rewrite Hcode, Hnames. cbn [length].
    unfold PyDict.keys. rewrite length_map. apply repr_code_in_range.
  - destruct (dataklass_eq_code cls cls' w w' Hwf Hd Hnone)
      as (d & f & _ & _ & Hf & Hcode & Hnames & _).
    exists f. split; [exact Hf|]. split; [|done]. intros Hall. exfalso.
    unfold names_in_range in Hall. rewrite Hcode, Hnames in Hall. cbn [length] in Hall.
    unfold PyDict.keys in Hall. rewrite length_map in Hall.
    rewrite Forall_forall in Hall.
    specialize (Hall (LOAD_GLOBAL (S (length d)))). simpl in Hall.
    assert (Hin : LOAD_GLOBAL (S (length d)) ∈ eq_code (length d)).
    { unfold eq_code. rewrite !elem_of_app. do 4 right. do 3 right. left. }
    specialize (Hall Hin). lia.
Qed.

Lemma attached_names_in_range_witness :
  exists cls' f,
    fst (dataklass Coordinates world_init) = Ok cls'
    /\ cls_vars cls' !! "__repr__" = Some (AFunc f)
    /\ names_in_range (fn_code f).
Proof.
  destruct (dataklass Coordinates world_init) as [r w'] eqn:E.
  assert (Hr : exists cls', r = Ok cls').
  { replace r with (fst (dataklass Coordinates world_init)) by (by rewrite E).
    vm_compute. eauto. }
  destruct Hr as [cls' ->].
  destruct (attached_names_in_range Coordinates cls' world_init w' F_repr cache_wf_init E)
    as (f & Hf & Hrange).
  - right. left.
  - reflexivity.
  - exists cls', f. split; [reflexivity|]. split; [exact Hf|].
    apply Hrange. discriminate.
Defined.

(** ** Methods the class defines, methods the decorator attaches *)

(** C8. For a class decorated in a process whose template caches
    hold what [codegen] put there: a method of a synthesized family
    that the class defines in its own namespace is still the same
    attribute when the decorator returns; and each of the three
    families the class does not define there (whether or not it
    inherits one) is attached as a function whose code is the compiled
    template of the family for the number of fields, specialized to
    the resolved field names: the instructions of the template with
    the field names in its symbol tables. *)
Theorem dataklass_respects_overrides (cls cls' : pyclass) (w w' : world) (fam : family) :
  cache_wf w ->
  dataklass cls w = (Ok cls', w') ->
  fam ∈ attached_families ->
  (is_Some (cls_vars cls !! family_attr fam) ->
     cls_vars cls' !! family_attr fam = cls_vars cls !! family_attr fam)
  /\ (cls_vars cls !! family_attr fam = None ->
      exists d f t,
        all_hints cls = Ok d
        /\ cls_vars cls' !! family_attr fam = Some (AFunc f)
        /\ exec_def (template_source fam (placeholders (length d))) = Ok t
        /\ fn_code f = specialized_code fam t (PyDict.keys d)
        /\ synthesized_for fam (PyDict.keys d) (fn_code f)).
Proof.
  intros Hwf Hd Hfam. split.
  - intros Hs. eapply dataklass_lookup; [done| |by right].
    unfold attached_families in Hfam.
    repeat (apply elem_of_cons in Hfam as [->|Hfam]; [done|]). by apply elem_of_nil in Hfam.
  - intros Hnone.
    destruct (dataklass_attached_code cls cls' w w' fam Hwf Hd Hfam Hnone)
      as (_ & d & f & t & Hhints & Hf & Ht & Hcode).
    exists d, f, t. do 4 (split; [done|]).
    assert (Hklen : length (PyDict.keys d) = length d)
      by (unfold PyDict.keys; by rewrite length_map).
    unfold attached_families in Hfam.
    apply elem_of_cons in Hfam as [->|Hfam]; [|apply elem_of_cons in Hfam as [->|Hfam];
      [|apply elem_of_cons in Hfam as [->|Hfam]; [|by apply elem_of_nil in Hfam]]];
      simpl in Hf, Hnone |- *; rewrite Hklen.
    + destruct (dataklass_init_code cls cls' w w' Hwf Hd Hnone)
        as (d' & f' & Hh' & _ & Hf' & Hc & Hn & Hv & _).
      rewrite Hhints in Hh'. injection Hh' as <-.
      rewrite Hf in Hf'. injection Hf' as <-. done.
    + destruct (dataklass_repr_code cls cls' w w' Hwf Hd Hnone)
        as (d' & f' & Hh' & Hf' & Hc & Hn & _).
      rewrite Hhints in Hh'. injection Hh' as <-.
      rewrite Hf in Hf'. injection Hf' as <-. done.
    + destruct (dataklass_eq_code cls cls' w w' Hwf Hd Hnone)
        as (d' & f' & Hh' & _ & Hf' & Hc & Hn & _).
      rewrite Hhints in Hh'. injection Hh' as <-.
      rewrite Hf in Hf'. injection Hf' as <-. done.
Qed.

Lemma dataklass_respects_overrides_witness :
  exists cls' f,
    fst (dataklass Labelled world_init) = Ok cls'
    /\ cls_vars Labelled !! "__repr__" = Some (AFunc own_repr)
    /\ cls_vars cls' !! "__repr__" = Some (AFunc own_repr)
    /\ cls_vars Labelled !! "__init__" = None
    /\ cls_vars cls' !! "__init__" = Some (AFunc f)
    /\ co_code (fn_code f) = init_code 1
    /\ co_names (fn_code f) = ["x"]
    /\ co_varnames (fn_code f) = ["self"; "x"].
Proof.
  destruct (dataklass Labelled world_init) as [r w'] eqn:E.
  assert (Hr : exists cls', r = Ok cls').
  { replace r with (fst (dataklass Labelled world_init)) by (by rewrite E).
    vm_compute. eauto. }
  destruct Hr as [cls' ->].
  assert (Hrepr : F_repr ∈ attached_families) by (right; left).
  assert (Hinit : F_init ∈ attached_families) by left.
  destruct (dataklass_respects_overrides Labelled cls' world_init w' F_repr
              cache_wf_init E Hrepr) as [Hkeep _].
  destruct (dataklass_respects_overrides Labelled cls' world_init w' F_init
              cache_wf_init E Hinit) as [_ Hnew].
  destruct (Hnew eq_refl) as (d & f & t & Hhints & Hf & _ & _ & Hcode & Hnames & Hvars).
  change (Ok [("x", "int")] = Ok d) in Hhints. injection Hhints as <-.
  exists cls', f. split; [reflexivity|]. split; [reflexivity|].
  split; [exact (Hkeep (mk_is_Some _ _ eq_refl))|].
  split; [reflexivity|]. split; [exact Hf|].
  split; [exact Hcode|]. split; [exact Hnames|exact Hvars].
Defined.
